(** * fingerprint-converter: nonce engine, downloader, ephemeral store, pipeline

    A shallow embedding of the Go sources of the media fingerprint converter
    (packages [services], [storage] and [handlers]) together with the
    properties stated about them.

    Conventions.
    - Go [int64] / [int] values are integers [Z]; arithmetic that can
      overflow is wrapped with [wrap64] (two's complement).
    - Go strings are [string] (a sequence of bytes, one [ascii] per byte).
    - [time.Time] is a number of nanoseconds [Z]; [time.Duration] likewise.
    - Go maps are [gmap]; the file system is a finite map from paths to files.
    - Everything the process obtains from outside (clock, random bytes, HTTP
      responses, the transcoder's exit status) is an explicit argument. *)

From Stdlib Require Import ZArith Lia Floats Uint63 DecimalString Ascii.
From Stdlib Require DecimalZ DecimalPos.
From stdpp Require Import gmap strings list fin_maps.

Set Warnings "-inexact-float,-clear-no-such-hyp".

Local Open Scope Z_scope.

(** ** Machine integers *)

Module Int64.

Definition modulus : Z := 2 ^ 64.
Definition half : Z := 2 ^ 63.

(** The value an [int64] holds after an operation whose exact result is [z]. *)
Definition wrap64 (z : Z) : Z := (z + half) mod modulus - half.

Definition in_range (z : Z) : Prop := - half <= z < half.

End Int64.

(** ** Go strings: the functions of package [strings] and [path/filepath]
    the sources call.  A string is a sequence of bytes. *)

Module GoStr.

Definition byteVal (c : ascii) : Z := Z.of_N (N_of_ascii c).

Definition len (s : string) : Z := Z.of_nat (String.length s).

(** [strings.ToLower], on the ASCII letters. *)
Definition lowerByte (c : ascii) : ascii :=
  let n := N_of_ascii c in
  if ((65 <=? n) && (n <=? 90))%N then ascii_of_N (n + 32) else c.

Fixpoint ToLower (s : string) : string :=
  match s with
  | EmptyString => EmptyString
  | String c r => String (lowerByte c) (ToLower r)
  end.

Fixpoint HasPrefix (s prefix : string) : bool :=
  match prefix, s with
  | EmptyString, _ => true
  | String p ps, String c cs => Ascii.eqb p c && HasPrefix cs ps
  | String _ _, EmptyString => false
  end.

Definition HasSuffix (s suffix : string) : bool :=
  HasPrefix (String.rev s) (String.rev suffix).

Fixpoint Contains (s substr : string) : bool :=
  HasPrefix s substr ||
  match s with
  | EmptyString => false
  | String _ r => Contains r substr
  end.

Fixpoint take (n : nat) (s : string) : string :=
  match n, s with
  | S k, String c r => String c (take k r)
  | _, _ => EmptyString
  end.

Fixpoint drop (n : nat) (s : string) : string :=
  match n, s with
  | S k, String _ r => drop k r
  | _, _ => s
  end.

(** [strings.TrimSuffix]. *)
Definition TrimSuffix (s suffix : string) : string :=
  if HasSuffix s suffix
  then take (String.length s - String.length suffix) s
  else s.

(** [filepath.Ext]: the suffix starting at the last dot of the last path
    element, empty when that element has no dot. *)
Fixpoint extGo (rev_s acc : string) : string :=
  match rev_s with
  | EmptyString => EmptyString
  | String c r =>
      if Ascii.eqb c "/" then EmptyString
      else if Ascii.eqb c "." then String c acc
      else extGo r (String c acc)
  end.

Definition Ext (path : string) : string := extGo (String.rev path) EmptyString.

(** [filepath.Join dir file] for a clean [dir] and a plain file name. *)
Definition Join (dir file : string) : string := dir +:+ "/" +:+ file.

(** [fmt.Sprintf("%d", z)]. *)
Definition itoa (z : Z) : string := NilZero.string_of_int (Z.to_int z).

(** [hex.EncodeToString]. *)
Definition hexDigit (n : N) : ascii :=
  match String.get (N.to_nat n) "0123456789abcdef" with
  | Some c => c
  | None => "0"%char
  end.

Fixpoint hexEncode (bs : string) : string :=
  match bs with
  | EmptyString => EmptyString
  | String c r =>
      let n := N_of_ascii c in
      String (hexDigit (n / 16)) (String (hexDigit (n mod 16)) (hexEncode r))
  end.

Fixpoint zeros (n : nat) : string :=
  match n with
  | O => EmptyString
  | S k => String zero (zeros k)
  end.

(** The content of an [n]-byte buffer, initially zero, after a read
    delivered [bs] into it. *)
Definition fill (n : nat) (bs : string) : string :=
  take n (bs +:+ zeros n).

(** [strings.LastIndex]: the index of the last place where [substr] occurs in
    [s], [-1] when it occurs nowhere. *)
Fixpoint lastIndexFrom (s substr : string) (i found : Z) : Z :=
  let found := if HasPrefix s substr then i else found in
  match s with
  | EmptyString => found
  | String _ r => lastIndexFrom r substr (i + 1) found
  end.

Definition LastIndex (s substr : string) : Z := lastIndexFrom s substr 0 (-1).

(** [filepath.Base]: the last element of a path, trailing slashes removed;
    [.] for the empty path and [/] for a path of slashes only. *)
Fixpoint dropSlashes (rev_s : string) : string :=
  match rev_s with
  | EmptyString => EmptyString
  | String c r => if Ascii.eqb c "/" then dropSlashes r else rev_s
  end.

Fixpoint lastElem (rev_s acc : string) : string :=
  match rev_s with
  | EmptyString => acc
  | String c r => if Ascii.eqb c "/" then acc else lastElem r (String c acc)
  end.

Definition Base (path : string) : string :=
  if String.eqb path "" then "."
  else
    let last := lastElem (dropSlashes (String.rev path)) EmptyString in
    if String.eqb last "" then "/" else last.

End GoStr.

(** ** Go errors *)

Module GoErr.

(** An [error] value: the two [io] sentinels the downloader compares by
    identity, a plain message, or [fmt.Errorf] with one [%w] verb. *)
Inductive Errno : Type := ENOENT | EACCES.

Definition errnoText (n : Errno) : string :=
  match n with
  | ENOENT => "no such file or directory"
  | EACCES => "permission denied"
  end.

Inductive error : Type :=
| EOF
| ErrUnexpectedEOF
| New (msg : string)
| PathError (op path : string) (errno : Errno)
| Wrap (pre : string) (cause : error) (post : string).

Fixpoint Error (e : error) : string :=
  match e with
  | EOF => "EOF"
  | ErrUnexpectedEOF => "unexpected EOF"
  | New msg => msg
  | PathError op path errno => op +:+ " " +:+ path +:+ ": " +:+ errnoText errno
  | Wrap pre cause post => pre +:+ Error cause +:+ post
  end.

(** [os.IsNotExist]. *)
Definition IsNotExist (e : error) : bool :=
  match e with
  | PathError _ _ ENOENT => true
  | _ => false
  end.

Definition isSentinelEOF (e : error) : bool :=
  match e with
  | EOF | ErrUnexpectedEOF => true
  | _ => false
  end.

Inductive result (A : Type) : Type :=
| Ok (a : A)
| Err (e : error).
Arguments Ok {A} a.
Arguments Err {A} e.

Definition isOk {A} (r : result A) : bool :=
  match r with Ok _ => true | Err _ => false end.

(** [errors.Unwrap] chain membership: [e] wraps [c] (or is [c]). *)
Fixpoint wraps (e c : error) : Prop :=
  e = c \/ match e with
           | Wrap _ cause _ => wraps cause c
           | _ => False
           end.

End GoErr.

(** ** The process and its environment *)

Module Rt.
Import GoErr.

(** Library code outside the repository: the [math/rand] generator and the
    image codecs.  [NewSource seed] is [rand.New(rand.NewSource(seed))];
    [Intn], [Float64] and [ReadN] are the methods of a [*rand.Rand] (and, on
    the process-wide generator, the package-level functions).
    [lsbTweak data format r] decodes [data], changes the low bits of three
    centre pixels with draws from [r] and re-encodes ([None]: the codec
    failed). *)
Class GoLib : Type := {
  Rand : Type;
  NewSource : Z -> Rand;
  Intn : Z -> Rand -> Z * Rand;
  Float64 : Rand -> float * Rand;
  ReadN : nat -> Rand -> string * Rand;
  lsbTweak : string -> string -> Rand -> option string;
}.

(** *** HTTP *)

(** A response body as a reader: it delivers [avail] and then ends, cleanly
    ([None], [io.EOF]) or with a read error. *)
Record Stream : Type := { avail : string; trailer : option error }.

Record Response : Type := {
  StatusCode : Z;
  ContentLength : Z;
  Body : Stream;
}.

Inductive HttpOutcome : Type :=
| RequestInvalid (e : error)   (* http.NewRequestWithContext failed *)
| DoFailed (e : error)         (* client.Do failed *)
| DoOk (resp : Response).

(** *** The transcoder *)

(** One invocation of the external transcoder with the parameters the
    converters compute (the filter strings are kept as numbers). *)
Record audioParams : Type := {
  bitrate : string;
  compression : Z;
  silencePadding : Z;
  pitchShift : float;
  addNoise : bool;
  noiseLevel : float;
}.

Inductive FfmpegJob : Type :=
| AudioScript (delayMs : Z) (volume : float) (codec format : string)
    (extraArgs : list string) (title : string) (stdin : string)
| ImageScript (cropPixels : Z) (gamma : float) (comment : string)
    (webp : bool) (stdin : string)
| VideoScript (cropPixels : Z) (gamma : float) (boxX boxY : Z)
    (title : string) (input : string)
| AudioLevel (params : audioParams) (noiseSeconds : Z) (stdin : string).

Inductive ExecOutcome : Type :=
| ExecFailed (e : error) (stderr : string)
| ExecDone (stdout : string).

(** *** Storage data *)

Record TempFile : Type := {
  ID : string;
  Path : string;
  OriginalPath : string;
  MediaType : string;
  CreatedAt : Z;
  ExpiresAt : Z;
  Size : Z;
}.

(** [sync.RWMutex]: number of read holders and whether it is write-held. *)
Record RWMutex : Type := { readers : nat; writer : bool }.

(** [time.Ticker]. *)
Record Ticker : Type := { period : Z; nextTick : Z; ticking : bool }.

Record TempStorage : Type := {
  baseDir : string;
  files : gmap string TempFile;
  mu : RWMutex;
  ttl : Z;
  cleanupTicker : Ticker;
  stopCleanup : bool;   (* the channel is closed *)
}.

(** A [scheduleDeletion] goroutine inside its [time.Sleep]. *)
Record Sleeper : Type := {
  wakeAt : Z;
  sId : string;
  sPath : string;
  sOriginal : string;
}.

Inductive LogLine : Type :=
| LogStorageInit (ttl : Z) (dir : string)
| LogStored (id mediaType : string) (expires : Z)
| LogDeleteFailed (path : string) (e : error)
| LogDeletedExpired (id : string)
| LogCleanupFailed (path : string) (e : error)
| LogCleanupRemoved (n : Z)
| LogStorageStopped
| LogDownloading (size attempt : Z) (url : string)
| LogNoContentLength (url : string)
| LogDownloadComplete (size : Z) (url : string)
| LogRetrying (attempt : Z) (e : error)
| LogLSBFailed (e : error)
| LogInfo (msg : string).


(** What the outside world answers.  [entropySrc k] is the outcome of the
    [k]-th [crypto/rand.Read]; [httpSrc url k] of the [k]-th request;
    [allocatedSrc k] the buffer pool's [GetStats().Allocated] seen by it;
    [execSrc k job] the outcome of the [k]-th transcoder run. *)
Record Env : Type := {
  entropySrc : nat -> option string;
  httpSrc : string -> nat -> HttpOutcome;
  allocatedSrc : nat -> Z;
  execSrc : nat -> FfmpegJob -> ExecOutcome;
  denyWrite : string -> bool;
  denyRemove : string -> bool;
}.

Section World.
Context `{L : GoLib}.

Record World : Type := {
  time : Z;                     (* the clock, in nanoseconds *)
  entropyReads : nat;           (* crypto/rand reads so far *)
  httpCalls : nat;              (* download attempts so far *)
  netRead : Z;                  (* bytes taken from response bodies *)
  jobs : list FfmpegJob;        (* transcoder runs so far, oldest first *)
  global : Rand;                (* the process-wide math/rand generator *)
  fs : gmap string string;      (* regular files: path to content *)
  store : TempStorage;
  sleepers : list Sleeper;
  log : list LogLine;           (* oldest first *)
}.

Definition set_time (x : Z) (w : World) : World :=
  {| time := x; entropyReads := entropyReads w; httpCalls := httpCalls w;
     netRead := netRead w; jobs := jobs w; global := global w; fs := fs w;
     store := store w; sleepers := sleepers w; log := log w |}.
Definition set_entropyReads (x : nat) (w : World) : World :=
  {| time := time w; entropyReads := x; httpCalls := httpCalls w;
     netRead := netRead w; jobs := jobs w; global := global w; fs := fs w;
     store := store w; sleepers := sleepers w; log := log w |}.
Definition set_httpCalls (x : nat) (w : World) : World :=
  {| time := time w; entropyReads := entropyReads w; httpCalls := x;
     netRead := netRead w; jobs := jobs w; global := global w; fs := fs w;
     store := store w; sleepers := sleepers w; log := log w |}.
Definition set_netRead (x : Z) (w : World) : World :=
  {| time := time w; entropyReads := entropyReads w; httpCalls := httpCalls w;
     netRead := x; jobs := jobs w; global := global w; fs := fs w;
     store := store w; sleepers := sleepers w; log := log w |}.
Definition set_jobs (x : list FfmpegJob) (w : World) : World :=
  {| time := time w; entropyReads := entropyReads w; httpCalls := httpCalls w;
     netRead := netRead w; jobs := x; global := global w; fs := fs w;
     store := store w; sleepers := sleepers w; log := log w |}.
Definition set_global (x : Rand) (w : World) : World :=
  {| time := time w; entropyReads := entropyReads w; httpCalls := httpCalls w;
     netRead := netRead w; jobs := jobs w; global := x; fs := fs w;
     store := store w; sleepers := sleepers w; log := log w |}.
Definition set_fs (x : gmap string string) (w : World) : World :=
  {| time := time w; entropyReads := entropyReads w; httpCalls := httpCalls w;
     netRead := netRead w; jobs := jobs w; global := global w; fs := x;
     store := store w; sleepers := sleepers w; log := log w |}.
Definition set_store (x : TempStorage) (w : World) : World :=
  {| time := time w; entropyReads := entropyReads w; httpCalls := httpCalls w;
     netRead := netRead w; jobs := jobs w; global := global w; fs := fs w;
     store := x; sleepers := sleepers w; log := log w |}.
Definition set_sleepers (x : list Sleeper) (w : World) : World :=
  {| time := time w; entropyReads := entropyReads w; httpCalls := httpCalls w;
     netRead := netRead w; jobs := jobs w; global := global w; fs := fs w;
     store := store w; sleepers := x; log := log w |}.
Definition set_log (x : list LogLine) (w : World) : World :=
  {| time := time w; entropyReads := entropyReads w; httpCalls := httpCalls w;
     netRead := netRead w; jobs := jobs w; global := global w; fs := fs w;
     store := store w; sleepers := sleepers w; log := x |}.

Definition set_files (x : gmap string TempFile) (ts : TempStorage) : TempStorage :=
  {| baseDir := baseDir ts; files := x; mu := mu ts; ttl := ttl ts;
     cleanupTicker := cleanupTicker ts; stopCleanup := stopCleanup ts |}.
Definition set_mu (x : RWMutex) (ts : TempStorage) : TempStorage :=
  {| baseDir := baseDir ts; files := files ts; mu := x; ttl := ttl ts;
     cleanupTicker := cleanupTicker ts; stopCleanup := stopCleanup ts |}.
Definition set_cleanupTicker (x : Ticker) (ts : TempStorage) : TempStorage :=
  {| baseDir := baseDir ts; files := files ts; mu := mu ts; ttl := ttl ts;
     cleanupTicker := x; stopCleanup := stopCleanup ts |}.
Definition set_stopCleanup (x : bool) (ts : TempStorage) : TempStorage :=
  {| baseDir := baseDir ts; files := files ts; mu := mu ts; ttl := ttl ts;
     cleanupTicker := cleanupTicker ts; stopCleanup := x |}.

Definition logf (l : LogLine) (w : World) : World := set_log (log w ++ [l]) w.

(** [time.Sleep d] of the running operation. *)
Definition Sleep (d : Z) (w : World) : World := set_time (time w + d) w.

(** *** Package [os] *)

Definition Stat (path : string) (w : World) : result Z :=
  match fs w !! path with
  | Some content => Ok (GoStr.len content)
  | None => Err (PathError "stat" path ENOENT)
  end.

Definition Remove (env : Env) (path : string) (w : World) : option error * World :=
  match fs w !! path with
  | None => (Some (PathError "remove" path ENOENT), w)
  | Some _ =>
      if denyRemove env path then (Some (PathError "remove" path EACCES), w)
      else (None, set_fs (delete path (fs w)) w)
  end.

Definition WriteFile (env : Env) (path data : string) (w : World) : option error * World :=
  if denyWrite env path then (Some (PathError "open" path EACCES), w)
  else (None, set_fs (<[path := data]> (fs w)) w).

(** *** [crypto/rand.Read] into a fresh [n]-byte buffer: the buffer after the
    call, and whether the call failed. *)
Definition cryptoRead (env : Env) (n : nat) (w : World) : (string * bool) * World :=
  let k := entropyReads w in
  let w' := set_entropyReads (S k) w in
  match entropySrc env k with
  | Some bs => ((GoStr.fill n bs, false), w')
  | None => ((GoStr.zeros n, true), w')
  end.

End World.
End Rt.

(** ** Package [services]: nonce engine and converters *)

Module Services.
Import GoErr Rt.

(** [nonce.go] *)
Record ProcessingNonce : Type := {
  Timestamp : Z;
  Random : string;   (* 16 bytes, hex encoded *)
  Nonce : string;    (* timestamp_random *)
}.

(** The loop of [GetSeedForRand]: [hash = hash*31 + int64(b)] over the bytes
    of the nonce string, in [int64] arithmetic. *)
Fixpoint hashBytes (bs : string) (hash : Z) : Z :=
  match bs with
  | EmptyString => hash
  | String b r => hashBytes r (Int64.wrap64 (hash * 31 + GoStr.byteVal b))
  end.

Definition GetSeedForRand (n : ProcessingNonce) : Z :=
  let hash := hashBytes (Nonce n) 0 in
  Z.lxor (Timestamp n) hash.

(** [float64(z)] for an integer of small magnitude. *)
Definition float64_of_Z (z : Z) : float :=
  if z <? 0 then PrimFloat.opp (PrimFloat.of_uint63 (Uint63.of_Z (- z)))
  else PrimFloat.of_uint63 (Uint63.of_Z z).

(** [image_converter.go]: [detectFormat] and [adjustOutputPath]. *)
Definition detectFormat (data : string) : string :=
  if GoStr.len data <? 12 then "unknown"
  else if String.eqb (GoStr.take 8 data)
            (String "137" (String "080" (String "078" (String "071"
              (String "013" (String "010" (String "026" (String "010" ""))))))))
  then "png"
  else if String.eqb (GoStr.take 2 data) (String "255" (String "216" ""))
  then "jpeg"
  else if String.eqb (GoStr.take 4 data) "RIFF"
          && String.eqb (GoStr.take 4 (GoStr.drop 8 data)) "WEBP"
  then "webp"
  else "unknown".

Definition adjustOutputPath (path format : string) : string :=
  let ext := GoStr.Ext path in
  let base := GoStr.TrimSuffix path ext in
  if String.eqb format "png" then base +:+ ".png"
  else if String.eqb format "webp" then base +:+ ".webp"
  else base +:+ ".jpg".

(** [video_converter.go]: [validateMP4Integrity]. *)
Definition hasAt (data : string) (sig : string) (i : nat) : bool :=
  GoStr.HasPrefix (GoStr.drop i data) sig.

Definition validateMP4Integrity (data : string) : option error :=
  if GoStr.len data <? 32
  then Some (New ("file too small: " +:+ GoStr.itoa (GoStr.len data) +:+ " bytes"))
  else
    let scanLimit := Nat.min 256 (String.length data) in
    let hasFtyp := existsb (hasAt data "ftyp") (seq 0 (scanLimit - 8)) in
    if negb hasFtyp
    then Some (New "missing ftyp box - file may be corrupted or not a valid MP4")
    else
      let hasModat :=
        existsb (fun i => hasAt data "mdat" i || hasAt data "moov" i)
                (seq 0 (String.length data - 8)) in
      if negb hasModat
      then Some (New "missing mdat/moov box - file may be truncated or corrupted")
      else None.

(** The statistics every converter keeps ([AudioStats], [ImageStats] and
    [VideoStats] are the same record, [recordSuccess] and [recordFailure] the
    same code).  Durations are nanoseconds. *)
Record ConverterStats : Type := {
  TotalConversions : Z;
  FailedConversions : Z;
  AvgConversionTime : Z;
}.

(** [recordSuccess]: the counter is incremented, then the average is
    recomputed in [int64] arithmetic with a truncating division by the new
    count.  [None] is the run-time panic of a division by zero. *)
Definition recordSuccess (duration : Z) (s : ConverterStats) : option ConverterStats :=
  let total := Int64.wrap64 (TotalConversions s + 1) in
  if total =? 0 then None
  else
    Some {| TotalConversions := total;
            FailedConversions := FailedConversions s;
            AvgConversionTime :=
              Int64.wrap64
                (Z.quot
                   (Int64.wrap64
                      (Int64.wrap64 (AvgConversionTime s * Int64.wrap64 (total - 1))
                       + duration))
                   total) |}.

Definition recordFailure (s : ConverterStats) : ConverterStats :=
  {| TotalConversions := TotalConversions s;
     FailedConversions := Int64.wrap64 (FailedConversions s + 1);
     AvgConversionTime := AvgConversionTime s |}.

Section Converters.
Context `{L : GoLib} (env : Env).

(** [GenerateNonce]: the clock, then 16 bytes of [crypto/rand], falling back
    to the process-wide [math/rand] generator when that read fails. *)
Definition GenerateNonce (w : World) : ProcessingNonce * World :=
  let now := time w in
  let '((randomBytes, failed), w) := cryptoRead env 16 w in
  let '(randomBytes, w) :=
    if failed
    then let '(bs, g) := ReadN 16 (global w) in (bs, set_global g w)
    else (randomBytes, w) in
  let randomHex := GoStr.hexEncode randomBytes in
  ({| Timestamp := now;
      Random := randomHex;
      Nonce := GoStr.itoa now +:+ "_" +:+ randomHex |}, w).

(** [cmd.Run()] of the transcoder. *)
Definition runFfmpeg (job : FfmpegJob) (w : World) : ExecOutcome * World :=
  (execSrc env (length (jobs w)) job, set_jobs (jobs w ++ [job]) w).

Definition ffmpegError (e : error) (stderr : string) : error :=
  New ("ffmpeg error: " +:+ Error e +:+ ", stderr: " +:+ stderr).

(** The common tail of the converters: run, check the output, write it. *)
Definition runAndWrite (job : FfmpegJob) (outPath : string) (w : World)
  : option error * World :=
  let '(out, w) := runFfmpeg job w in
  match out with
  | ExecFailed e stderr => (Some (ffmpegError e stderr), w)
  | ExecDone output =>
      if GoStr.len output =? 0 then (Some (New "ffmpeg produced no output"), w)
      else
        match WriteFile env outPath output w with
        | (Some e, w) => (Some (Wrap "failed to write output file: " e ""), w)
        | (None, w) => (None, w)
        end
  end.

(** The crop width shared by the image and video converters. *)
Definition cropFrom (draw ts : Z) : Z :=
  let cropPixels := 1 + draw in
  let cropVariation := Z.rem ts 3 in
  let cropPixels := Z.rem (cropPixels + cropVariation) 3 in
  if cropPixels =? 0 then 1 else cropPixels.

(** [AudioConverter.ConvertWithScriptTechniques]. *)
Definition audioCodec (inputFormat : string) : string * string * list string :=
  let f := GoStr.ToLower inputFormat in
  if String.eqb f "mp3" then ("libmp3lame", "mp3", ["-q:a"; "2"])
  else if String.eqb f "opus" then ("libopus", "opus", ["-vbr"; "on"; "-application"; "voip"])
  else if String.eqb f "m4a" || String.eqb f "aac" then ("aac", "m4a", ["-b:a"; "128k"])
  else if String.eqb f "ogg" then ("libvorbis", "ogg", ["-q:a"; "3"])
  else if String.eqb f "wav" then ("pcm_s16le", "wav", [])
  else ("libopus", "opus", ["-vbr"; "on"]).

Definition AudioConvertWithScriptTechniques
    (inputData outputPath inputFormat : string) (w : World) : option error * World :=
  if GoStr.len inputData =? 0 then (Some (New "empty input data"), w)
  else
    let '(nonce, w) := GenerateNonce w in
    let localRand := NewSource (GetSeedForRand nonce) in
    let uniqueTitle := "uid:" +:+ Nonce nonce in
    let '(d, localRand) := Intn 50 localRand in
    let delayMs := 1 + d in
    let delayMs := delayMs + Z.rem (Timestamp nonce) 10 in
    let delayMs := if 50 <? delayMs then 50 else delayMs in
    let '(u, localRand) := Float64 localRand in
    let volume := (0.99 + u * 0.02)%float in
    let volume :=
      (volume + float64_of_Z (Z.rem (Timestamp nonce) 100) / 100000.0)%float in
    let '(codec, format, extraArgs) := audioCodec inputFormat in
    runAndWrite
      (AudioScript delayMs volume codec format extraArgs uniqueTitle inputData)
      outputPath w.

(** [modifyImageLSBWithNonce]. *)
Definition modifyImageLSBWithNonce (data format : string) (nonce : ProcessingNonce)
  : result string :=
  if GoStr.len data =? 0 then Err (New "empty data")
  else if negb (String.eqb format "jpeg") && negb (String.eqb format "png")
  then Err (New ("format not supported for LSB modification: " +:+ format))
  else
    let localRand := NewSource (GetSeedForRand nonce) in
    match lsbTweak data format localRand with
    | Some modified => Ok modified
    | None => Err (New "decode failed")
    end.

(** [ImageConverter.ConvertWithScriptTechniques]. *)
Definition ImageConvertWithScriptTechniques
    (inputData outputPath : string) (w : World) : option error * World :=
  if GoStr.len inputData =? 0 then (Some (New "empty input data"), w)
  else
    let '(nonce, w) := GenerateNonce w in
    let localRand := NewSource (GetSeedForRand nonce) in
    let inputFormat := detectFormat inputData in
    let '(inputData, w) :=
      if String.eqb inputFormat "jpeg" || String.eqb inputFormat "png"
      then match modifyImageLSBWithNonce inputData inputFormat nonce with
           | Ok modified => (modified, w)
           | Err e => (inputData, logf (LogLSBFailed e) w)
           end
      else (inputData, w) in
    let '(c, localRand) := Intn 2 localRand in
    let cropPixels := cropFrom c (Timestamp nonce) in
    let '(u, localRand) := Float64 localRand in
    let gamma := (0.995 + u * 0.010)%float in
    let gamma :=
      (gamma + float64_of_Z (Z.rem (Timestamp nonce) 1000) / 1000000.0)%float in
    let gamma := if (1.005 <? gamma)%float then 1.005%float else gamma in
    let uniqueComment := "uid:" +:+ Nonce nonce in
    let finalPath := adjustOutputPath outputPath inputFormat in
    runAndWrite
      (ImageScript cropPixels gamma uniqueComment (String.eqb inputFormat "webp") inputData)
      finalPath w.

(** [VideoConverter.ConvertWithScriptTechniques]; the deferred removal of the
    temporary input runs on every return after it was written. *)
Definition VideoConvertWithScriptTechniques
    (inputData outputPath : string) (w : World) : option error * World :=
  if GoStr.len inputData =? 0 then (Some (New "empty input data"), w)
  else
    match validateMP4Integrity inputData with
    | Some e => (Some (Wrap "invalid MP4 file: " e ""), w)
    | None =>
        let tempInput := outputPath +:+ ".input.mp4" in
        match WriteFile env tempInput inputData w with
        | (Some e, w) => (Some (Wrap "failed to write temp input: " e ""), w)
        | (None, w) =>
            let '(nonce, w) := GenerateNonce w in
            let localRand := NewSource (GetSeedForRand nonce) in
            let '(c, localRand) := Intn 2 localRand in
            let cropPixels := cropFrom c (Timestamp nonce) in
            let '(u, localRand) := Float64 localRand in
            let gamma := (0.998 + u * 0.004)%float in
            let gamma :=
              (gamma + float64_of_Z (Z.rem (Timestamp nonce) 1000) / 1000000.0)%float in
            let gamma := if (1.002 <? gamma)%float then 1.002%float else gamma in
            let boxX := Z.rem (Timestamp nonce) 2 in
            let boxY := Z.rem (Z.quot (Timestamp nonce) 10) 2 in
            let uniqueTitle := "uid:" +:+ Nonce nonce in
            let '(r, w) :=
              runAndWrite
                (VideoScript cropPixels gamma boxX boxY uniqueTitle tempInput)
                outputPath w in
            (r, snd (Remove env tempInput w))
        end
    end.

(** [AudioConverter.getRandomizedParams]: every draw is a package-level
    [mathrand.Intn], that is, a draw from the process-wide generator. *)
Definition globalIntn (n : Z) (w : World) : Z * World :=
  let '(v, g) := Intn n (global w) in (v, set_global g w).

Definition audioGetRandomizedParams (level : string) (w : World) : audioParams * World :=
  if String.eqb level "basic" then
    let '(b, w) := globalIntn 5 w in
    let '(c, w) := globalIntn 3 w in
    let '(s, w) := globalIntn 3 w in
    ({| bitrate := GoStr.itoa (70 + b) +:+ "k"; compression := 8 + c;
        silencePadding := 1 + s; pitchShift := 0%float;
        addNoise := false; noiseLevel := 0%float |}, w)
  else if String.eqb level "moderate" then
    let '(b, w) := globalIntn 5 w in
    let '(c, w) := globalIntn 3 w in
    let '(s, w) := globalIntn 3 w in
    let '(p, w) := globalIntn 20 w in
    ({| bitrate := GoStr.itoa (70 + b) +:+ "k"; compression := 8 + c;
        silencePadding := 1 + s;
        pitchShift := (1.0 + float64_of_Z (p - 10) / 10000.0)%float;
        addNoise := false; noiseLevel := 0%float |}, w)
  else if String.eqb level "paranoid" then
    let '(b, w) := globalIntn 9 w in
    let '(c, w) := globalIntn 4 w in
    let '(s, w) := globalIntn 5 w in
    let '(p, w) := globalIntn 40 w in
    let '(n, w) := globalIntn 10 w in
    ({| bitrate := GoStr.itoa (68 + b) +:+ "k"; compression := 7 + c;
        silencePadding := 1 + s;
        pitchShift := (1.0 + float64_of_Z (p - 20) / 10000.0)%float;
        addNoise := true;
        noiseLevel := (0.0005 + float64_of_Z n / 100000.0)%float |}, w)
  else
    ({| bitrate := "72k"; compression := 10; silencePadding := 0;
        pitchShift := 0%float; addNoise := false; noiseLevel := 0%float |}, w).

(** [AudioConverter.Convert], the level-based conversion. *)
Definition AudioConvert (inputData level outputPath : string) (w : World)
  : option error * World :=
  if GoStr.len inputData =? 0 then (Some (New "empty input data"), w)
  else
    let '(params, w) := audioGetRandomizedParams level w in
    runAndWrite
      (AudioLevel params (Z.quot (GoStr.len inputData) 1000) inputData)
      outputPath w.

End Converters.
End Services.

(** ** Package [services]: the downloader *)

Module Downloader.
Import GoErr Rt.

(** What [NewDownloader] keeps; the buffer pool is seen through
    [allocatedSrc]. *)
Record Downloader : Type := { maxSize : Z; timeout : Z }.

Definition second : Z := 1000000000.
Definition minute : Z := 60 * second.

Definition NewDownloader (maxSize timeout : Z) : Downloader :=
  {| maxSize := if maxSize <=? 0 then 500 * 1024 * 1024 else maxSize;
     timeout := if timeout <=? 0 then 2 * minute else timeout |}.

(** [io.ReadFull(r, buf[:n])] for [n > 0]: the bytes placed in the buffer and
    the error. *)
Definition ReadFull (r : Stream) (n : nat) : string * option error :=
  if (n <=? String.length (avail r))%nat then (GoStr.take n (avail r), None)
  else
    (avail r,
     Some match trailer r with
          | None | Some EOF =>
              if (String.length (avail r) =? 0)%nat then EOF else ErrUnexpectedEOF
          | Some e => e
          end).

(** [io.ReadAll(io.LimitReader(r, limit))]. *)
Definition ReadAllLimited (r : Stream) (limit : Z) : string * option error :=
  if limit <=? GoStr.len (avail r) then (GoStr.take (Z.to_nat limit) (avail r), None)
  else
    (avail r,
     match trailer r with
     | None | Some EOF => None
     | Some e => Some e
     end).

Definition truncateURL (url : string) : string :=
  if 60 <? GoStr.len url then GoStr.take 57 url +:+ "..." else url.

Definition retryableErrors : list string :=
  [ "connection reset"; "connection refused"; "timeout"; "deadline exceeded";
    "temporary failure"; "EOF"; "broken pipe"; "incomplete download";
    "connection interrupted" ].

(** [isRetryableError]; [None] is the nil error. *)
Definition isRetryableError (err : option error) : bool :=
  match err with
  | None => false
  | Some e =>
      let errStr := Error e in
      existsb (fun retryable => GoStr.Contains (GoStr.ToLower errStr) retryable)
              retryableErrors
  end.

Definition isVideoURL (url : string) : bool :=
  let urlLower := GoStr.ToLower url in
  GoStr.HasSuffix urlLower ".mp4" || GoStr.HasSuffix urlLower ".avi"
  || GoStr.HasSuffix urlLower ".mov" || GoStr.HasSuffix urlLower ".mkv"
  || GoStr.HasSuffix urlLower ".webm".

Definition validateVideoData (data : string) : option error :=
  if GoStr.len data <? 32
  then Some (New ("file too small to be valid video: "
                  +:+ GoStr.itoa (GoStr.len data) +:+ " bytes"))
  else if 12 <=? GoStr.len data then
    let hasFtyp :=
      existsb (fun i => (i + 4 <=? String.length data)%nat
                        && String.eqb (GoStr.take 4 (GoStr.drop i data)) "ftyp")
              (seq 0 32) in
    if negb hasFtyp
    then Some (New "invalid MP4 header: missing ftyp box (file may be corrupted)")
    else None
  else None.

Definition tooLarge (n max : Z) : error :=
  New ("file too large: " +:+ GoStr.itoa n +:+ " bytes (max: " +:+ GoStr.itoa max +:+ ")").

Definition incomplete (expected got : Z) (note : string) : error :=
  New ("incomplete download: expected " +:+ GoStr.itoa expected +:+ " bytes, got "
       +:+ GoStr.itoa got +:+ " bytes" +:+ note).

Section Download.
Context `{L : GoLib} (env : Env).

Definition consume (n : Z) (w : World) : World := set_netRead (netRead w + n) w.

(** The body-reading part of [downloadWithValidation]: [k] is the index of
    the current request. *)
Definition readBody (d : Downloader) (url : string) (k : nat) (resp : Response)
    (w : World) : result string * World :=
  let contentLength := ContentLength resp in
  if 0 <? contentLength then
    let expectedSize := contentLength in
    if contentLength <=? allocatedSrc env k then
      let '(buf, err) := ReadFull (Body resp) (Z.to_nat expectedSize) in
      let n := GoStr.len buf in
      let w := consume n w in
      match err with
      | Some e =>
          if isSentinelEOF e
          then (Err (incomplete expectedSize n " (connection interrupted)"), w)
          else (Err (Wrap "read failed: " e ""), w)
      | None =>
          if negb (n =? expectedSize) then (Err (incomplete expectedSize n ""), w)
          else (Ok buf, w)
      end
    else
      let '(data, readErr) := ReadAllLimited (Body resp) (maxSize d + 1) in
      let w := consume (GoStr.len data) w in
      match readErr with
      | Some e => (Err (Wrap "read failed: " e ""), w)
      | None =>
          if negb (GoStr.len data =? contentLength)
          then (Err (incomplete contentLength (GoStr.len data) " (partial file)"), w)
          else if maxSize d <? GoStr.len data
          then (Err (tooLarge (GoStr.len data) (maxSize d)), w)
          else (Ok data, w)
      end
  else
    let w := logf (LogNoContentLength (truncateURL url)) w in
    let '(data, readErr) := ReadAllLimited (Body resp) (maxSize d + 1) in
    let w := consume (GoStr.len data) w in
    match readErr with
    | Some e => (Err (Wrap "read failed: " e ""), w)
    | None =>
        if maxSize d <? GoStr.len data
        then (Err (tooLarge (GoStr.len data) (maxSize d)), w)
        else (Ok data, w)
    end.

(** [Downloader.downloadWithValidation]. *)
Definition downloadWithValidation (d : Downloader) (url : string) (attempt : Z)
    (w : World) : result string * World :=
  let k := httpCalls w in
  let w := set_httpCalls (S k) w in
  match httpSrc env url k with
  | RequestInvalid e => (Err (Wrap "failed to create request: " e ""), w)
  | DoFailed e => (Err (Wrap "download failed: " e ""), w)
  | DoOk resp =>
      if negb (StatusCode resp =? 200)
      then (Err (New ("download failed: HTTP " +:+ GoStr.itoa (StatusCode resp))), w)
      else
        let contentLength := ContentLength resp in
        if maxSize d <? contentLength
        then (Err (tooLarge contentLength (maxSize d)), w)
        else
          let w := logf (LogDownloading contentLength attempt (truncateURL url)) w in
          match readBody d url k resp w with
          | (Err e, w) => (Err e, w)
          | (Ok data, w) =>
              if GoStr.len data =? 0
              then (Err (New "downloaded file is empty"), w)
              else if GoStr.len data <? 100
              then (Err (New ("file too small: " +:+ GoStr.itoa (GoStr.len data)
                              +:+ " bytes (likely corrupted or empty)")), w)
              else
                match (if (0 <? contentLength) && isVideoURL url
                       then validateVideoData data else None) with
                | Some e =>
                    (Err (Wrap "video validation failed: " e
                               " (file may be corrupted or truncated)"), w)
                | None =>
                    (Ok data,
                     logf (LogDownloadComplete (GoStr.len data) (truncateURL url)) w)
                end
          end
  end.

(** The retry loop of [Download], over the attempt numbers still to run. *)
Fixpoint retryLoop (d : Downloader) (url : string) (attempts : list Z)
    (lastErr : option error) (w : World) : result string * World :=
  match attempts with
  | [] =>
      (Err match lastErr with
           | Some e => Wrap "download failed after 3 attempts: " e ""
           | None => New "download failed after 3 attempts: %!w(<nil>)"
           end, w)
  | attempt :: rest =>
      match downloadWithValidation d url attempt w with
      | (Ok data, w) => (Ok data, w)
      | (Err err, w) =>
          if negb (isRetryableError (Some err)) then (Err err, w)
          else
            let w :=
              if attempt <? 3
              then Sleep (attempt * second) (logf (LogRetrying attempt err) w)
              else w in
            retryLoop d url rest (Some err) w
      end
  end.

(** [Downloader.Download]. *)
Definition Download (d : Downloader) (url : string) (w : World)
  : result string * World :=
  if String.eqb url "" then (Err (New "empty URL"), w)
  else if negb (GoStr.HasPrefix url "http://") && negb (GoStr.HasPrefix url "https://")
  then (Err (New "invalid URL scheme: must be http:// or https://"), w)
  else retryLoop d url [1; 2; 3] None w.

End Download.
End Downloader.

(** ** Package [storage]: the ephemeral store *)

Module Storage.
Import GoErr Rt.

Definition minute : Z := 60 * 1000000000.

(** [GetFileExtension] and [getExtensionForFormat]. *)
Definition GetFileExtension (mediaType : string) : string :=
  if String.eqb mediaType "audio" then ".opus"
  else if String.eqb mediaType "image" then ".jpg"
  else if String.eqb mediaType "video" then ".mp4"
  else ".bin".

Definition getExtensionForFormat (format : string) : string :=
  let format := GoStr.ToLower format in
  if negb (GoStr.HasPrefix format ".") then "." +:+ format else format.

(** [time.Time.After]. *)
Definition After (t u : Z) : bool := u <? t.

(** The map [GetStats] returns. *)
Record StorageStats : Type := {
  total_files : Z;
  total_size_mb : float;
  ttl_minutes : float;
}.

Section Store.
Context `{L : GoLib} (env : Env).

Definition withStore (f : TempStorage -> TempStorage) (w : World) : World :=
  set_store (f (store w)) w.

(** The mutex [ts.mu]. *)
Definition Lock (w : World) : World :=
  withStore (fun ts => set_mu {| readers := readers (mu ts); writer := true |} ts) w.
Definition Unlock (w : World) : World :=
  withStore (fun ts => set_mu {| readers := readers (mu ts); writer := false |} ts) w.
Definition RLock (w : World) : World :=
  withStore (fun ts => set_mu {| readers := S (readers (mu ts)); writer := writer (mu ts) |} ts) w.
Definition RUnlock (w : World) : World :=
  withStore (fun ts => set_mu {| readers := Nat.pred (readers (mu ts)); writer := writer (mu ts) |} ts) w.

(** [NewTempStorage]: the ticker of the cleanup goroutine has a period of one
    minute whatever [ttl] is. *)
Definition NewTempStorage (baseDir : string) (ttl : Z) (w : World) : World :=
  let ttl := if ttl <=? 0 then 10 * minute else ttl in
  let ts :=
    {| baseDir := baseDir;
       files := ∅;
       mu := {| readers := 0; writer := false |};
       ttl := ttl;
       cleanupTicker :=
         {| period := 1 * minute; nextTick := time w + 1 * minute; ticking := true |};
       stopCleanup := false |} in
  logf (LogStorageInit ttl baseDir) (set_store ts w).

(** [generateID]: the error of [rand.Read] is dropped. *)
Definition generateID (w : World) : string * World :=
  let '((bytes, _), w) := cryptoRead env 16 w in
  (GoStr.hexEncode bytes, w).

(** [TempStorage.Store]; the goroutine it starts is added to [sleepers]. *)
Definition Store (filePath originalPath mediaType : string) (w : World)
  : result string * World :=
  let '(id, w) := generateID w in
  match Stat filePath w with
  | Err e => (Err (Wrap "failed to stat file: " e ""), w)
  | Ok size =>
      let now := time w in
      let tf :=
        {| ID := id; Path := filePath; OriginalPath := originalPath;
           MediaType := mediaType; CreatedAt := now;
           ExpiresAt := now + ttl (store w); Size := size |} in
      let w := Lock w in
      let w := withStore (fun ts => set_files (<[id := tf]> (files ts)) ts) w in
      let w := Unlock w in
      let w :=
        set_sleepers
          (sleepers w ++ [ {| wakeAt := time w + ttl (store w); sId := id;
                              sPath := filePath; sOriginal := originalPath |} ]) w in
      let w := logf (LogStored id mediaType (ExpiresAt tf)) w in
      (Ok id, w)
  end.

(** [TempStorage.Get]. *)
Definition Get (id : string) (w : World) : result TempFile * World :=
  let w := RLock w in
  let r :=
    match files (store w) !! id with
    | None => Err (New ("file not found: " +:+ id))
    | Some tf =>
        if After (time w) (ExpiresAt tf)
        then Err (New ("file expired: " +:+ id))
        else Ok tf
    end in
  (r, RUnlock w).

(** [TempStorage.GetStats]: the number of entries, the sum of their sizes
    (an [int64] accumulated over the map) in MiB, and the TTL in minutes
    ([time.Duration.Minutes]). *)
Definition totalSize (l : list TempFile) : Z :=
  foldl (fun acc tf => Int64.wrap64 (acc + Size tf)) 0 l.

Definition Minutes (d : Z) : float :=
  (Services.float64_of_Z (Z.quot d minute)
   + Services.float64_of_Z (Z.rem d minute) / 60000000000.0)%float.

Definition GetStats (w : World) : StorageStats * World :=
  let w := RLock w in
  let ts := store w in
  ({| total_files := Z.of_nat (size (files ts));
      total_size_mb :=
        (Services.float64_of_Z (totalSize (snd <$> map_to_list (files ts)))
         / 1048576.0)%float;
      ttl_minutes := Minutes (ttl ts) |},
   RUnlock w).

(** [os.Remove] as the two eviction paths use it: "does not exist" is
    ignored, any other error is logged with [warn]. *)
Definition removeQuietly (warn : string -> error -> LogLine) (path : string)
    (w : World) : World :=
  match Remove env path w with
  | (Some e, w) => if negb (IsNotExist e) then logf (warn path e) w else w
  | (None, w) => w
  end.

(** The removal of one object's files, artifact first, then the original when
    it is set and differs. *)
Definition removeFiles (warn : string -> error -> LogLine)
    (filePath originalPath : string) (w : World) : World :=
  let w := removeQuietly warn filePath w in
  if negb (String.eqb originalPath "") && negb (String.eqb originalPath filePath)
  then removeQuietly warn originalPath w
  else w.

(** [TempStorage.scheduleDeletion] from the return of its [time.Sleep]. *)
Definition scheduleDeletion (id filePath originalPath : string) (w : World) : World :=
  let w := Lock w in
  let w := withStore (fun ts => set_files (delete id (files ts)) ts) w in
  let w := Unlock w in
  let w := removeFiles LogDeleteFailed filePath originalPath w in
  logf (LogDeletedExpired id) w.

(** [TempStorage.cleanup]; the goroutine that removes the files is run at
    once. *)
Definition isExpired (now : Z) (e : string * TempFile) : bool :=
  After now (ExpiresAt (snd e)).

Definition cleanup (w : World) : World :=
  let w := Lock w in
  let now := time w in
  let expired := List.filter (isExpired now) (map_to_list (files (store w))) in
  let expiredFiles := snd <$> expired in
  let w :=
    withStore
      (fun ts => set_files (foldr (fun e m => delete (fst e) m) (files ts) expired) ts) w in
  let w := Unlock w in
  if (0 <? length expiredFiles)%nat then
    let w :=
      foldl (fun w tf => removeFiles LogCleanupFailed (Path tf) (OriginalPath tf) w)
            w expiredFiles in
    logf (LogCleanupRemoved (Z.of_nat (length expiredFiles))) w
  else w.

(** [TempStorage.Stop]. *)
Definition Stop (w : World) : World :=
  logf LogStorageStopped (withStore (set_stopCleanup true) w).

(** [GenerateTempPath] and [GenerateTempPathWithFormat]. *)
Definition GenerateTempPath (mediaType : string) (w : World) : string * World :=
  let '(id, w) := generateID w in
  let ext := GetFileExtension mediaType in
  let filename := GoStr.take 12 id +:+ ext in
  (GoStr.Join (baseDir (store w)) filename, w).

Definition GenerateTempPathWithFormat (mediaType format : string) (w : World)
  : string * World :=
  let '(id, w) := generateID w in
  let ext := getExtensionForFormat format in
  let filename := GoStr.take 12 id +:+ ext in
  (GoStr.Join (baseDir (store w)) filename, w).

(** *** Background activity of the store

    What happens between two calls: time passes, the cleanup goroutine
    receives a tick and sweeps, it sees the closed stop channel and stops
    its ticker, or a [scheduleDeletion] goroutine wakes up, no earlier than
    its sleep ends. *)
Definition advanceTicker (w : World) : World :=
  withStore (fun ts =>
    set_cleanupTicker
      {| period := period (cleanupTicker ts);
         nextTick := nextTick (cleanupTicker ts) + period (cleanupTicker ts);
         ticking := ticking (cleanupTicker ts) |} ts) w.

Definition stopTicker (w : World) : World :=
  withStore (fun ts =>
    set_cleanupTicker
      {| period := period (cleanupTicker ts);
         nextTick := nextTick (cleanupTicker ts);
         ticking := false |} ts) w.

Definition wake (s : Sleeper) (w : World) : World :=
  scheduleDeletion (sId s) (sPath s) (sOriginal s) w.

Inductive background : World -> World -> Prop :=
| bg_time w d :
    0 <= d -> background w (set_time (time w + d) w)
| bg_tick w :
    ticking (cleanupTicker (store w)) = true ->
    nextTick (cleanupTicker (store w)) <= time w ->
    background w (cleanup (advanceTicker w))
| bg_stop w :
    stopCleanup (store w) = true ->
    background w (stopTicker w)
| bg_wake w pre s post :
    sleepers w = pre ++ s :: post ->
    wakeAt s <= time w ->
    background w (wake s (set_sleepers (pre ++ post) w)).

(** What can happen around the object stored under [id]: background
    activity, lookups of any id, and stores that mint another id. *)
Inductive around (id : string) : World -> World -> Prop :=
| ar_background w w' :
    background w w' -> around id w w'
| ar_get w id' :
    around id w (snd (Get id' w))
| ar_store w filePath originalPath mediaType :
    fst (Store filePath originalPath mediaType w) <> Ok id ->
    around id w (snd (Store filePath originalPath mediaType w)).

End Store.
End Storage.

(** ** Package [handlers]: the processing pipeline *)

Module Handlers.
Import GoErr Rt.

Record ProcessRequest : Type := { Arquivo : string }.

Record ProcessResponse : Type := {
  Success : bool;
  Message : string;
  NovaURL : string;
  MediaType : string;
  FileID : string;
}.

(** The HTTP reply: status code and JSON body. *)
Record Reply : Type := { status : Z; body : ProcessResponse }.

Definition failure (code : Z) (msg : string) : Reply :=
  {| status := code;
     body := {| Success := false; Message := msg; NovaURL := "";
                MediaType := ""; FileID := "" |} |}.

Record ProcessHandler : Type := {
  downloader : Downloader.Downloader;
  baseURL : string;
  requestTimeout : Z;
}.

Definition detectMediaTypeAndFormatFromURL (url : string) : string * string :=
  let urlLower := GoStr.ToLower url in
  let has := GoStr.HasSuffix urlLower in
  if has ".mp3" then ("audio", "mp3")
  else if has ".opus" then ("audio", "opus")
  else if has ".ogg" then ("audio", "ogg")
  else if has ".m4a" then ("audio", "m4a")
  else if has ".wav" then ("audio", "wav")
  else if has ".aac" then ("audio", "aac")
  else if has ".jpg" || has ".jpeg" then ("image", "jpg")
  else if has ".png" then ("image", "png")
  else if has ".webp" then ("image", "webp")
  else if has ".mp4" then ("video", "mp4")
  else if has ".avi" then ("video", "avi")
  else if has ".mov" then ("video", "mov")
  else if has ".mkv" then ("video", "mkv")
  else if has ".webm" then ("video", "webm")
  else ("", "").

(** [NewProcessHandler]. *)
Definition NewProcessHandler (downloader : Downloader.Downloader) (baseURL : string)
    (requestTimeout : Z) : ProcessHandler :=
  {| downloader := downloader;
     baseURL := baseURL;
     requestTimeout :=
       if requestTimeout <=? 0 then 5 * Downloader.minute else requestTimeout |}.

(** [handlers/utils.go]. *)
Definition truncateURL (url : string) : string :=
  if 60 <? GoStr.len url then GoStr.take 57 url +:+ "..." else url.

Definition getContentType (mediaType : string) : string :=
  if String.eqb mediaType "audio" then "audio/ogg"
  else if String.eqb mediaType "image" then "image/jpeg"
  else if String.eqb mediaType "video" then "video/mp4"
  else "application/octet-stream".

Definition getContentTypeFromPath (filePath : string) : string :=
  let ext := GoStr.ToLower (GoStr.Ext filePath) in
  if String.eqb ext ".mp3" then "audio/mpeg"
  else if String.eqb ext ".opus" then "audio/ogg"
  else if String.eqb ext ".ogg" then "audio/ogg"
  else if String.eqb ext ".m4a" then "audio/mp4"
  else if String.eqb ext ".wav" then "audio/wav"
  else if String.eqb ext ".aac" then "audio/aac"
  else if String.eqb ext ".jpg" || String.eqb ext ".jpeg" then "image/jpeg"
  else if String.eqb ext ".png" then "image/png"
  else if String.eqb ext ".webp" then "image/webp"
  else if String.eqb ext ".mp4" then "video/mp4"
  else if String.eqb ext ".avi" then "video/x-msvideo"
  else if String.eqb ext ".mov" then "video/quicktime"
  else if String.eqb ext ".mkv" then "video/x-matroska"
  else if String.eqb ext ".webm" then "video/webm"
  else "application/octet-stream".

(** What [GetFile] answers: a status with a text, or the file at [path] with
    the two headers the handler sets. *)
Inductive FileReply : Type :=
| SendString (status : Z) (text : string)
| SendFile (contentType contentDisposition path : string).

Definition quote : string := String "034" "".

Section Process.
Context `{L : GoLib} (env : Env).

(** [ProcessHandler.GetFile]; the argument is the route parameter [id]. *)
Definition GetFile (fileIDWithExt : string) (w : World) : FileReply * World :=
  if String.eqb fileIDWithExt "" then (SendString 400 "File ID is required", w)
  else
    let idx := GoStr.LastIndex fileIDWithExt "." in
    let fileID :=
      if 0 <? idx then GoStr.take (Z.to_nat idx) fileIDWithExt else fileIDWithExt in
    let w :=
      logf (LogInfo ("GetFile: id_with_ext=" +:+ fileIDWithExt +:+ ", id=" +:+ fileID)) w in
    match Storage.Get fileID w with
    | (Err err, w) =>
        let w := logf (LogInfo ("GetFile: storage.Get failed: " +:+ Error err)) w in
        (SendString 404 "File not found or expired", w)
    | (Ok tf, w) =>
        let w := logf (LogInfo ("GetFile: found file path=" +:+ Path tf)) w in
        if match Stat (Path tf) w with Err e => IsNotExist e | Ok _ => false end
        then
          let w := logf (LogInfo ("GetFile: file not found on disk: " +:+ Path tf)) w in
          (SendString 404 "File not found on disk", w)
        else
          (SendFile (getContentTypeFromPath (Path tf))
                    ("attachment; filename=" +:+ quote +:+ GoStr.Base (Path tf) +:+ quote)
                    (Path tf), w)
    end.

(** The [switch mediaType] of [Process]: the converter to run, if any. *)
Definition converterFor (mediaType inputFormat inputData outputPath : string)
  : option (World -> option error * World) :=
  if String.eqb mediaType "audio"
  then Some (Services.AudioConvertWithScriptTechniques env inputData outputPath inputFormat)
  else if String.eqb mediaType "image"
  then Some (Services.ImageConvertWithScriptTechniques env inputData outputPath)
  else if String.eqb mediaType "video"
  then Some (Services.VideoConvertWithScriptTechniques env inputData outputPath)
  else None.

(** [ProcessHandler.Process]; [req = None] is a body that does not parse. *)
Definition Process (h : ProcessHandler) (req : option ProcessRequest) (w : World)
  : Reply * World :=
  match req with
  | None => (failure 400 "Invalid request body", w)
  | Some req =>
  if String.eqb (Arquivo req) "" then (failure 400 "arquivo (URL) is required", w)
  else
  let '(mediaType, inputFormat) := detectMediaTypeAndFormatFromURL (Arquivo req) in
  if String.eqb mediaType ""
  then (failure 400 "Could not detect media type from URL. Supported: .mp3, .opus, .mp4, .jpg, .jpeg, .png", w)
  else
  let w := logf (LogInfo "Processing") w in
  let w := logf (LogInfo "Downloading file...") w in
  match Downloader.Download env (downloader h) (Arquivo req) w with
  | (Err err, w) =>
      (failure 400 ("Failed to download file: " +:+ Error err), w)
  | (Ok inputData, w) =>
  let '(p, w) := Storage.GenerateTempPath env mediaType w in
  let originalPath := p +:+ ".original" in
  match WriteFile env originalPath inputData w with
  | (Some _, w) => (failure 500 "Failed to save original file", w)
  | (None, w) =>
  let '(outputPath, w) := Storage.GenerateTempPathWithFormat env mediaType inputFormat w in
  let w := logf (LogInfo "Applying fingerprint techniques...") w in
  match converterFor mediaType inputFormat inputData outputPath with
  | None => (failure 400 ("Unsupported media type: " +:+ mediaType), w)
  | Some convert =>
  match convert w with
  | (Some err, w) =>
      let w := snd (Remove env originalPath w) in
      (failure 500 ("Processing failed: " +:+ Error err), w)
  | (None, w) =>
  if match Stat outputPath w with Err e => IsNotExist e | Ok _ => false end
  then
      let w := snd (Remove env originalPath w) in
      (failure 500 "Output file was not created", w)
  else
  let w := logf (LogInfo "Output file created") w in
  match Storage.Store env outputPath originalPath mediaType w with
  | (Err _, w) =>
      let w := snd (Remove env outputPath w) in
      let w := snd (Remove env originalPath w) in
      (failure 500 "Failed to store processed file", w)
  | (Ok fileID, w) =>
      let extension := Storage.getExtensionForFormat inputFormat in
      let novaURL := baseURL h +:+ "/api/files/" +:+ fileID +:+ extension in
      let w := logf (LogInfo "Processed") w in
      ({| status := 200;
          body := {| Success := true; Message := "arquivo modificado com sucesso!";
                     NovaURL := novaURL; MediaType := mediaType;
                     FileID := fileID |} |}, w)
  end end end end end
  end.

End Process.
End Handlers.

(** ** Notions used to state the properties of names and paths *)

Module TextSpec.

(** A byte that ends neither a path element nor an extension: not a dot
    and not a slash. *)
Definition plainByte (c : ascii) : bool :=
  negb (Ascii.eqb c ".") && negb (Ascii.eqb c "/").

Fixpoint plain (s : string) : bool :=
  match s with
  | EmptyString => true
  | String c r => plainByte c && plain r
  end.

(** Lower-case hexadecimal text, and the bytes it stands for. *)
Definition hexByte (c : ascii) : bool :=
  let n := N_of_ascii c in
  (((48 <=? n) && (n <=? 57)) || ((97 <=? n) && (n <=? 102)))%N.

Fixpoint isHex (s : string) : bool :=
  match s with
  | EmptyString => true
  | String c r => hexByte c && isHex r
  end.

Definition hexVal (c : ascii) : N :=
  let n := N_of_ascii c in
  (if n <? 58 then n - 48 else n - 87)%N.


End TextSpec.

(** ** Notions used to state the properties of the store *)

Module StorageSpec.
Import GoErr Rt Storage.

(** The exact sum of the sizes of a list of entries. *)
Definition sizeSum (l : list TempFile) : Z :=
  foldr (fun tf acc => Size tf + acc) 0 l.

Section Spec.
Context `{L : GoLib} (env : Env).

(** The entry and the sleeping goroutine a successful [Store] adds. *)
Definition storedFile (id filePath originalPath mediaType : string) (size : Z)
    (w : World) : TempFile :=
  {| ID := id; Path := filePath; OriginalPath := originalPath;
     MediaType := mediaType; CreatedAt := time w;
     ExpiresAt := time w + ttl (store w); Size := size |}.

Definition sleeperOf (id filePath originalPath : string) (w : World) : Sleeper :=
  {| wakeAt := time w + ttl (store w); sId := id;
     sPath := filePath; sOriginal := originalPath |}.

(** [alive id tf w]: until [tf] expires it is what the map holds under [id];
    the map never holds anything else under [id]; and no pending deletion
    for [id] can wake before [tf] expires. *)
Definition alive (id : string) (tf : TempFile) (w : World) : Prop :=
  (time w < ExpiresAt tf -> files (store w) !! id = Some tf)
  /\ (files (store w) !! id = Some tf \/ files (store w) !! id = None)
  /\ Forall (fun s => sId s = id -> ExpiresAt tf <= wakeAt s) (sleepers w).

(** The files left by an [os.Remove] of [path]. *)
Definition rm (path : string) (m : gmap string string) : gmap string string :=
  if denyRemove env path then m else delete path m.

Definition rmFiles (p o : string) (m : gmap string string) : gmap string string :=
  if negb (String.eqb o "") && negb (String.eqb o p) then rm o (rm p m) else rm p m.

Definition rmAll (l : list TempFile) (m : gmap string string) : gmap string string :=
  foldl (fun m tf => rmFiles (Path tf) (OriginalPath tf) m) m l.

(** After the removal of an object's files, each of them is gone unless its
    removal is refused. *)
Definition gone (q : string) (m : gmap string string) : Prop :=
  denyRemove env q = true \/ m !! q = None.

(** The entries a sweep at the current time evicts. *)
Definition expiredOf (w : World) : list TempFile :=
  snd <$> List.filter (isExpired (time w)) (map_to_list (files (store w))).


End Spec.
End StorageSpec.

(** ** Notions used to state the properties of the downloader *)

Module DownloaderSpec.
Import GoErr Rt Downloader.

(** Strings made of decimal digits and the minus sign, as [%d] prints. *)
Definition numericByte (c : ascii) : bool :=
  let n := N_of_ascii c in
  (((48 <=? n) && (n <=? 57)) || (n =? 45))%N.

Fixpoint numeric (s : string) : bool :=
  match s with
  | EmptyString => true
  | String c r => numericByte c && numeric r
  end.

(** The first byte of a non-empty pattern is not one [%d] prints. *)
Definition startsPlain (p : string) : bool :=
  match p with
  | EmptyString => false
  | String c _ => negb (numericByte c)
  end.

(** A message as [fmt] builds it: fixed text and printed numbers. *)
Inductive Seg : Type :=
| Txt (s : string)
| Num (z : Z).

Fixpoint render (segs : list Seg) : string :=
  match segs with
  | [] => ""
  | Txt s :: rest => s +:+ render rest
  | Num z :: rest => GoStr.itoa z +:+ render rest
  end.

(** [mayStart s p]: [p] and [s] agree as far as the shorter of them goes, so
    an occurrence of [p] could start where [s] starts. *)
Fixpoint mayStart (s p : string) : bool :=
  match s, p with
  | String c r, String pc ps => Ascii.eqb pc c && mayStart r ps
  | _, _ => true
  end.

(** No occurrence of [p] starts inside [s], whatever follows [s]. *)
Fixpoint clean (s p : string) : bool :=
  match s with
  | EmptyString => true
  | String c r => negb (mayStart s p) && clean r p
  end.

Definition cleanSeg (p : string) (seg : Seg) : bool :=
  match seg with
  | Txt s => clean (GoStr.ToLower s) p
  | Num _ => true
  end.

Section Spec.
Context `{L : GoLib} (env : Env).

(** The entry "EOF" of [retryableErrors] is compared with a lower-cased
    message and so matches nothing: an error is retried only for one of the
    other eight patterns. *)
Definition effectivePatterns : list string :=
  [ "connection reset"; "connection refused"; "timeout"; "deadline exceeded";
    "temporary failure"; "broken pipe"; "incomplete download";
    "connection interrupted" ].

(** What a download leaves alone: it touches the request counter, the count
    of bytes read, the log and (by sleeping) the clock only. *)
Definition sameProcess (w w' : World) : Prop :=
  entropyReads w' = entropyReads w /\ jobs w' = jobs w /\ global w' = global w
  /\ fs w' = fs w /\ store w' = store w /\ sleepers w' = sleepers w.

(** [attempt k] is the outcome of the attempt that makes request number [k]. *)
Definition attempt (d : Downloader) (url : string) (k : nat) (w : World)
  : result string :=
  fst (downloadWithValidation env d url 0 (set_httpCalls k w)).

(** The URL check at the head of [Download]. *)
Definition validURL (url : string) : bool :=
  negb (String.eqb url "")
  && (GoStr.HasPrefix url "http://" || GoStr.HasPrefix url "https://").

(** The three attempts of a download that starts at request number [k]:
    their outcomes, and what [Download] makes of them. *)
Inductive Verdict : Type :=
| Delivered (data : string) (attempts : nat) (slept : Z)
| Refused (e : error) (attempts : nat) (slept : Z)
| Exhausted (last : error) (attempts : nat) (slept : Z).

Definition retryable (r : result string) : bool :=
  match r with
  | Ok _ => false
  | Err e => isRetryableError (Some e)
  end.

Definition verdict (r1 r2 r3 : result string) : Verdict :=
  match r1 with
  | Ok data => Delivered data 1 0
  | Err e1 =>
      if negb (retryable r1) then Refused e1 1 0
      else match r2 with
           | Ok data => Delivered data 2 (1 * second)
           | Err e2 =>
               if negb (retryable r2) then Refused e2 2 (1 * second)
               else match r3 with
                    | Ok data => Delivered data 3 (1 * second + 2 * second)
                    | Err e3 =>
                        if negb (retryable r3)
                        then Refused e3 3 (1 * second + 2 * second)
                        else Exhausted e3 3 (1 * second + 2 * second)
                    end
           end
  end.

Definition verdictResult (v : Verdict) : result string :=
  match v with
  | Delivered data _ _ => Ok data
  | Refused e _ _ => Err e
  | Exhausted last _ _ => Err (Wrap "download failed after 3 attempts: " last "")
  end.

Definition verdictAttempts (v : Verdict) : nat :=
  match v with Delivered _ n _ | Refused _ n _ | Exhausted _ n _ => n end.

Definition verdictSlept (v : Verdict) : Z :=
  match v with Delivered _ _ t | Refused _ _ t | Exhausted _ _ t => t end.


End Spec.
End DownloaderSpec.

(** ** The parameters of a script conversion as the specification has them

    A function of the nonce and of the operation's own inputs: drawn from a
    generator seeded with the nonce's seed, and computed from the nonce's
    timestamp. *)

Module ServicesSpec.
Import GoErr Rt Services.

Section Spec.
Context `{L : GoLib}.

Definition audioJob (nonce : ProcessingNonce) (inputFormat inputData : string) : FfmpegJob :=
  let r0 := NewSource (GetSeedForRand nonce) in
  let draw1 := Intn 50 r0 in
  let draw2 := Float64 (snd draw1) in
  let delayMs := Z.min 50 (1 + fst draw1 + Z.rem (Timestamp nonce) 10) in
  let volume :=
    (0.99 + fst draw2 * 0.02
     + float64_of_Z (Z.rem (Timestamp nonce) 100) / 100000.0)%float in
  AudioScript delayMs volume
    (fst (fst (audioCodec inputFormat))) (snd (fst (audioCodec inputFormat)))
    (snd (audioCodec inputFormat)) ("uid:" +:+ Nonce nonce) inputData.

Definition capped (cap x : float) : float := if (cap <? x)%float then cap else x.

Definition imageJob (nonce : ProcessingNonce) (inputData : string) : FfmpegJob :=
  let r0 := NewSource (GetSeedForRand nonce) in
  let draw1 := Intn 2 r0 in
  let draw2 := Float64 (snd draw1) in
  let inputFormat := detectFormat inputData in
  let stdin :=
    if String.eqb inputFormat "jpeg" || String.eqb inputFormat "png"
    then match lsbTweak inputData inputFormat (NewSource (GetSeedForRand nonce)) with
         | Some modified => modified
         | None => inputData
         end
    else inputData in
  ImageScript (cropFrom (fst draw1) (Timestamp nonce))
    (capped 1.005
       (0.995 + fst draw2 * 0.010
        + float64_of_Z (Z.rem (Timestamp nonce) 1000) / 1000000.0)%float)
    ("uid:" +:+ Nonce nonce) (String.eqb inputFormat "webp") stdin.

Definition videoJob (nonce : ProcessingNonce) (outputPath : string) : FfmpegJob :=
  let r0 := NewSource (GetSeedForRand nonce) in
  let draw1 := Intn 2 r0 in
  let draw2 := Float64 (snd draw1) in
  VideoScript (cropFrom (fst draw1) (Timestamp nonce))
    (capped 1.002
       (0.998 + fst draw2 * 0.004
        + float64_of_Z (Z.rem (Timestamp nonce) 1000) / 1000000.0)%float)
    (Z.rem (Timestamp nonce) 2) (Z.rem (Z.quot (Timestamp nonce) 10) 2)
    ("uid:" +:+ Nonce nonce) (outputPath +:+ ".input.mp4").

Definition scriptJob (mediaType inputFormat inputData outputPath : string)
    (nonce : ProcessingNonce) : FfmpegJob :=
  if String.eqb mediaType "audio" then audioJob nonce inputFormat inputData
  else if String.eqb mediaType "image" then imageJob nonce inputData
  else videoJob nonce outputPath.

(** The transcoder runs an operation added. *)
Definition emitted (w w' : World) : list FfmpegJob :=
  drop (length (jobs w)) (jobs w').

(** What an operation leaves alone besides the transcoder log, the files and
    the log. *)
Definition quiet (w w' : World) : Prop :=
  time w' = time w /\ store w' = store w /\ sleepers w' = sleepers w
  /\ httpCalls w' = httpCalls w.

(** An operation that stopped before the transcoder, and one that ran it
    once on [job nonce] for the nonce it generated. *)
Definition didNotRun (w w' : World) : Prop :=
  emitted w w' = [] /\ entropyReads w' = entropyReads w /\ global w' = global w.

Definition ranOnce (env : Env) (job : ProcessingNonce -> FfmpegJob) (w w' : World) : Prop :=
  emitted w w' = [job (fst (GenerateNonce env w))]
  /\ entropyReads w' = S (entropyReads w)
  /\ (entropySrc env (entropyReads w) <> None -> global w' = global w).

(** The ranges the comments of the script conversions give for the integer
    parameters: a delay of 1 to 50 ms, a crop of 1 or 2 pixels, a box at
    0 or 1. *)
Definition documentedRange (job : FfmpegJob) : Prop :=
  match job with
  | AudioScript delayMs _ _ _ _ _ _ => 1 <= delayMs <= 50
  | ImageScript cropPixels _ _ _ _ => cropPixels = 1 \/ cropPixels = 2
  | VideoScript cropPixels _ boxX boxY _ _ =>
      (cropPixels = 1 \/ cropPixels = 2)
      /\ (boxX = 0 \/ boxX = 1) /\ (boxY = 0 \/ boxY = 1)
  | AudioLevel _ _ _ => True
  end.

(** The extension the image converter gives its output for a format, and
    the path a script conversion writes its artifact to. *)
Definition extensionFor (format : string) : string :=
  if String.eqb format "png" then ".png"
  else if String.eqb format "webp" then ".webp"
  else ".jpg".



(** A run of conversions recorded in the statistics of a converter:
    [Some d] is a success that took [d] nanoseconds, [None] a failure. *)
Definition zeroStats : ConverterStats :=
  {| TotalConversions := 0; FailedConversions := 0; AvgConversionTime := 0 |}.

Fixpoint replay (events : list (option Z)) (s : ConverterStats) : option ConverterStats :=
  match events with
  | [] => Some s
  | Some d :: rest =>
      match recordSuccess d s with
      | Some s' => replay rest s'
      | None => None
      end
  | None :: rest => replay rest (recordFailure s)
  end.

Fixpoint successes (events : list (option Z)) : list Z :=
  match events with
  | [] => []
  | Some d :: rest => d :: successes rest
  | None :: rest => successes rest
  end.

Fixpoint failures (events : list (option Z)) : nat :=
  match events with
  | [] => O
  | Some _ :: rest => failures rest
  | None :: rest => S (failures rest)
  end.

End Spec.
End ServicesSpec.

(** ** Notions used to state the properties of the pipeline *)

Module HandlersSpec.
Import GoErr Rt.

Section Spec.
Context `{L : GoLib}.

(** [w'] has the same store and the same pending deletions as [w]. *)
Definition sameStore (w w' : World) : Prop :=
  store w' = store w /\ sleepers w' = sleepers w.

End Spec.

(** The pairs [detectMediaTypeAndFormatFromURL] can return besides the
    empty one. *)
Definition detected : list (string * string) :=
  [ ("audio", "mp3"); ("audio", "opus"); ("audio", "ogg"); ("audio", "m4a");
    ("audio", "wav"); ("audio", "aac"); ("image", "jpg"); ("image", "png");
    ("image", "webp"); ("video", "mp4"); ("video", "avi"); ("video", "mov");
    ("video", "mkv"); ("video", "webm") ].

(** The id [GetFile] looks up for a route parameter. *)
Definition fileIDOf (fileIDWithExt : string) : string :=
  let idx := GoStr.LastIndex fileIDWithExt "." in
  if 0 <? idx then GoStr.take (Z.to_nat idx) fileIDWithExt else fileIDWithExt.

Section Pipeline.
Context `{L : GoLib} (env : Env).

(** What [GetFile] answers for the id it looks up, read off the map and the
    files. *)
Definition served (fileID : string) (w : World) : Handlers.FileReply :=
  match files (store w) !! fileID with
  | None => Handlers.SendString 404 "File not found or expired"
  | Some tf =>
      if ExpiresAt tf <? time w
      then Handlers.SendString 404 "File not found or expired"
      else
        match fs w !! Path tf with
        | None => Handlers.SendString 404 "File not found on disk"
        | Some _ =>
            Handlers.SendFile (Handlers.getContentTypeFromPath (Path tf))
              ("attachment; filename=" +:+ Handlers.quote +:+ GoStr.Base (Path tf)
               +:+ Handlers.quote)
              (Path tf)
        end
  end.

(** The id the [k]-th entropy read yields, and the two paths a request that
    starts in [w] generates from its first two reads. *)
Definition idAt (k : nat) : string :=
  GoStr.hexEncode (match entropySrc env k with
                   | Some bs => GoStr.fill 16 bs
                   | None => GoStr.zeros 16
                   end).

Definition originalPathOf (mediaType : string) (w : World) : string :=
  baseDir (store w) +:+ "/" +:+ GoStr.take 12 (idAt (entropyReads w))
  +:+ Storage.GetFileExtension mediaType +:+ ".original".

Definition outputPathOf (inputFormat : string) (w : World) : string :=
  baseDir (store w) +:+ "/" +:+ GoStr.take 12 (idAt (S (entropyReads w)))
  +:+ Storage.getExtensionForFormat inputFormat.

(** The reply to a request that succeeded. *)
Definition successReply (h : Handlers.ProcessHandler)
    (mediaType inputFormat fileID : string) : Handlers.Reply :=
  {| Handlers.status := 200;
     Handlers.body :=
       {| Handlers.Success := true;
          Handlers.Message := "arquivo modificado com sucesso!";
          Handlers.NovaURL :=
            Handlers.baseURL h +:+ "/api/files/" +:+ fileID
            +:+ Storage.getExtensionForFormat inputFormat;
          Handlers.MediaType := mediaType;
          Handlers.FileID := fileID |} |}.

(** The steps of a request that was answered with success. *)
Record Trace : Type := {
  tMediaType : string;
  tFormat : string;
  tData : string;           (* the downloaded bytes *)
  tDownloaded : World;      (* the state after the download *)
  tOriginal : string;       (* the path of the saved original *)
  tSaved : World;           (* after the original was written *)
  tOutput : string;         (* the output path *)
  tNamed : World;           (* after the output path was generated *)
  tConverted : World;       (* after the conversion *)
  tFileID : string;
  tStored : World;          (* after [Store] *)
}.

Definition traces (h : Handlers.ProcessHandler) (url : string) (w : World)
    (t : Trace) (reply : Handlers.Reply) (w' : World) : Prop :=
  Handlers.detectMediaTypeAndFormatFromURL url = (tMediaType t, tFormat t)
  /\ tMediaType t <> ""
  /\ Downloader.Download env (Handlers.downloader h) url
       (logf (LogInfo "Downloading file...") (logf (LogInfo "Processing") w))
     = (Ok (tData t), tDownloaded t)
  /\ (exists p wp,
        Storage.GenerateTempPath env (tMediaType t) (tDownloaded t) = (p, wp)
        /\ tOriginal t = p +:+ ".original"
        /\ WriteFile env (tOriginal t) (tData t) wp = (None, tSaved t))
  /\ Storage.GenerateTempPathWithFormat env (tMediaType t) (tFormat t) (tSaved t)
     = (tOutput t, tNamed t)
  /\ (exists convert,
        Handlers.converterFor env (tMediaType t) (tFormat t) (tData t) (tOutput t)
        = Some convert
        /\ convert (logf (LogInfo "Applying fingerprint techniques...") (tNamed t))
           = (None, tConverted t))
  /\ fs (tConverted t) !! tOutput t <> None
  /\ Storage.Store env (tOutput t) (tOriginal t) (tMediaType t)
       (logf (LogInfo "Output file created") (tConverted t))
     = (Ok (tFileID t), tStored t)
  /\ w' = logf (LogInfo "Processed") (tStored t)
  /\ reply = successReply h (tMediaType t) (tFormat t) (tFileID t).

End Pipeline.

End HandlersSpec.

(** ** A concrete process for running the model

    [demoLib] is a small stand-in for the library code: a linear
    congruential generator and a codec that returns its input.  The
    statements below hold for every [GoLib]; this one only serves to run
    the definitions on examples. *)

Module Demo.
Import GoErr Rt.

Definition lcg (r : Z) : Z := (r * 1103515245 + 12345) mod 2147483648.

Definition demoLib : GoLib :=
  {| Rand := Z;
     NewSource := fun seed => seed mod 2147483648;
     Intn := fun n r => let r' := lcg r in (if n <=? 0 then 0 else r' mod n, r');
     Float64 := fun r =>
       let r' := lcg r in
       ((Services.float64_of_Z r' / 2147483648.0)%float, r');
     ReadN := fun n r =>
       let r' := lcg r in
       (GoStr.fill n (String (ascii_of_N (Z.to_N (r' mod 256))) ""), r');
     lsbTweak := fun data _ _ => Some data |}.

(** [n] copies of a byte. *)
Fixpoint bytes (n : nat) (c : ascii) : string :=
  match n with
  | O => EmptyString
  | S k => String c (bytes k c)
  end.

(** An environment where nothing is denied, the [k]-th entropy read yields
    the byte [k+1] sixteen times, every request gets [resp], the pool has
    allocated [alloc] and the transcoder writes [out]. *)
Definition envWith (resp : nat -> HttpOutcome) (alloc : Z) (out : ExecOutcome) : Env :=
  {| entropySrc := fun k => Some (bytes 16 (ascii_of_nat (S k)));
     httpSrc := fun _ k => resp k;
     allocatedSrc := fun _ => alloc;
     execSrc := fun _ _ => out;
     denyWrite := fun _ => false;
     denyRemove := fun _ => false |}.

Definition emptyStore (ttl : Z) : TempStorage :=
  {| baseDir := "/cache/temp"; files := ∅;
     mu := {| readers := 0; writer := false |}; ttl := ttl;
     cleanupTicker := {| period := Storage.minute; nextTick := Storage.minute;
                         ticking := true |};
     stopCleanup := false |}.

(** A fresh process at time [now] whose process-wide generator is in
    state [g]. *)
Definition worldAt (now : Z) (g : Z) (ttl : Z) : World (L := demoLib) :=
  {| time := now; entropyReads := 0; httpCalls := 0; netRead := 0; jobs := [];
     global := (g : @Rand demoLib); fs := ∅; store := emptyStore ttl;
     sleepers := []; log := [] |}.

Definition okBody (declared : Z) (body : string) : HttpOutcome :=
  DoOk {| StatusCode := 200; ContentLength := declared;
          Body := {| avail := body; trailer := None |} |}.

Definition tenMinutes : Z := 10 * Storage.minute.

(** No network, a transcoder that prints [OUT]. *)
Definition offline : Env := envWith (fun _ => DoFailed EOF) 0 (ExecDone "OUT").

Definition jpeg : string := String "255" (String "216" (bytes 118 "x")).

Definition handler : Handlers.ProcessHandler :=
  {| Handlers.downloader := Downloader.NewDownloader 0 0;
     Handlers.baseURL := "http://localhost:4000";
     Handlers.requestTimeout := 0 |}.

End Demo.

(** ** The seed as the specification words it *)

Module SeedSpec.

(** The base-31 polynomial of a byte sequence,
    [b0*31^(n-1) + b1*31^(n-2) + ... + b(n-1)], over the integers. *)
Fixpoint poly31 (bs : list Z) : Z :=
  match bs with
  | [] => 0
  | b :: r => b * 31 ^ Z.of_nat (length r) + poly31 r
  end.

Fixpoint bytesOf (s : string) : list Z :=
  match s with
  | EmptyString => []
  | String c r => GoStr.byteVal c :: bytesOf r
  end.

(** The timestamp folded with the hash of the nonce string, as a 64-bit
    value. *)
Definition seed (timestamp : Z) (nonce : string) : Z :=
  Z.lxor timestamp (Int64.wrap64 (poly31 (bytesOf nonce))).

End SeedSpec.

(** * Properties *)

(** ** 64-bit arithmetic *)

Module Int64Facts.
Import Int64.

Lemma wrap64_range z : in_range (wrap64 z).
Proof.
  unfold in_range, wrap64, modulus, half.
  pose proof (Z.mod_pos_bound (z + 2 ^ 63) (2 ^ 64) ltac:(lia)). lia.
Qed.

Lemma wrap64_id z : in_range z -> wrap64 z = z.
Proof.
  unfold in_range, wrap64, modulus, half. intros Hz.
  rewrite Z.mod_small; lia.
Qed.

Lemma wrap64_congr a b : a mod modulus = b mod modulus -> wrap64 a = wrap64 b.
Proof.
  unfold wrap64. intros Hab.
  rewrite (Zplus_mod a), (Zplus_mod b), Hab. reflexivity.
Qed.

Lemma wrap64_mod z : wrap64 z mod modulus = z mod modulus.
Proof.
  unfold wrap64.
  rewrite Zminus_mod, Z.mod_mod by (unfold modulus; lia).
  rewrite <- Zminus_mod. f_equal. lia.
Qed.

(** One step of a Horner evaluation may wrap early or late. *)
Lemma wrap64_horner h k b : wrap64 (wrap64 h * k + b) = wrap64 (h * k + b).
Proof.
  apply wrap64_congr.
  rewrite (Zplus_mod (wrap64 h * k)), (Zmult_mod (wrap64 h)), wrap64_mod.
  rewrite <- Zmult_mod, <- Zplus_mod. reflexivity.
Qed.


Lemma lxor_nonneg_bound a b :
  0 <= a < half -> 0 <= b < half -> 0 <= Z.lxor a b < half.
Proof.
  unfold half. intros Ha Hb.
  assert (H0 : 0 <= Z.lxor a b) by (apply Z.lxor_nonneg; lia).
  split; [exact H0|].
  destruct (Z.eq_dec (Z.lxor a b) 0) as [->|Hne]; [lia|].
  apply Z.log2_lt_pow2; [lia|].
  pose proof (Z.log2_lxor a b ltac:(lia) ltac:(lia)) as Hl.
  assert (Z.log2 a < 63).
  { destruct (Z.eq_dec a 0) as [->|]; [simpl; lia|]. apply Z.log2_lt_pow2; lia. }
  assert (Z.log2 b < 63).
  { destruct (Z.eq_dec b 0) as [->|]; [simpl; lia|]. apply Z.log2_lt_pow2; lia. }
  lia.
Qed.

(** Exclusive or keeps 64-bit values 64-bit. *)
Lemma lxor_range a b : in_range a -> in_range b -> in_range (Z.lxor a b).
Proof.
  unfold in_range. intros Ha Hb.
  destruct (Z.neg_nonneg_cases a) as [Na|Pa], (Z.neg_nonneg_cases b) as [Nb|Pb].
  - rewrite <- Z.lxor_lnot_lnot.
    pose proof (lxor_nonneg_bound (Z.lnot a) (Z.lnot b)) as H.
    unfold Z.lnot in *. unfold half in *. lia.
  - pose proof (lxor_nonneg_bound (Z.lnot a) b) as H.
    rewrite <- Z.lnot_lxor_l in H.
    unfold Z.lnot in *. unfold half in *. lia.
  - pose proof (lxor_nonneg_bound a (Z.lnot b)) as H.
    rewrite <- Z.lnot_lxor_r in H.
    unfold Z.lnot in *. unfold half in *. lia.
  - pose proof (lxor_nonneg_bound a b). unfold half in *. lia.
Qed.

End Int64Facts.

(** ** The nonce engine *)

Module NonceFacts.
Import Int64 Int64Facts Services SeedSpec.

Lemma hashBytes_poly s h :
  hashBytes s (wrap64 h)
  = wrap64 (h * 31 ^ Z.of_nat (String.length s) + poly31 (bytesOf s)).
Proof.
  revert h. induction s as [|c r IH]; intros h; simpl hashBytes.
  - simpl. f_equal. lia.
  - rewrite wrap64_horner, IH. f_equal.
    cbn [String.length bytesOf poly31].
    replace (length (bytesOf r)) with (String.length r)
      by (clear; induction r; simpl; congruence).
    rewrite Nat2Z.inj_succ. rewrite Z.pow_succ_r by lia. ring.
Qed.

Lemma hashBytes_range s h : in_range h -> in_range (hashBytes s h).
Proof.
  revert h. induction s as [|c r IH]; intros h Hh; simpl; [exact Hh|].
  apply IH, wrap64_range.
Qed.

(** C7. The seed of a nonce is its timestamp exclusive-or'ed with the base-31
    polynomial hash of the bytes of its nonce string, reduced to 64 bits; it
    is therefore a function of the timestamp and the nonce string alone, and
    equal nonces have equal seeds. *)
Theorem GetSeedForRand_is_timestamp_xor_poly31 (n : ProcessingNonce) :
  GetSeedForRand n = seed (Timestamp n) (Nonce n).
Proof.
  unfold GetSeedForRand, seed. f_equal.
  change 0 with (wrap64 0) at 1.
  rewrite hashBytes_poly. reflexivity.
Qed.

(** The seed is a 64-bit value whenever the timestamp is. *)
Lemma GetSeedForRand_range (n : ProcessingNonce) :
  in_range (Timestamp n) -> in_range (GetSeedForRand n).
Proof.
  intros Ht. unfold GetSeedForRand.
  apply lxor_range; [exact Ht|].
  apply hashBytes_range. unfold in_range, half. lia.
Qed.

(** Two nonces with the same timestamp and nonce string have the same seed,
    whatever their other field holds. *)
Lemma GetSeedForRand_deterministic (n m : ProcessingNonce) :
  Timestamp n = Timestamp m -> Nonce n = Nonce m ->
  GetSeedForRand n = GetSeedForRand m.
Proof.
  intros Ht Hn. unfold GetSeedForRand. rewrite Ht, Hn. reflexivity.
Qed.

Example seed_example :
  GetSeedForRand {| Timestamp := 1700000000000000000; Random := "ab"; Nonce := "1_ab" |}
  = 1700000000001292015.
Proof. vm_compute. reflexivity. Qed.

End NonceFacts.

(** ** The ephemeral store *)

Module StorageFacts.
Import GoErr Rt Storage StorageSpec.

Section Facts.
Context `{L : GoLib} (env : Env).

(** *** The mutex and the lookup *)

Lemma RLock_RUnlock (w : World) : RUnlock (RLock w) = w.
Proof.
  destruct w as [t er hc nr js g f [bd fl [r wr] tl tk sc] sl lg].
  reflexivity.
Qed.

Lemma Get_world (id : string) (w : World) : snd (Get id w) = w.
Proof. unfold Get. cbn [snd]. apply RLock_RUnlock. Qed.

Lemma Get_result (id : string) (w : World) :
  fst (Get id w) =
  match files (store w) !! id with
  | None => Err (New ("file not found: " +:+ id))
  | Some tf =>
      if ExpiresAt tf <? time w then Err (New ("file expired: " +:+ id)) else Ok tf
  end.
Proof. reflexivity. Qed.

(** C10. A lookup leaves the whole process state as it found it: the map,
    every entry and its expiry time, the files on disk, the pending
    deletions and the log are the same after [Get] as before, whether the id
    is present, absent or expired. *)
Theorem Get_is_read_only (id : string) (w : World) :
  snd (Get id w) = w
  /\ files (store (snd (Get id w))) = files (store w)
  /\ (forall tf, files (store w) !! id = Some tf ->
        After (time w) (ExpiresAt tf) = true ->
        isOk (fst (Get id w)) = false
        /\ files (store (snd (Get id w))) !! id = Some tf).
Proof.
  pose proof (RLock_RUnlock w) as Hw.
  split; [|split].
  - exact Hw.
  - unfold Get. cbn [snd]. now rewrite Hw.
  - intros tf Htf Hexp. split.
    + rewrite Get_result, Htf. unfold After in Hexp. now rewrite Hexp.
    + unfold Get. cbn [snd]. now rewrite Hw.
Qed.

(** *** Frames: what the removal of files leaves alone *)

Lemma removeQuietly_frame warn path (w : World) :
  let w' := removeQuietly env warn path w in
  store w' = store w /\ time w' = time w /\ sleepers w' = sleepers w.
Proof.
  unfold removeQuietly, Remove.
  destruct (fs w !! path); [destruct (denyRemove env path)|]; cbn; auto.
Qed.

Lemma removeFiles_frame warn p o (w : World) :
  let w' := removeFiles env warn p o w in
  store w' = store w /\ time w' = time w /\ sleepers w' = sleepers w.
Proof.
  unfold removeFiles.
  pose proof (removeQuietly_frame warn p w) as (H1 & H2 & H3).
  destruct (negb (String.eqb o "") && negb (String.eqb o p)); [|auto].
  pose proof (removeQuietly_frame warn o (removeQuietly env warn p w)) as (H4 & H5 & H6).
  cbn zeta in *. rewrite H4, H5, H6. auto.
Qed.

Lemma sweepFiles_frame warn (l : list TempFile) (w : World) :
  let w' := foldl (fun w tf => removeFiles env warn (Path tf) (OriginalPath tf) w) w l in
  store w' = store w /\ time w' = time w /\ sleepers w' = sleepers w.
Proof.
  revert w. induction l as [|tf l IH]; intros w; cbn [foldl]; [auto|].
  specialize (IH (removeFiles env warn (Path tf) (OriginalPath tf) w)).
  pose proof (removeFiles_frame warn (Path tf) (OriginalPath tf) w) as (H1 & H2 & H3).
  cbn zeta in *. destruct IH as (-> & -> & ->). auto.
Qed.

(** *** The map after a sweep and after a scheduled deletion *)

Lemma lookup_foldr_delete (m : gmap string TempFile) (l : list (string * TempFile)) k :
  foldr (fun e m => delete (fst e) m) m l !! k
  = if decide (k ∈ l.*1) then None else m !! k.
Proof.
  induction l as [|[i x] l IH]; cbn [foldr fmap list_fmap fst].
  - case_decide as H; [by apply elem_of_nil in H|done].
  - rewrite lookup_delete, IH.
    repeat case_decide; set_solver.
Qed.

Lemma expired_elem (m : gmap string TempFile) now k :
  k ∈ (List.filter (isExpired now) (map_to_list m)).*1
  <-> exists tf, m !! k = Some tf /\ ExpiresAt tf < now.
Proof.
  rewrite list_elem_of_fmap. split.
  - intros [[i tf] [-> Hin]]. exists tf.
    apply list_elem_of_In, filter_In in Hin as [Hin Hexp].
    apply list_elem_of_In, elem_of_map_to_list in Hin.
    unfold isExpired, After in Hexp. cbn in *. split; [done|lia].
  - intros [tf [Hk Hexp]]. exists (k, tf). split; [done|].
    apply list_elem_of_In, filter_In. split.
    + by apply list_elem_of_In, elem_of_map_to_list.
    + unfold isExpired, After. cbn. lia.
Qed.

Lemma cleanup_store_frame (w : World) :
  let w' := cleanup env w in
  time w' = time w /\ sleepers w' = sleepers w
  /\ (ttl (store w') = ttl (store w)
      /\ cleanupTicker (store w') = cleanupTicker (store w)).
Proof.
  unfold cleanup.
  set (w1 := Unlock _).
  assert (H1 : time w1 = time w /\ sleepers w1 = sleepers w
               /\ (ttl (store w1) = ttl (store w)
                   /\ cleanupTicker (store w1) = cleanupTicker (store w)))
    by (cbn; auto).
  destruct (0 <? length _)%nat; [|exact H1].
  match goal with |- context [foldl ?f w1 ?l] =>
    pose proof (sweepFiles_frame LogCleanupFailed l w1) as (Ha & Hb & Hc) end.
  cbn zeta in *. cbn [logf set_log time sleepers store].
  destruct H1 as (H1 & H2 & H3). rewrite Ha, Hb, Hc. auto.
Qed.

Lemma cleanup_files (w : World) k :
  files (store (cleanup env w)) !! k
  = match files (store w) !! k with
    | Some tf => if ExpiresAt tf <? time w then None else Some tf
    | None => None
    end.
Proof.
  unfold cleanup.
  set (expired := List.filter _ _).
  set (w1 := Unlock _).
  assert (H1 : files (store w1) !! k
               = foldr (fun e m => delete (fst e) m) (files (store w)) expired !! k)
    by reflexivity.
  assert (H2 : files (store (cleanup env w)) !! k = files (store w1) !! k).
  { unfold cleanup. fold expired. fold w1.
    destruct (0 <? length _)%nat; [|reflexivity].
    match goal with |- context [foldl ?f w1 ?l] =>
      pose proof (sweepFiles_frame LogCleanupFailed l w1) as (Ha & _) end.
    cbn zeta in Ha. cbn [logf set_log store]. now rewrite Ha. }
  unfold cleanup in H2. fold expired in H2. fold w1 in H2.
  rewrite H2, H1, lookup_foldr_delete.
  subst expired. cbn [time Lock withStore set_store].
  case_decide as Hin.
  - apply expired_elem in Hin as (tf & Hk & Hexp).
    cbn in Hk. rewrite Hk.
    destruct (ExpiresAt tf <? time w) eqn:E; [done|lia].
  - destruct (files (store w) !! k) as [tf|] eqn:Hk; [|done].
    destruct (ExpiresAt tf <? time w) eqn:E; [|done].
    exfalso. apply Hin, expired_elem. exists tf. split; [exact Hk|lia].
Qed.

Lemma scheduleDeletion_frame id p o (w : World) :
  let w' := scheduleDeletion env id p o w in
  files (store w') = delete id (files (store w))
  /\ time w' = time w /\ sleepers w' = sleepers w /\ ttl (store w') = ttl (store w).
Proof.
  unfold scheduleDeletion.
  set (w1 := Unlock _).
  pose proof (removeFiles_frame LogDeleteFailed p o w1) as (Ha & Hb & Hc).
  cbn zeta in *. cbn [logf set_log store time sleepers].
  rewrite Ha, Hb, Hc. subst w1. cbn. auto.
Qed.

(** *** What [Store] does *)

Lemma Store_cases filePath originalPath mediaType (w : World) :
  let r := Store env filePath originalPath mediaType w in
  time (snd r) = time w /\ ttl (store (snd r)) = ttl (store w) /\
  ((exists e, fst r = Err e
      /\ files (store (snd r)) = files (store w)
      /\ sleepers (snd r) = sleepers w
      /\ fs (snd r) = fs w)
   \/ (exists id size, fst r = Ok id
      /\ Stat filePath w = Ok size
      /\ files (store (snd r))
         = <[id := storedFile id filePath originalPath mediaType size w]> (files (store w))
      /\ sleepers (snd r) = sleepers w ++ [sleeperOf id filePath originalPath w]
      /\ fs (snd r) = fs w)).
Proof.
  unfold Store, generateID, cryptoRead.
  destruct (entropySrc env (entropyReads w)) as [bs|];
    (unfold Stat; cbn [fs set_entropyReads];
     destruct (fs w !! filePath) as [content|] eqn:Hf; cbn;
     [ split; [reflexivity|split; [reflexivity|]]; right; eexists _, _;
       repeat split; reflexivity
     | split; [reflexivity|split; [reflexivity|]]; left; eexists;
       repeat split; reflexivity ]).
Qed.

(** *** Life of one stored object *)

Lemma alive_background id tf (w w' : World) :
  background env w w' -> alive id tf w -> alive id tf w'.
Proof.
  intros Hbg (Hlive & Hval & Hsl). destruct Hbg as [w d Hd|w Htk Hnext|w Hst|w pre s post Hs Hwake].
  - split; [|split]; cbn; [intros; apply Hlive; lia|exact Hval|exact Hsl].
  - pose proof (cleanup_store_frame (advanceTicker w)) as (Ht & Hs & _).
    pose proof (cleanup_files (advanceTicker w) id) as Hf.
    cbn zeta in *.
    change (files (store (advanceTicker w))) with (files (store w)) in Hf.
    change (time (advanceTicker w)) with (time w) in *.
    change (sleepers (advanceTicker w)) with (sleepers w) in *.
    split; [|split].
    + rewrite Ht. intros Hlt. rewrite Hf, (Hlive Hlt).
      destruct (ExpiresAt tf <? time w) eqn:E; [lia|done].
    + rewrite Hf. destruct Hval as [-> | ->]; [|by right].
      destruct (ExpiresAt tf <? time w); [by right|by left].
    + by rewrite Hs.
  - split; [|split]; cbn; [exact Hlive|exact Hval|exact Hsl].
  - unfold wake.
    pose proof (scheduleDeletion_frame (sId s) (sPath s) (sOriginal s)
                  (set_sleepers (pre ++ post) w)) as (Hf & Ht & Hsl' & _).
    cbn zeta in *. cbn [set_sleepers store time sleepers] in *.
    rewrite Hs in Hsl.
    apply Forall_app in Hsl as [Hpre Hpost].
    apply Forall_cons in Hpost as [Hthis Hpost].
    split; [|split].
    + rewrite Ht, Hf. intros Hlt.
      destruct (decide (sId s = id)) as [Heq|Hne]; [specialize (Hthis Heq); lia|].
      rewrite lookup_delete_ne by done. by apply Hlive.
    + rewrite Hf. destruct (decide (sId s = id)) as [<-|Hne].
      * right. apply lookup_delete_eq.
      * by rewrite lookup_delete_ne.
    + rewrite Hsl'. by apply Forall_app.
Qed.

Lemma alive_around id tf (w w' : World) :
  around env id w w' -> alive id tf w -> alive id tf w'.
Proof.
  intros Har Hal. destruct Har as [w w' Hbg|w id'|w p o m Hne].
  - by eapply alive_background.
  - by rewrite Get_world.
  - destruct Hal as (Hlive & Hval & Hsl).
    pose proof (Store_cases p o m w) as (Ht & _ & Hc). cbn zeta in *.
    destruct Hc as [(e & _ & Hf & Hs & _)|(id' & sz & Hr & _ & Hf & Hs & _)].
    + unfold alive. by rewrite Ht, Hf, Hs.
    + assert (id' <> id) by (intros ->; by apply Hne).
      unfold alive. rewrite Ht, Hf, Hs, lookup_insert_ne by done.
      split; [done|split; [done|]].
      apply Forall_app. split; [done|].
      apply Forall_cons. split; [|done]. cbn. congruence.
Qed.

Lemma alive_reachable id tf (w w' : World) :
  rtc (around env id) w w' -> alive id tf w -> alive id tf w'.
Proof. induction 1; eauto using alive_around. Qed.

(** C1. An object placed in the store under [id] is what [Get id] returns,
    at once and at any later moment before its expiry time
    [createdAt + TTL], whatever the store does in between for other ids and
    in the background; at any moment after the expiry time [Get id] fails,
    also when the entry is still in the map and its file still on disk. *)
Theorem Get_after_Store filePath originalPath mediaType (w w1 : World) id :
  Store env filePath originalPath mediaType w = (Ok id, w1) ->
  Forall (fun s => sId s <> id) (sleepers w) ->
  0 < ttl (store w) ->
  exists tf,
    ID tf = id /\ Path tf = filePath /\ OriginalPath tf = originalPath
    /\ MediaType tf = mediaType /\ CreatedAt tf = time w
    /\ ExpiresAt tf = time w + ttl (store w)
    /\ fst (Get id w1) = Ok tf
    /\ (forall w2, rtc (around env id) w1 w2 ->
          (time w2 < ExpiresAt tf -> fst (Get id w2) = Ok tf)
          /\ (ExpiresAt tf < time w2 -> isOk (fst (Get id w2)) = false))
    /\ (forall w2 : World, files (store w2) !! id = Some tf ->
          fs w2 !! filePath <> None ->
          ExpiresAt tf < time w2 ->
          fst (Get id w2) = Err (New ("file expired: " +:+ id))).
Proof.
  intros HS Hfresh Httl.
  pose proof (Store_cases filePath originalPath mediaType w) as (Ht & _ & Hc).
  cbn zeta in *. rewrite HS in *. cbn [fst snd] in *.
  destruct Hc as [(e & He & _)|(id' & sz & Hr & _ & Hf & Hs & _)]; [discriminate|].
  injection Hr as <-.
  set (tf := storedFile id filePath originalPath mediaType sz w) in *.
  assert (Hal : alive id tf w1).
  { split; [|split].
    - intros _. rewrite Hf. apply lookup_insert_eq.
    - left. rewrite Hf. apply lookup_insert_eq.
    - rewrite Hs. apply Forall_app. split.
      + eapply Forall_impl; [exact Hfresh|]. cbn. intros s Hn Heq. done.
      + apply Forall_cons. split; [|done]. cbn. lia. }
  exists tf. repeat (split; [reflexivity|]).
  split; [|split].
  - rewrite Get_result. destruct Hal as (Hlive & _).
    rewrite Hlive by (cbn; lia).
    destruct (ExpiresAt tf <? time w1) eqn:E; [cbn in E; lia|done].
  - intros w2 Hreach.
    pose proof (alive_reachable id tf w1 w2 Hreach Hal) as (Hlive & Hval & _).
    split.
    + intros Hlt. rewrite Get_result, (Hlive Hlt).
      destruct (ExpiresAt tf <? time w2) eqn:E; [lia|done].
    + intros Hgt. rewrite Get_result.
      destruct Hval as [-> | ->]; [|done].
      destruct (ExpiresAt tf <? time w2) eqn:E; [done|lia].
  - intros w2 Hin _ Hgt. rewrite Get_result, Hin.
    destruct (ExpiresAt tf <? time w2) eqn:E; [done|lia].
Qed.

(** At the expiry instant itself the entry, if still in the map, is served:
    [time.Time.After] is strict. *)
Lemma Get_at_expiry id tf (w : World) :
  files (store w) !! id = Some tf -> time w = ExpiresAt tf ->
  fst (Get id w) = Ok tf.
Proof.
  intros Hin Ht. rewrite Get_result, Hin, Ht, Z.ltb_irrefl. reflexivity.
Qed.

(** *** The file system under the eviction paths *)

Lemma removeQuietly_fs warn path (w : World) :
  fs (removeQuietly env warn path w) = rm env path (fs w).
Proof.
  unfold removeQuietly, Remove, rm.
  destruct (fs w !! path) eqn:Hp.
  - destruct (denyRemove env path); reflexivity.
  - cbn. destruct (denyRemove env path); [reflexivity|].
    symmetry. by apply delete_id.
Qed.

Lemma removeFiles_fs warn p o (w : World) :
  fs (removeFiles env warn p o w) = rmFiles env p o (fs w).
Proof.
  unfold removeFiles, rmFiles.
  destruct (negb (String.eqb o "") && negb (String.eqb o p));
    by rewrite ?removeQuietly_fs.
Qed.

Lemma sweepFiles_fs warn (l : list TempFile) (w : World) :
  fs (foldl (fun w tf => removeFiles env warn (Path tf) (OriginalPath tf) w) w l)
  = rmAll env l (fs w).
Proof.
  unfold rmAll. revert w. induction l as [|tf l IH]; intros w; cbn [foldl]; [done|].
  by rewrite IH, removeFiles_fs.
Qed.




Lemma rm_lookup p m q :
  rm env p m !! q = if decide (p = q) then (if denyRemove env p then m !! q else None)
                else m !! q.
Proof.
  unfold rm. destruct (denyRemove env p).
  - by case_decide.
  - by rewrite lookup_delete.
Qed.

Lemma rm_shrinks p m q : rm env p m !! q = None \/ rm env p m !! q = m !! q.
Proof. rewrite rm_lookup. case_decide; destruct (denyRemove env p); auto. Qed.

Lemma rmFiles_shrinks p o m q : rmFiles env p o m !! q = None \/ rmFiles env p o m !! q = m !! q.
Proof.
  unfold rmFiles. destruct (_ && _); [|apply rm_shrinks].
  destruct (rm_shrinks o (rm env p m) q) as [->| ->]; [auto|apply rm_shrinks].
Qed.

Lemma rmAll_shrinks l m q : rmAll env l m !! q = None \/ rmAll env l m !! q = m !! q.
Proof.
  unfold rmAll. revert m. induction l as [|tf l IH]; intros m; cbn [foldl]; [auto|].
  destruct (IH (rmFiles env (Path tf) (OriginalPath tf) m)) as [->| ->];
    [auto|apply rmFiles_shrinks].
Qed.

Lemma rmFiles_other p o m q : q <> p -> q <> o -> rmFiles env p o m !! q = m !! q.
Proof.
  intros Hp Ho. unfold rmFiles.
  destruct (_ && _); rewrite !rm_lookup; repeat case_decide; congruence.
Qed.

Lemma rmAll_other l m q :
  Forall (fun tf => q <> Path tf /\ q <> OriginalPath tf) l -> rmAll env l m !! q = m !! q.
Proof.
  unfold rmAll. intros H. revert m.
  induction H as [|tf l [Hp Ho] _ IH]; intros m; cbn [foldl]; [done|].
  by rewrite IH, rmFiles_other.
Qed.


Lemma gone_shrinks q m m' :
  (forall k, m' !! k = None \/ m' !! k = m !! k) -> gone env q m -> gone env q m'.
Proof. unfold gone. intros Hs [?|Hq]; [auto|]. right. destruct (Hs q); congruence. Qed.

Lemma rmFiles_gone p o m :
  gone env p (rmFiles env p o m) /\ (o <> "" -> gone env o (rmFiles env p o m)).
Proof.
  unfold rmFiles, gone.
  destruct (String.eqb_spec o ""); cbn.
  - split; [|done]. rewrite rm_lookup. rewrite decide_True by done.
    destruct (denyRemove env p); auto.
  - destruct (String.eqb_spec o p) as [->|Hne]; cbn.
    + assert (H : denyRemove env p = true \/ rm env p m !! p = None).
      { rewrite rm_lookup, decide_True by done. destruct (denyRemove env p); auto. }
      auto.
    + split; [|intros _]; rewrite !rm_lookup; repeat case_decide; try congruence;
        destruct (denyRemove env p), (denyRemove env o); auto.
Qed.

Lemma rmAll_gone l m tf :
  tf ∈ l ->
  gone env (Path tf) (rmAll env l m) /\ (OriginalPath tf <> "" -> gone env (OriginalPath tf) (rmAll env l m)).
Proof.
  unfold rmAll. intros Hin. revert m.
  induction l as [|x l IH]; intros m; [by apply elem_of_nil in Hin|].
  cbn [foldl]. apply elem_of_cons in Hin as [->|Hin]; [|by apply IH].
  destruct (rmFiles_gone (Path x) (OriginalPath x) m) as [Hp Ho].
  split; [|intros Hne; specialize (Ho Hne)];
    (eapply gone_shrinks; [|eassumption]); intros k; apply (rmAll_shrinks l).
Qed.



(** *** The two eviction paths, field by field *)

Lemma expiredOf_elem (w : World) tf :
  tf ∈ expiredOf w <-> exists id, files (store w) !! id = Some tf /\ ExpiresAt tf < time w.
Proof.
  unfold expiredOf. rewrite list_elem_of_fmap. split.
  - intros [[i x] [-> Hin]]. exists i.
    apply list_elem_of_In, filter_In in Hin as [Hin Hexp].
    apply list_elem_of_In, elem_of_map_to_list in Hin.
    unfold isExpired, After in Hexp. cbn in *. split; [done|lia].
  - intros [id [Hk Hexp]]. exists (id, tf). split; [done|].
    apply list_elem_of_In, filter_In. split.
    + by apply list_elem_of_In, elem_of_map_to_list.
    + unfold isExpired, After. cbn. lia.
Qed.

Lemma cleanup_fs (w : World) : fs (cleanup env w) = rmAll env (expiredOf w) (fs w).
Proof.
  unfold cleanup, expiredOf.
  cbn [time Lock withStore set_store store files].
  set (l := snd <$> _).
  destruct (0 <? length l)%nat eqn:E.
  - cbn [logf set_log fs]. by rewrite sweepFiles_fs.
  - destruct l; [done|cbn in E; lia].
Qed.











Lemma cleanup_keeps_live (w : World) id' tf :
  files (store w) !! id' = Some tf -> time w <= ExpiresAt tf ->
  files (store (cleanup env w)) !! id' = Some tf.
Proof.
  intros H Hlive. rewrite cleanup_files, H.
  destruct (ExpiresAt tf <? time w) eqn:E; [lia|done].
Qed.






(** *** The periodic sweep *)

Lemma NewTempStorage_ticker dir ttl0 (w : World) :
  let ts := store (NewTempStorage dir ttl0 w) in
  period (cleanupTicker ts) = minute
  /\ nextTick (cleanupTicker ts) = time w + minute
  /\ ticking (cleanupTicker ts) = true
  /\ ttl ts = (if ttl0 <=? 0 then 10 * minute else ttl0)
  /\ files ts = ∅.
Proof. unfold NewTempStorage. cbn. repeat split; lia. Qed.

Lemma NewTempStorage_ttl_pos dir ttl0 (w : World) :
  0 < ttl (store (NewTempStorage dir ttl0 w)).
Proof.
  unfold NewTempStorage. cbn. destruct (ttl0 <=? 0) eqn:E; unfold minute; lia.
Qed.

Lemma tick_advances (w : World) :
  let w' := cleanup env (advanceTicker w) in
  period (cleanupTicker (store w')) = period (cleanupTicker (store w))
  /\ nextTick (cleanupTicker (store w'))
     = nextTick (cleanupTicker (store w)) + period (cleanupTicker (store w)).
Proof.
  pose proof (cleanup_store_frame (advanceTicker w)) as (_ & _ & _ & Hk).
  cbn zeta in *. rewrite Hk. cbn. auto.
Qed.

Lemma cleanup_removes_expired (w : World) id tf :
  files (store w) !! id = Some tf -> ExpiresAt tf < time w ->
  files (store (cleanup env w)) !! id = None
  /\ (denyRemove env (Path tf) = false -> fs (cleanup env w) !! Path tf = None)
  /\ (OriginalPath tf <> "" -> denyRemove env (OriginalPath tf) = false ->
      fs (cleanup env w) !! OriginalPath tf = None).
Proof.
  intros H Hexp.
  assert (Hin : tf ∈ expiredOf w) by (apply expiredOf_elem; eauto).
  destruct (rmAll_gone (expiredOf w) (fs w) tf Hin) as [Hp Ho].
  rewrite cleanup_fs, cleanup_files, H.
  split; [|split].
  - destruct (ExpiresAt tf <? time w) eqn:E; [done|lia].
  - intros Hd. destruct Hp as [Hp|Hp]; [congruence|done].
  - intros Hne Hd. destruct (Ho Hne) as [Hq|Hq]; [congruence|done].
Qed.

(** C9 (as amended). The sweep runs on a ticker whose period is one minute
    whatever TTL the store was built with: one tenth of the default TTL of
    ten minutes, and shorter than the TTL exactly when the TTL is longer
    than a minute.  Each tick moves the next one a period further.  Each
    sweep removes every entry whose expiry time has passed, removes its
    artifact and, when set, its original from disk unless the removal is
    refused, and keeps every entry whose expiry time has not passed. *)
Theorem sweep_every_minute_removes_expired :
  (forall dir ttl0 (w : World),
      let ts := store (NewTempStorage dir ttl0 w) in
      period (cleanupTicker ts) = minute
      /\ ttl ts = (if ttl0 <=? 0 then 10 * minute else ttl0)
      /\ (ttl0 <= 0 -> 10 * period (cleanupTicker ts) = ttl ts)
      /\ (period (cleanupTicker ts) < ttl ts <-> ttl0 <= 0 \/ minute < ttl0))
  /\ (forall w : World,
      let w' := cleanup env (advanceTicker w) in
      period (cleanupTicker (store w')) = period (cleanupTicker (store w))
      /\ nextTick (cleanupTicker (store w'))
         = nextTick (cleanupTicker (store w)) + period (cleanupTicker (store w)))
  /\ (forall (w : World) id tf,
      files (store w) !! id = Some tf -> ExpiresAt tf < time w ->
      files (store (cleanup env w)) !! id = None
      /\ (denyRemove env (Path tf) = false -> fs (cleanup env w) !! Path tf = None)
      /\ (OriginalPath tf <> "" -> denyRemove env (OriginalPath tf) = false ->
          fs (cleanup env w) !! OriginalPath tf = None))
  /\ (forall (w : World) id tf,
      files (store w) !! id = Some tf -> time w <= ExpiresAt tf ->
      files (store (cleanup env w)) !! id = Some tf).
Proof.
  repeat apply conj.
  - intros dir ttl0 w ts.
    destruct (NewTempStorage_ticker dir ttl0 w) as (Hp & _ & _ & Ht & _).
    fold ts in Hp, Ht. rewrite Hp, Ht.
    destruct (ttl0 <=? 0) eqn:E; unfold minute; repeat split; lia.
  - exact tick_advances.
  - exact cleanup_removes_expired.
  - exact cleanup_keeps_live.
Qed.

End Facts.
End StorageFacts.

(** ** Strings *)

Module GoStrFacts.
Import GoStr.

Lemma take_length n s : String.length (take n s) = Nat.min n (String.length s).
Proof.
  revert s. induction n as [|n IH]; intros [|c r]; cbn; try reflexivity.
  by rewrite IH.
Qed.

Lemma take_all n s : (String.length s <= n)%nat -> take n s = s.
Proof.
  revert s. induction n as [|n IH]; intros [|c r] H; cbn in *; try reflexivity; try lia.
  f_equal. apply IH. lia.
Qed.

Lemma len_nonneg s : 0 <= len s.
Proof. unfold len. lia. Qed.

Lemma len_take n s : len (take n s) = Z.min (Z.of_nat n) (len s).
Proof. unfold len. rewrite take_length. lia. Qed.

(** A lower-cased string holds no upper-case "E". *)
Lemma lowerByte_not_E c : Ascii.eqb "E" (lowerByte c) = false.
Proof. destruct c as [[] [] [] [] [] [] [] []]; reflexivity. Qed.

Lemma Contains_ToLower_upper s rest : Contains (ToLower s) (String "E" rest) = false.
Proof.
  induction s as [|c r IH]; cbn [ToLower Contains HasPrefix]; [reflexivity|].
  rewrite lowerByte_not_E, IH. reflexivity.
Qed.

Lemma append_empty s : s +:+ "" = s.
Proof.
  induction s as [|c r IH]; [reflexivity|].
  change (String c (r +:+ "") = String c r). by rewrite IH.
Qed.

Lemma ToLower_app a b : ToLower (a +:+ b) = ToLower a +:+ ToLower b.
Proof.
  induction a as [|c r IH]; [reflexivity|].
  change (String (lowerByte c) (ToLower (r +:+ b))
          = String (lowerByte c) (ToLower r +:+ ToLower b)).
  by rewrite IH.
Qed.

Lemma lowerByte_numeric c : DownloaderSpec.numericByte c = true -> lowerByte c = c.
Proof. destruct c as [[] [] [] [] [] [] [] []]; cbn; intros H; try discriminate; reflexivity. Qed.

Lemma ToLower_numeric s : DownloaderSpec.numeric s = true -> ToLower s = s.
Proof.
  induction s as [|c r IH]; cbn; [reflexivity|].
  intros [Hc Hr]%andb_prop. by rewrite (lowerByte_numeric c Hc), IH.
Qed.

Lemma string_of_uint_numeric d :
  DownloaderSpec.numeric (NilEmpty.string_of_uint d) = true.
Proof. induction d; cbn; try reflexivity; exact IHd. Qed.

Lemma itoa_numeric z : DownloaderSpec.numeric (itoa z) = true.
Proof.
  unfold itoa, NilZero.string_of_int.
  destruct (Z.to_int z) as [d|d]; cbn.
  - destruct d; cbn; try reflexivity; apply string_of_uint_numeric.
  - destruct d; cbn; try reflexivity; apply string_of_uint_numeric.
Qed.

(** A pattern that starts with a letter cannot begin inside a number. *)
Lemma Contains_skip_numeric d rest p :
  DownloaderSpec.numeric d = true -> DownloaderSpec.startsPlain p = true ->
  Contains (d +:+ rest) p = Contains rest p.
Proof.
  intros Hd Hp. destruct p as [|pc ps]; [discriminate|]. cbn in Hp.
  induction d as [|c r IH]; [reflexivity|].
  cbn in Hd. apply andb_prop in Hd as [Hc Hr].
  assert (Hne : Ascii.eqb pc c = false).
  { destruct (Ascii.eqb_spec pc c) as [->|]; [|reflexivity].
    by rewrite Hc in Hp. }
  change (String c r +:+ rest) with (String c (r +:+ rest)).
  cbn [Contains HasPrefix]. rewrite Hne. cbn [andb orb]. by apply IH.
Qed.

End GoStrFacts.

(** ** The downloader *)

Module DownloaderFacts.
Import GoErr Rt Downloader DownloaderSpec GoStrFacts.

Lemma isRetryableError_effective e :
  isRetryableError (Some e)
  = existsb (fun p => GoStr.Contains (GoStr.ToLower (Error e)) p) effectivePatterns.
Proof.
  unfold isRetryableError, retryableErrors, effectivePatterns.
  cbn [existsb]. rewrite (Contains_ToLower_upper (Error e) "OF").
  cbn [orb]. reflexivity.
Qed.

Lemma HasPrefix_mayStart s rest p :
  GoStr.HasPrefix (s +:+ rest) p = true -> mayStart s p = true.
Proof.
  revert p. induction s as [|c r IH]; intros [|pc ps]; try reflexivity.
  change (String c r +:+ rest) with (String c (r +:+ rest)).
  cbn [GoStr.HasPrefix mayStart]. intros [Hc Hr]%andb_prop.
  rewrite Hc. cbn [andb]. by eapply IH.
Qed.

Lemma Contains_skip_clean s rest p :
  clean s p = true -> GoStr.Contains (s +:+ rest) p = GoStr.Contains rest p.
Proof.
  induction s as [|c r IH]; [reflexivity|].
  cbn [clean]. intros [Hm Hr]%andb_prop.
  change (String c r +:+ rest) with (String c (r +:+ rest)).
  cbn [GoStr.Contains].
  destruct (GoStr.HasPrefix (String c (r +:+ rest)) p) eqn:E.
  - apply (HasPrefix_mayStart (String c r) rest p) in E. by rewrite E in Hm.
  - cbn [orb]. by apply IH.
Qed.

(** A pattern that starts with a letter and cannot start inside any of the
    fixed parts of a message does not occur in the message. *)
Lemma Contains_render segs p :
  startsPlain p = true ->
  forallb (cleanSeg p) segs = true ->
  GoStr.Contains (GoStr.ToLower (render segs)) p = false.
Proof.
  intros Hp. induction segs as [|[t|z] rest IH]; cbn [forallb render cleanSeg].
  - intros _. destruct p; [discriminate|reflexivity].
  - intros [Ht Hr]%andb_prop.
    rewrite ToLower_app, Contains_skip_clean by exact Ht. by apply IH.
  - intros Hr. cbn [andb] in Hr.
    rewrite ToLower_app, (ToLower_numeric _ (itoa_numeric z)).
    rewrite Contains_skip_numeric by (exact Hp || apply itoa_numeric). by apply IH.
Qed.

Lemma rendered_not_retryable segs e :
  Error e = render segs ->
  forallb (fun p => startsPlain p && forallb (cleanSeg p) segs) effectivePatterns = true ->
  isRetryableError (Some e) = false.
Proof.
  intros He Hall. rewrite isRetryableError_effective, He.
  induction effectivePatterns as [|p ps IH]; [reflexivity|].
  cbn [forallb existsb] in *.
  apply andb_prop in Hall as [[Hp Hc]%andb_prop Hps].
  by rewrite (Contains_render segs p Hp Hc), IH.
Qed.

(** The structural errors of an attempt are never retried, whatever numbers
    they mention: HTTP status, oversize, too small. *)
Lemma tooLarge_not_retryable n max : isRetryableError (Some (tooLarge n max)) = false.
Proof.
  apply (rendered_not_retryable
           [Txt "file too large: "; Num n; Txt " bytes (max: "; Num max; Txt ")"]);
    [|vm_compute]; reflexivity.
Qed.

Lemma http_status_not_retryable code :
  isRetryableError (Some (New ("download failed: HTTP " +:+ GoStr.itoa code))) = false.
Proof.
  apply (rendered_not_retryable [Txt "download failed: HTTP "; Num code]);
    [cbn [Error render]; by rewrite append_empty|vm_compute; reflexivity].
Qed.

Lemma tooSmall_not_retryable n :
  isRetryableError
    (Some (New ("file too small: " +:+ GoStr.itoa n
                +:+ " bytes (likely corrupted or empty)"))) = false.
Proof.
  apply (rendered_not_retryable
           [Txt "file too small: "; Num n; Txt " bytes (likely corrupted or empty)"]);
    [|vm_compute]; reflexivity.
Qed.

Lemma unexpected_EOF_not_retryable :
  isRetryableError (Some ErrUnexpectedEOF) = false
  /\ isRetryableError (Some EOF) = false
  /\ isRetryableError (Some (Wrap "read failed: " ErrUnexpectedEOF "")) = false
  /\ isRetryableError (Some (Wrap "download failed: " ErrUnexpectedEOF "")) = false.
Proof. repeat split; vm_compute; reflexivity. Qed.

Section Facts.
Context `{L : GoLib} (env : Env).

Lemma sameProcess_refl w : sameProcess w w.
Proof. by repeat split. Qed.

Lemma sameProcess_trans w1 w2 w3 :
  sameProcess w1 w2 -> sameProcess w2 w3 -> sameProcess w1 w3.
Proof.
  unfold sameProcess. intros (A1 & A2 & A3 & A4 & A5 & A6) (B1 & B2 & B3 & B4 & B5 & B6).
  repeat split; congruence.
Qed.

Lemma readBody_frame d url k resp (w : World) :
  let w' := snd (readBody env d url k resp w) in
  sameProcess w w' /\ httpCalls w' = httpCalls w /\ time w' = time w.
Proof.
  unfold readBody.
  repeat match goal with
         | |- context [if ?b then _ else _] => destruct b
         | |- context [match ?x with _ => _ end] => destruct x
         end; cbn; repeat split; reflexivity.
Qed.

Lemma downloadWithValidation_frame d url a (w : World) :
  let w' := snd (downloadWithValidation env d url a w) in
  sameProcess w w' /\ httpCalls w' = S (httpCalls w) /\ time w' = time w.
Proof.
  unfold downloadWithValidation.
  destruct (httpSrc env url (httpCalls w)) as [e|e|resp];
    [cbn; repeat split; reflexivity..|].
  destruct (negb (StatusCode resp =? 200)); [cbn; repeat split; reflexivity|].
  destruct (maxSize d <? ContentLength resp); [cbn; repeat split; reflexivity|].
  match goal with |- context [readBody env d url ?k resp ?w0] =>
    pose proof (readBody_frame d url k resp w0) as (Hs & Hc & Ht);
    destruct (readBody env d url k resp w0) as [[data|e] w1] end;
    cbn [snd] in *.
  - assert (Hgoal : sameProcess w w1 /\ httpCalls w1 = S (httpCalls w) /\ time w1 = time w).
    { split; [|split]; [|exact Hc|exact Ht].
      eapply sameProcess_trans; [|exact Hs]. by repeat split. }
    repeat match goal with
           | |- context [if ?b then _ else _] => destruct b
           | |- context [match ?x with _ => _ end] => destruct x
           end; cbn [snd]; try exact Hgoal.
    all: destruct Hgoal as ((?&?&?&?&?&?) & ? & ?); cbn; repeat split; assumption.
  - split; [|split]; [|exact Hc|exact Ht].
    eapply sameProcess_trans; [|exact Hs]. by repeat split.
Qed.

(** The outcome of an attempt is decided by the answer to its request. *)
Lemma readBody_result d url k resp (w w' : World) :
  fst (readBody env d url k resp w) = fst (readBody env d url k resp w').
Proof.
  unfold readBody.
  repeat match goal with
         | |- context [if ?b then _ else _] => destruct b
         | |- context [match ?x with _ => _ end] => destruct x
         end; reflexivity.
Qed.

Lemma downloadWithValidation_result d url a a' (w w' : World) :
  httpCalls w = httpCalls w' ->
  fst (downloadWithValidation env d url a w)
  = fst (downloadWithValidation env d url a' w').
Proof.
  intros Hk. unfold downloadWithValidation. rewrite <- Hk.
  destruct (httpSrc env url (httpCalls w)) as [e|e|resp]; [reflexivity..|].
  destruct (negb (StatusCode resp =? 200)); [reflexivity|].
  destruct (maxSize d <? ContentLength resp); [reflexivity|].
  match goal with
  | |- context [readBody env d url ?k resp ?w0] =>
      match goal with
      | |- fst _ = fst (match readBody env d url k resp ?w1 with _ => _ end) =>
          pose proof (readBody_result d url k resp w0 w1) as Hr;
          destruct (readBody env d url k resp w0) as [r0 x0];
          destruct (readBody env d url k resp w1) as [r1 x1]
      end
  end.
  cbn [fst] in Hr. subst r1. destruct r0 as [data|e]; [|reflexivity].
  repeat match goal with
         | |- context [if ?b then _ else _] => destruct b
         | |- context [match ?x with _ => _ end] => destruct x
         end; reflexivity.
Qed.

Lemma attempt_eq d url a (w : World) :
  fst (downloadWithValidation env d url a w) = attempt env d url (httpCalls w) w.
Proof. unfold attempt. by apply downloadWithValidation_result. Qed.

Lemma attempt_indep d url k (w w' : World) : attempt env d url k w = attempt env d url k w'.
Proof. unfold attempt. by apply downloadWithValidation_result. Qed.

Lemma Download_valid d url (w : World) :
  validURL url = true -> Download env d url w = retryLoop env d url [1; 2; 3] None w.
Proof.
  unfold validURL, Download. intros H.
  destruct (String.eqb url ""); [discriminate|].
  destruct (GoStr.HasPrefix url "http://"), (GoStr.HasPrefix url "https://");
    try reflexivity; discriminate.
Qed.

Lemma Download_invalid d url (w : World) :
  validURL url = false ->
  snd (Download env d url w) = w /\ isOk (fst (Download env d url w)) = false.
Proof.
  unfold validURL, Download. intros H.
  destruct (String.eqb url ""); [done|].
  destruct (GoStr.HasPrefix url "http://"), (GoStr.HasPrefix url "https://");
    try discriminate; done.
Qed.

(** One turn of the retry loop. *)
Lemma retryLoop_step d url a rest lastErr (w : World) :
  let r := attempt env d url (httpCalls w) w in
  let w1 := snd (downloadWithValidation env d url a w) in
  retryLoop env d url (a :: rest) lastErr w =
  match r with
  | Ok data => (Ok data, w1)
  | Err err =>
      if negb (isRetryableError (Some err)) then (Err err, w1)
      else retryLoop env d url rest (Some err)
             (if a <? 3 then Sleep (a * second) (logf (LogRetrying a err) w1) else w1)
  end.
Proof.
  cbn zeta. rewrite <- (attempt_eq d url a w). cbn [retryLoop].
  destruct (downloadWithValidation env d url a w) as [[data|err] w1]; reflexivity.
Qed.

Lemma Download_verdict d url (w : World) :
  validURL url = true ->
  let k := httpCalls w in
  let v := verdict (attempt env d url k w) (attempt env d url (S k) w)
                   (attempt env d url (S (S k)) w) in
  let r := Download env d url w in
  fst r = verdictResult v
  /\ httpCalls (snd r) = (k + verdictAttempts v)%nat
  /\ time (snd r) = time w + verdictSlept v
  /\ sameProcess w (snd r).
Proof.
  intros Hv. cbn zeta. rewrite (Download_valid d url w Hv).
  rewrite retryLoop_step. cbn zeta.
  pose proof (downloadWithValidation_frame d url 1 w) as (S1 & C1 & T1).
  cbn zeta in *.
  set (w1 := snd (downloadWithValidation env d url 1 w)) in *.
  unfold verdict.
  destruct (attempt env d url (httpCalls w) w) as [data|e1] eqn:E1.
  { cbn. rewrite C1, T1. repeat split; try lia; apply S1. }
  cbn [retryable].
  destruct (isRetryableError (Some e1)); cbn [negb];
    [|cbn; rewrite C1, T1; repeat split; try lia; apply S1].
  change (1 <? 3) with true. cbn iota.
  set (w1' := Sleep (1 * second) (logf (LogRetrying 1 e1) w1)).
  assert (S1' : sameProcess w w1') by (destruct S1 as (?&?&?&?&?&?); by repeat split).
  assert (C1' : httpCalls w1' = S (httpCalls w)) by exact C1.
  assert (T1' : time w1' = time w + 1 * second) by (cbn; rewrite T1; reflexivity).
  rewrite retryLoop_step. cbn zeta.
  pose proof (downloadWithValidation_frame d url 2 w1') as (S2 & C2 & T2).
  cbn zeta in *.
  set (w2 := snd (downloadWithValidation env d url 2 w1')) in *.
  rewrite C1', (attempt_indep d url (S (httpCalls w)) w1' w).
  destruct (attempt env d url (S (httpCalls w)) w) as [data|e2] eqn:E2.
  { cbn. rewrite C2, C1', T2, T1'.
    repeat split; try lia; eapply sameProcess_trans; eauto. }
  cbn [retryable].
  destruct (isRetryableError (Some e2)); cbn [negb];
    [|cbn; rewrite C2, C1', T2, T1';
      repeat split; try lia; eapply sameProcess_trans; eauto].
  change (2 <? 3) with true. cbn iota.
  set (w2' := Sleep (2 * second) (logf (LogRetrying 2 e2) w2)).
  assert (S2' : sameProcess w w2').
  { eapply sameProcess_trans; [exact S1'|].
    destruct S2 as (?&?&?&?&?&?); by repeat split. }
  assert (C2' : httpCalls w2' = S (S (httpCalls w))) by (cbn; rewrite C2, C1'; done).
  assert (T2' : time w2' = time w + 1 * second + 2 * second)
    by (cbn; rewrite T2, T1'; reflexivity).
  rewrite retryLoop_step. cbn zeta.
  pose proof (downloadWithValidation_frame d url 3 w2') as (S3 & C3 & T3).
  cbn zeta in *.
  set (w3 := snd (downloadWithValidation env d url 3 w2')) in *.
  rewrite C2', (attempt_indep d url (S (S (httpCalls w))) w2' w).
  assert (S3' : sameProcess w w3) by (eapply sameProcess_trans; eauto).
  destruct (attempt env d url (S (S (httpCalls w))) w) as [data|e3] eqn:E3.
  { cbn. rewrite C3, C2', T3, T2'. repeat split; try lia; apply S3'. }
  cbn [retryable].
  destruct (isRetryableError (Some e3)); cbn [negb];
    cbn; rewrite C3, C2', T3, T2'; repeat split; try lia; apply S3'.
Qed.

(** At most three attempts, and between them a sleep of one second, then
    of two. *)
Lemma Download_bounds d url (w : World) :
  let r := Download env d url w in
  (httpCalls (snd r) <= httpCalls w + 3)%nat
  /\ (httpCalls (snd r) = httpCalls w /\ time (snd r) = time w
      \/ httpCalls (snd r) = S (httpCalls w) /\ time (snd r) = time w
      \/ httpCalls (snd r) = S (S (httpCalls w)) /\ time (snd r) = time w + 1 * second
      \/ httpCalls (snd r) = S (S (S (httpCalls w)))
         /\ time (snd r) = time w + 1 * second + 2 * second).
Proof.
  cbn zeta. destruct (validURL url) eqn:Hv.
  - destruct (Download_verdict d url w Hv) as (_ & Hc & Ht & _).
    cbn zeta in *. rewrite Hc, Ht.
    set (v := verdict _ _ _).
    assert (Hcases :
      (verdictAttempts v = 1%nat /\ verdictSlept v = 0)
      \/ (verdictAttempts v = 2%nat /\ verdictSlept v = 1 * second)
      \/ (verdictAttempts v = 3%nat /\ verdictSlept v = 1 * second + 2 * second)).
    { subst v. unfold verdict.
      repeat match goal with
             | |- context [match ?x with _ => _ end] => destruct x
             end; cbn; auto. }
    destruct Hcases as [[-> ->]|[[-> ->]|[-> ->]]]; split; lia.
  - destruct (Download_invalid d url w Hv) as [-> _]. split; [lia|]. by left.
Qed.

(** A transient error on the first attempt followed by a success on the
    second delivers the payload, one second later. *)
Lemma Download_recovers d url (w : World) e data :
  validURL url = true ->
  attempt env d url (httpCalls w) w = Err e ->
  isRetryableError (Some e) = true ->
  attempt env d url (S (httpCalls w)) w = Ok data ->
  let r := Download env d url w in
  fst r = Ok data
  /\ httpCalls (snd r) = S (S (httpCalls w))
  /\ time (snd r) = time w + 1 * second.
Proof.
  intros Hv H1 Hr H2. cbn zeta.
  destruct (Download_verdict d url w Hv) as (Hres & Hc & Ht & _).
  cbn zeta in *. rewrite Hres, Hc, Ht, H1, H2. unfold verdict.
  cbn [retryable]. rewrite Hr. cbn. repeat split; lia.
Qed.

(** Three transient errors exhaust the download: the error returned wraps
    the last of them. *)
Lemma Download_exhausted d url (w : World) e1 e2 e3 :
  validURL url = true ->
  attempt env d url (httpCalls w) w = Err e1 ->
  attempt env d url (S (httpCalls w)) w = Err e2 ->
  attempt env d url (S (S (httpCalls w))) w = Err e3 ->
  isRetryableError (Some e1) = true ->
  isRetryableError (Some e2) = true ->
  isRetryableError (Some e3) = true ->
  let r := Download env d url w in
  fst r = Err (Wrap "download failed after 3 attempts: " e3 "")
  /\ (forall e, fst r = Err e -> wraps e e3)
  /\ httpCalls (snd r) = S (S (S (httpCalls w)))
  /\ time (snd r) = time w + 1 * second + 2 * second.
Proof.
  intros Hv H1 H2 H3 R1 R2 R3. cbn zeta.
  destruct (Download_verdict d url w Hv) as (Hres & Hc & Ht & _).
  cbn zeta in *. rewrite Hres, Hc, Ht, H1, H2, H3. unfold verdict.
  cbn [retryable]. rewrite R1, R2, R3. cbn [negb verdictResult verdictAttempts verdictSlept].
  split; [reflexivity|]. split; [|split; lia].
  intros e He. injection He as <-. cbn. right. destruct e3; by left.
Qed.

(** *** One attempt on a response with status 200 *)

Lemma len_take_Z n s : 0 <= n -> GoStr.len (GoStr.take (Z.to_nat n) s) = Z.min n (GoStr.len s).
Proof. intros Hn. rewrite len_take. lia. Qed.

Lemma ReadFull_spec (r : Stream) (n : Z) :
  0 < n ->
  let '(buf, err) := ReadFull r (Z.to_nat n) in
  GoStr.len buf = Z.min n (GoStr.len (avail r))
  /\ (n <= GoStr.len (avail r) -> buf = GoStr.take (Z.to_nat n) (avail r) /\ err = None)
  /\ (GoStr.len (avail r) < n -> buf = avail r /\ err <> None).
Proof.
  intros Hn. unfold ReadFull.
  destruct (Z.to_nat n <=? String.length (avail r))%nat eqn:E.
  - apply Nat.leb_le in E. unfold GoStr.len at 2 3 4.
    rewrite len_take_Z by lia. unfold GoStr.len. repeat split; lia.
  - apply Nat.leb_gt in E. unfold GoStr.len. repeat split; try done; lia.
Qed.

Lemma ReadAllLimited_spec (r : Stream) (limit : Z) :
  0 <= limit ->
  let '(data, err) := ReadAllLimited r limit in
  GoStr.len data = Z.min limit (GoStr.len (avail r))
  /\ (limit <= GoStr.len (avail r) ->
      data = GoStr.take (Z.to_nat limit) (avail r) /\ err = None)
  /\ (GoStr.len (avail r) < limit ->
      data = avail r
      /\ (trailer r = None -> err = None)
      /\ (forall e, err = Some e -> trailer r = Some e)).
Proof.
  intros Hn. unfold ReadAllLimited.
  destruct (limit <=? GoStr.len (avail r)) eqn:E.
  - rewrite len_take_Z by lia. repeat split; lia.
  - repeat split; try lia.
    + by intros ->.
    + intros e. by destruct (trailer r) as [[]|].
Qed.

Lemma downloadWithValidation_too_large d url a (w : World) resp :
  httpSrc env url (httpCalls w) = DoOk resp ->
  StatusCode resp = 200 ->
  maxSize d < ContentLength resp ->
  downloadWithValidation env d url a w
  = (Err (tooLarge (ContentLength resp) (maxSize d)), set_httpCalls (S (httpCalls w)) w).
Proof.
  intros Hr Hs Hl. unfold downloadWithValidation. rewrite Hr, Hs. cbn [Z.eqb negb].
  change (negb (200 =? 200)) with false. cbn iota.
  destruct (maxSize d <? ContentLength resp) eqn:E; [reflexivity|lia].
Qed.

Lemma attempt_http_status d url (w : World) resp :
  httpSrc env url (httpCalls w) = DoOk resp ->
  StatusCode resp <> 200 ->
  attempt env d url (httpCalls w) w
  = Err (New ("download failed: HTTP " +:+ GoStr.itoa (StatusCode resp))).
Proof.
  intros Hr Hs. unfold attempt, downloadWithValidation.
  cbn [httpCalls set_httpCalls]. rewrite Hr.
  destruct (StatusCode resp =? 200) eqn:E; [lia|reflexivity].
Qed.

Lemma attempt_oversize d url (w : World) resp :
  httpSrc env url (httpCalls w) = DoOk resp ->
  StatusCode resp = 200 ->
  maxSize d < ContentLength resp ->
  attempt env d url (httpCalls w) w = Err (tooLarge (ContentLength resp) (maxSize d)).
Proof.
  intros Hr Hs Hl. rewrite <- (attempt_eq d url 0 w).
  by rewrite (downloadWithValidation_too_large d url 0 w resp Hr Hs Hl).
Qed.

(** The structural errors end a download at once: a URL with another scheme
    makes no request; an HTTP error status and a declared length above the
    ceiling are returned after the first attempt, with no sleep. *)
Lemma Download_structural_errors_immediate d url (w : World) :
  (validURL url = false ->
   snd (Download env d url w) = w /\ isOk (fst (Download env d url w)) = false)
  /\ (forall resp,
      validURL url = true ->
      httpSrc env url (httpCalls w) = DoOk resp ->
      StatusCode resp <> 200 ->
      let r := Download env d url w in
      fst r = Err (New ("download failed: HTTP " +:+ GoStr.itoa (StatusCode resp)))
      /\ httpCalls (snd r) = S (httpCalls w) /\ time (snd r) = time w)
  /\ (forall resp,
      validURL url = true ->
      httpSrc env url (httpCalls w) = DoOk resp ->
      StatusCode resp = 200 ->
      maxSize d < ContentLength resp ->
      let r := Download env d url w in
      fst r = Err (tooLarge (ContentLength resp) (maxSize d))
      /\ httpCalls (snd r) = S (httpCalls w) /\ time (snd r) = time w).
Proof.
  split; [apply Download_invalid|]. split.
  - intros resp Hv Hr Hs. cbn zeta.
    destruct (Download_verdict d url w Hv) as (Hres & Hc & Ht & _).
    cbn zeta in *. rewrite Hres, Hc, Ht.
    rewrite (attempt_http_status d url w resp Hr Hs). unfold verdict.
    cbn [retryable]. rewrite http_status_not_retryable. cbn. repeat split; lia.
  - intros resp Hv Hr Hs Hl. cbn zeta.
    destruct (Download_verdict d url w Hv) as (Hres & Hc & Ht & _).
    cbn zeta in *. rewrite Hres, Hc, Ht.
    rewrite (attempt_oversize d url w resp Hr Hs Hl). unfold verdict.
    cbn [retryable]. rewrite tooLarge_not_retryable. cbn. repeat split; lia.
Qed.

(** After the body was read, an attempt only validates and logs. *)
Lemma downloadWithValidation_read d url a (w : World) resp :
  httpSrc env url (httpCalls w) = DoOk resp ->
  StatusCode resp = 200 ->
  ContentLength resp <= maxSize d ->
  let w0 := logf (LogDownloading (ContentLength resp) a (truncateURL url))
                 (set_httpCalls (S (httpCalls w)) w) in
  let b := readBody env d url (httpCalls w) resp w0 in
  let r := downloadWithValidation env d url a w in
  netRead (snd r) = netRead (snd b)
  /\ (forall e, fst b = Err e -> fst r = Err e)
  /\ (forall data, fst r = Ok data -> fst b = Ok data)
  /\ (forall data, fst b = Ok data ->
        100 <= GoStr.len data ->
        (0 < ContentLength resp -> isVideoURL url = true ->
         validateVideoData data = None) ->
        fst r = Ok data).
Proof.
  intros Hr Hs Hl. cbn zeta. unfold downloadWithValidation.
  rewrite Hr, Hs. change (negb (200 =? 200)) with false. cbn iota.
  destruct (maxSize d <? ContentLength resp) eqn:E; [lia|].
  destruct (readBody env d url _ resp _) as [[data|e] w1]; cbn [fst snd].
  - destruct (GoStr.len data =? 0) eqn:E0;
      [cbn; repeat split; try done; intros ? [= <-]; lia|].
    destruct (GoStr.len data <? 100) eqn:E1;
      [cbn; repeat split; try done; intros ? [= <-]; lia|].
    destruct (0 <? ContentLength resp) eqn:E2; cbn [andb].
    + destruct (isVideoURL url) eqn:E3.
      * destruct (validateVideoData data) eqn:E4; cbn; repeat split; try done;
          try (by intros ? [= <-]).
        intros ? [= <-] _ Hv. rewrite Hv in E4; [done|lia|done].
      * cbn; repeat split; try done; try (by intros ? [= <-]).
    + cbn; repeat split; try done; try (by intros ? [= <-]).
  - repeat split; try done.
Qed.

Lemma readBody_declared d url k resp (w : World) :
  0 < ContentLength resp ->
  ContentLength resp <= maxSize d ->
  let L0 := ContentLength resp in
  let n := GoStr.len (avail (Body resp)) in
  let b := readBody env d url k resp w in
  (L0 <= allocatedSrc env k -> netRead (snd b) = netRead w + Z.min L0 n)
  /\ (allocatedSrc env k < L0 -> netRead (snd b) = netRead w + Z.min (maxSize d + 1) n)
  /\ (n < L0 ->
      fst b = Err (incomplete L0 n " (connection interrupted)")
      \/ fst b = Err (incomplete L0 n " (partial file)")
      \/ exists c, fst b = Err (Wrap "read failed: " c ""))
  /\ (forall data, fst b = Ok data ->
        data = GoStr.take (Z.to_nat L0) (avail (Body resp)) /\ GoStr.len data = L0)
  /\ (n = L0 -> trailer (Body resp) = None -> fst b = Ok (avail (Body resp))).
Proof.
  intros Hpos Hmax. cbn zeta. unfold readBody.
  destruct (0 <? ContentLength resp) eqn:E; [|lia].
  destruct (ContentLength resp <=? allocatedSrc env k) eqn:Ea.
  - pose proof (ReadFull_spec (Body resp) (ContentLength resp) Hpos) as Hrf.
    destruct (ReadFull (Body resp) (Z.to_nat (ContentLength resp))) as [buf err].
    destruct Hrf as (Hlen & Hfull & Hshort).
    destruct err as [e|].
    + assert (Hlt : GoStr.len (avail (Body resp)) < ContentLength resp).
      { destruct (Z.lt_ge_cases (GoStr.len (avail (Body resp))) (ContentLength resp));
          [done|]. destruct Hfull; [lia|done]. }
      destruct (Hshort Hlt) as [-> _].
      destruct (isSentinelEOF e); cbn; repeat split; try done; try lia; eauto.
    + assert (Hge : ContentLength resp <= GoStr.len (avail (Body resp))).
      { destruct (Z.lt_ge_cases (GoStr.len (avail (Body resp))) (ContentLength resp));
          [|lia]. destruct Hshort as [_ ?]; done. }
      destruct (Hfull Hge) as [-> _].
      rewrite Hlen, Z.min_l by lia. rewrite Z.eqb_refl. cbn.
      repeat split; try lia.
      * by injection H as <-.
      * injection H as <-. rewrite len_take_Z by lia. lia.
      * intros Hn _. f_equal. apply take_all. unfold GoStr.len in *. lia.
  - assert (Hlim : 0 <= maxSize d + 1) by lia.
    pose proof (ReadAllLimited_spec (Body resp) (maxSize d + 1) Hlim) as Hra.
    destruct (ReadAllLimited (Body resp) (maxSize d + 1)) as [data err].
    destruct Hra as (Hlen & Hfull & Hshort).
    destruct err as [e|].
    + cbn. repeat split; try done; try lia; eauto.
      intros Hn Htr. destruct Hshort as (_ & Hnone & _); [lia|]. by specialize (Hnone Htr).
    + destruct (GoStr.len data =? ContentLength resp) eqn:El; cbn [negb].
      * destruct (maxSize d <? GoStr.len data) eqn:Em; [lia|]. cbn.
        assert (Hd : data = avail (Body resp)) by (apply Hshort; lia).
        repeat split; try lia.
        -- injection H as <-. rewrite Hd. symmetry. apply take_all.
           subst data. unfold GoStr.len in *. lia.
        -- injection H as <-. lia.
        -- intros _ _. by rewrite Hd.
      * cbn. repeat split; try done; try lia.
        intros Hn. right. left. do 2 f_equal.
        destruct Hshort as (Hd & _); [lia|]. by rewrite Hd.
Qed.

Lemma readBody_undeclared d url k resp (w : World) :
  ContentLength resp <= 0 ->
  0 <= maxSize d ->
  let n := GoStr.len (avail (Body resp)) in
  let b := readBody env d url k resp w in
  netRead (snd b) = netRead w + Z.min (maxSize d + 1) n
  /\ (maxSize d < n -> fst b = Err (tooLarge (maxSize d + 1) (maxSize d)))
  /\ (n <= maxSize d -> trailer (Body resp) = None -> fst b = Ok (avail (Body resp))).
Proof.
  intros Hcl Hmax. cbn zeta. unfold readBody.
  destruct (0 <? ContentLength resp) eqn:E; [lia|].
  assert (Hlim : 0 <= maxSize d + 1) by lia.
  pose proof (ReadAllLimited_spec (Body resp) (maxSize d + 1) Hlim) as Hra.
  destruct (ReadAllLimited (Body resp) (maxSize d + 1)) as [data err].
  destruct Hra as (Hlen & Hfull & Hshort).
  destruct err as [e|].
  - cbn. repeat split; try lia.
    + intros Hn. destruct Hfull; [lia|done].
    + intros Hn Htr. destruct Hshort as (_ & Hnone & _); [lia|]. by specialize (Hnone Htr).
  - destruct (maxSize d <? GoStr.len data) eqn:Em; cbn; repeat split; try lia.
    + intros _. do 2 f_equal. lia.
    + intros Hn _. f_equal. apply Hshort. lia.
Qed.


(** C6. The size boundary of an attempt.  (1) A body of exactly the maximum
    size that ends cleanly, declared with that length or with none, is
    returned whole, provided it passes the other checks (at least 100 bytes,
    and the signature check for a video URL with a declared length).  (2) A
    response that declares one byte more than the maximum fails with the
    oversize error and nothing is read from its body.  (3) With no declared
    length, a body longer than the maximum fails with the oversize error
    after exactly maximum + 1 bytes were read. *)
Theorem size_boundary :
  (forall d url a (w : World) resp,
      httpSrc env url (httpCalls w) = DoOk resp ->
      StatusCode resp = 200 ->
      trailer (Body resp) = None ->
      GoStr.len (avail (Body resp)) = maxSize d ->
      ContentLength resp = maxSize d \/ ContentLength resp <= 0 ->
      100 <= maxSize d ->
      (0 < ContentLength resp -> isVideoURL url = true ->
       validateVideoData (avail (Body resp)) = None) ->
      fst (downloadWithValidation env d url a w) = Ok (avail (Body resp)))
  /\ (forall d url a (w : World) resp,
      httpSrc env url (httpCalls w) = DoOk resp ->
      StatusCode resp = 200 ->
      ContentLength resp = maxSize d + 1 ->
      fst (downloadWithValidation env d url a w)
      = Err (tooLarge (maxSize d + 1) (maxSize d))
      /\ netRead (snd (downloadWithValidation env d url a w)) = netRead w)
  /\ (forall d url a (w : World) resp,
      httpSrc env url (httpCalls w) = DoOk resp ->
      StatusCode resp = 200 ->
      ContentLength resp <= 0 ->
      0 <= maxSize d ->
      maxSize d < GoStr.len (avail (Body resp)) ->
      fst (downloadWithValidation env d url a w)
      = Err (tooLarge (maxSize d + 1) (maxSize d))
      /\ netRead (snd (downloadWithValidation env d url a w))
         = netRead w + (maxSize d + 1)).
Proof.
  repeat apply conj.
  - intros d url a w resp Hr Hs Htr Hlen Hcl Hmin Hvideo.
    assert (Hfit : ContentLength resp <= maxSize d) by lia.
    pose proof (downloadWithValidation_read d url a w resp Hr Hs Hfit)
      as (_ & _ & _ & Hgood).
    cbn zeta in Hgood. apply Hgood; [|lia|exact Hvideo].
    destruct Hcl as [Hcl|Hcl].
    + apply readBody_declared; [lia|lia|lia|exact Htr].
    + apply readBody_undeclared; [lia|lia|lia|exact Htr].
  - intros d url a w resp Hr Hs Hcl.
    rewrite (downloadWithValidation_too_large d url a w resp Hr Hs) by lia.
    rewrite Hcl. split; reflexivity.
  - intros d url a w resp Hr Hs Hcl Hmax Hlong.
    assert (Hfit : ContentLength resp <= maxSize d) by lia.
    pose proof (downloadWithValidation_read d url a w resp Hr Hs Hfit)
      as (Hnet & Herr & _).
    cbn zeta in *.
    set (w0 := logf _ _) in *.
    pose proof (readBody_undeclared d url (httpCalls w) resp w0 Hcl Hmax)
      as (Hread & Hover & _).
    cbn zeta in *. change (netRead w0) with (netRead w) in *.
    split; [by apply Herr, Hover|].
    rewrite Hnet, Hread. lia.
Qed.

End Facts.
End DownloaderFacts.

(** ** The converters and their parameters *)

Module ServicesFacts.
Import GoErr Rt Services ServicesSpec.

Section Params.
Context `{L : GoLib}.

Lemma emitted_same (w w' : World) : jobs w' = jobs w -> emitted w w' = [].
Proof. unfold emitted. intros ->. apply drop_all. Qed.

Lemma emitted_one (w w' : World) j : jobs w' = jobs w ++ [j] -> emitted w w' = [j].
Proof. unfold emitted. intros ->. by rewrite drop_app_length. Qed.

Lemma quiet_refl w : quiet w w.
Proof. by repeat split. Qed.

Lemma quiet_trans w1 w2 w3 : quiet w1 w2 -> quiet w2 w3 -> quiet w1 w3.
Proof.
  unfold quiet. intros (A1 & A2 & A3 & A4) (B1 & B2 & B3 & B4).
  repeat split; congruence.
Qed.

Lemma WriteFile_frame env path data (w : World) :
  let w' := snd (WriteFile env path data w) in
  quiet w w' /\ jobs w' = jobs w /\ entropyReads w' = entropyReads w
  /\ global w' = global w.
Proof. unfold WriteFile. destruct (denyWrite env path); cbn; by repeat split. Qed.

Lemma Remove_frame env path (w : World) :
  let w' := snd (Remove env path w) in
  quiet w w' /\ jobs w' = jobs w /\ entropyReads w' = entropyReads w
  /\ global w' = global w.
Proof.
  unfold Remove. destruct (fs w !! path); [destruct (denyRemove env path)|];
    cbn; by repeat split.
Qed.

Lemma GenerateNonce_frame env (w : World) :
  let w' := snd (GenerateNonce env w) in
  quiet w w' /\ jobs w' = jobs w /\ fs w' = fs w
  /\ entropyReads w' = S (entropyReads w)
  /\ (entropySrc env (entropyReads w) <> None -> global w' = global w).
Proof.
  unfold GenerateNonce, cryptoRead.
  destruct (entropySrc env (entropyReads w)) as [bs|]; cbn.
  - by repeat split.
  - destruct (ReadN 16 (global w)). cbn. by repeat split.
Qed.

(** The nonce depends on the clock, the entropy read and, on the fallback
    path, the process-wide generator; not on the files. *)
Lemma GenerateNonce_set_fs env x (w : World) :
  fst (GenerateNonce env (set_fs x w)) = fst (GenerateNonce env w)
  /\ global (snd (GenerateNonce env (set_fs x w))) = global (snd (GenerateNonce env w)).
Proof.
  unfold GenerateNonce, cryptoRead. cbn [entropyReads set_fs time].
  destruct (entropySrc env (entropyReads w)) as [bs|]; cbn; [done|].
  destruct (ReadN 16 (global w)). done.
Qed.

Lemma runAndWrite_frame env job outPath (w : World) :
  let w' := snd (runAndWrite env job outPath w) in
  quiet w w' /\ jobs w' = jobs w ++ [job] /\ entropyReads w' = entropyReads w
  /\ global w' = global w.
Proof.
  unfold runAndWrite, runFfmpeg.
  destruct (execSrc env (length (jobs w)) job) as [e stderr|output]; cbn;
    [by repeat split|].
  destruct (GoStr.len output =? 0); cbn; [by repeat split|].
  unfold WriteFile. destruct (denyWrite env outPath); cbn; by repeat split.
Qed.

Lemma clamp_min x : (if 50 <? x then 50 else x) = Z.min 50 x.
Proof. destruct (50 <? x) eqn:E; lia. Qed.

Lemma audio_script_run env inputData outputPath inputFormat (w : World) :
  let w' := snd (AudioConvertWithScriptTechniques env inputData outputPath inputFormat w) in
  quiet w w'
  /\ (didNotRun w w' \/ ranOnce env (fun n => audioJob n inputFormat inputData) w w').
Proof.
  unfold AudioConvertWithScriptTechniques.
  destruct (GoStr.len inputData =? 0).
  { cbn. split; [apply quiet_refl|]. left. repeat split. by apply emitted_same. }
  pose proof (GenerateNonce_frame env w) as (Hq & Hj & _ & He & Hg).
  unfold ranOnce, audioJob. cbn zeta in *.
  destruct (GenerateNonce env w) as [nonce wn]. cbn [fst snd] in *.
  destruct (Intn 50 (NewSource (GetSeedForRand nonce))) as [dl r1]. cbn [fst snd].
  destruct (Float64 r1) as [u r2]. cbn [fst snd].
  destruct (audioCodec inputFormat) as [[codec format] extraArgs]. cbn [fst snd].
  match goal with |- context [runAndWrite env ?job outputPath wn] =>
    pose proof (runAndWrite_frame env job outputPath wn) as (Hq' & Hj' & He' & Hg') end.
  cbn zeta in *. rewrite clamp_min in *.
  split; [by eapply quiet_trans|]. right. repeat split.
  - apply emitted_one. by rewrite Hj', Hj.
  - congruence.
  - intros Hsrc. rewrite Hg'. by apply Hg.
Qed.

Lemma modifyImageLSBWithNonce_eq data format nonce :
  (GoStr.len data =? 0) = false ->
  (String.eqb format "jpeg" || String.eqb format "png") = true ->
  modifyImageLSBWithNonce data format nonce
  = match lsbTweak data format (NewSource (GetSeedForRand nonce)) with
    | Some modified => Ok modified
    | None => Err (New "decode failed")
    end.
Proof.
  intros Hlen Hfmt. unfold modifyImageLSBWithNonce. rewrite Hlen.
  destruct (String.eqb format "jpeg"), (String.eqb format "png"); try discriminate;
    reflexivity.
Qed.

Lemma image_script_run env inputData outputPath (w : World) :
  let w' := snd (ImageConvertWithScriptTechniques env inputData outputPath w) in
  quiet w w'
  /\ (didNotRun w w' \/ ranOnce env (fun n => imageJob n inputData) w w').
Proof.
  unfold ImageConvertWithScriptTechniques.
  destruct (GoStr.len inputData =? 0) eqn:Hlen.
  { cbn. split; [apply quiet_refl|]. left. repeat split. by apply emitted_same. }
  pose proof (GenerateNonce_frame env w) as (Hq & Hj & _ & He & Hg).
  unfold ranOnce, imageJob, capped. cbn zeta in *.
  destruct (GenerateNonce env w) as [nonce wn]. cbn [fst snd] in *.
  destruct (String.eqb (detectFormat inputData) "jpeg"
            || String.eqb (detectFormat inputData) "png") eqn:Hfmt.
  - rewrite (modifyImageLSBWithNonce_eq inputData _ nonce Hlen Hfmt).
    destruct (lsbTweak inputData (detectFormat inputData)
                (NewSource (GetSeedForRand nonce))) as [modified|];
      destruct (Intn 2 (NewSource (GetSeedForRand nonce))) as [c r1]; cbn [fst snd];
      destruct (Float64 r1) as [u r2]; cbn [fst snd];
      match goal with |- context [runAndWrite env ?job ?out ?w0] =>
        pose proof (runAndWrite_frame env job out w0) as (Hq' & Hj' & He' & Hg') end;
      cbn zeta in *;
      (split; [eapply quiet_trans; [exact Hq|]; eapply quiet_trans; [|exact Hq'];
               by repeat split|]);
      right; repeat split;
      [ apply emitted_one; by rewrite Hj', <- Hj | by rewrite He', <- He
      | intros Hsrc; rewrite Hg'; by apply Hg
      | apply emitted_one; by rewrite Hj', <- Hj | by rewrite He', <- He
      | intros Hsrc; rewrite Hg'; by apply Hg ].
  - destruct (Intn 2 (NewSource (GetSeedForRand nonce))) as [c r1]. cbn [fst snd].
    destruct (Float64 r1) as [u r2]. cbn [fst snd].
    match goal with |- context [runAndWrite env ?job ?out ?w0] =>
      pose proof (runAndWrite_frame env job out w0) as (Hq' & Hj' & He' & Hg') end.
    cbn zeta in *.
    split; [by eapply quiet_trans|]. right. repeat split.
    + apply emitted_one. by rewrite Hj', Hj.
    + congruence.
    + intros Hsrc. rewrite Hg'. by apply Hg.
Qed.

Lemma video_script_run env inputData outputPath (w : World) :
  let w' := snd (VideoConvertWithScriptTechniques env inputData outputPath w) in
  quiet w w'
  /\ (didNotRun w w' \/ ranOnce env (fun n => videoJob n outputPath) w w').
Proof.
  unfold VideoConvertWithScriptTechniques.
  destruct (GoStr.len inputData =? 0) eqn:Hlen.
  { cbn. split; [apply quiet_refl|]. left. repeat split. by apply emitted_same. }
  destruct (validateMP4Integrity inputData) as [e|].
  { cbn. split; [apply quiet_refl|]. left. repeat split. by apply emitted_same. }
  unfold WriteFile.
  destruct (denyWrite env (outputPath +:+ ".input.mp4")).
  { cbn. split; [apply quiet_refl|]. left. repeat split. by apply emitted_same. }
  set (w0 := set_fs _ w).
  pose proof (GenerateNonce_frame env w0) as (Hq & Hj & _ & He & Hg).
  pose proof (GenerateNonce_set_fs env (fs w0) w) as (Hn & _).
  change (set_fs (fs w0) w) with w0 in Hn.
  unfold ranOnce, videoJob, capped. cbn zeta in *. rewrite <- Hn.
  destruct (GenerateNonce env w0) as [nonce wn]. cbn [fst snd] in *.
  destruct (Intn 2 (NewSource (GetSeedForRand nonce))) as [c r1]. cbn [fst snd].
  destruct (Float64 r1) as [u r2]. cbn [fst snd].
  match goal with |- context [runAndWrite env ?job ?out wn] =>
    pose proof (runAndWrite_frame env job out wn) as (Hq' & Hj' & He' & Hg');
    destruct (runAndWrite env job out wn) as [r wr] end.
  cbn [fst snd] in *.
  pose proof (Remove_frame env (outputPath +:+ ".input.mp4") wr) as (Hq'' & Hj'' & He'' & Hg'').
  cbn zeta in *.
  split.
  - eapply quiet_trans; [|exact Hq'']. eapply quiet_trans; [|exact Hq'].
    eapply quiet_trans; [|exact Hq]. by repeat split.
  - right. repeat split.
    + apply emitted_one. by rewrite Hj'', Hj', Hj.
    + by rewrite He'', He', He.
    + intros Hsrc. rewrite Hg'', Hg'. by apply Hg.
Qed.

(** C8 (as amended). A script conversion of any media kind either stops
    before the transcoder, having generated no nonce and left the
    process-wide generator alone, or it generates exactly one nonce and
    runs the transcoder once with parameters that are the function
    [scriptJob] of that nonce and of its own inputs: they are drawn from
    generators seeded with the nonce's seed and computed from its timestamp.
    The process-wide generator is not touched unless the entropy read of
    nonce generation fails. *)
Theorem script_parameters_come_from_one_nonce
    env mediaType inputFormat inputData outputPath convert (w : World) :
  Handlers.converterFor env mediaType inputFormat inputData outputPath = Some convert ->
  let w' := snd (convert w) in
  let nonce := fst (GenerateNonce env w) in
  (emitted w w' = [] /\ entropyReads w' = entropyReads w /\ global w' = global w)
  \/ (emitted w w' = [scriptJob mediaType inputFormat inputData outputPath nonce]
      /\ entropyReads w' = S (entropyReads w)
      /\ (entropySrc env (entropyReads w) <> None -> global w' = global w)).
Proof.
  unfold Handlers.converterFor, scriptJob. intros Hc. cbn zeta.
  destruct (String.eqb mediaType "audio").
  { injection Hc as <-.
    destruct (audio_script_run env inputData outputPath inputFormat w) as (_ & [H|H]);
      [left|right]; exact H. }
  destruct (String.eqb mediaType "image").
  { injection Hc as <-.
    destruct (image_script_run env inputData outputPath w) as (_ & [H|H]);
      [left|right]; exact H. }
  destruct (String.eqb mediaType "video"); [|discriminate].
  injection Hc as <-.
  destruct (video_script_run env inputData outputPath w) as (_ & [H|H]);
    [left|right]; exact H.
Qed.

Lemma globalIntn_entropy n (w : World) :
  entropyReads (snd (globalIntn n w)) = entropyReads w.
Proof. unfold globalIntn. destruct (Intn n (global w)). reflexivity. Qed.

(** The level-based conversion generates no nonce. *)
Lemma AudioConvert_generates_no_nonce env inputData level outputPath (w : World) :
  entropyReads (snd (AudioConvert env inputData level outputPath w)) = entropyReads w.
Proof.
  unfold AudioConvert. destruct (GoStr.len inputData =? 0); [reflexivity|].
  assert (Hp : entropyReads (snd (audioGetRandomizedParams level w)) = entropyReads w).
  { unfold audioGetRandomizedParams.
    repeat match goal with
           | |- context [if String.eqb level ?l then _ else _] =>
               destruct (String.eqb level l)
           end;
    repeat match goal with
           | |- context [globalIntn ?n ?w0] =>
               let H := fresh "H" in
               pose proof (globalIntn_entropy n w0) as H;
               destruct (globalIntn n w0); cbn [snd] in H
           end; cbn [snd]; congruence. }
  destruct (audioGetRandomizedParams level w) as [params wp]. cbn [snd] in *.
  match goal with |- context [runAndWrite env ?job ?out wp] =>
    pose proof (runAndWrite_frame env job out wp) as (_ & _ & He & _) end.
  cbn zeta in He. congruence.
Qed.

End Params.
End ServicesFacts.

(** ** The processing pipeline *)

Module HandlersFacts.
Import GoErr Rt Handlers HandlersSpec.

Section Facts.
Context `{L : GoLib} (env : Env).

Lemma sameStore_trans w1 w2 w3 : sameStore w1 w2 -> sameStore w2 w3 -> sameStore w1 w3.
Proof. unfold sameStore. intros [A1 A2] [B1 B2]. split; congruence. Qed.

Lemma quiet_sameStore w w' : ServicesSpec.quiet w w' -> sameStore w w'.
Proof. intros (_ & Hs & Hl & _). by split. Qed.

Lemma Download_sameStore d url (w : World) :
  sameStore w (snd (Downloader.Download env d url w)).
Proof.
  destruct (DownloaderSpec.validURL url) eqn:Hv.
  - destruct (DownloaderFacts.Download_verdict env d url w Hv)
      as (_ & _ & _ & (_ & _ & _ & _ & Hs & Hl)).
    by split.
  - destruct (DownloaderFacts.Download_invalid env d url w Hv) as [-> _]. by split.
Qed.

Lemma generateID_sameStore (w : World) :
  sameStore w (snd (Storage.generateID env w)).
Proof.
  unfold Storage.generateID, cryptoRead.
  destruct (entropySrc env (entropyReads w)); by split.
Qed.

Lemma GenerateTempPath_sameStore mediaType (w : World) :
  sameStore w (snd (Storage.GenerateTempPath env mediaType w)).
Proof.
  unfold Storage.GenerateTempPath.
  pose proof (generateID_sameStore w) as H.
  destruct (Storage.generateID env w) as [id w1]. exact H.
Qed.

Lemma GenerateTempPathWithFormat_sameStore mediaType format (w : World) :
  sameStore w (snd (Storage.GenerateTempPathWithFormat env mediaType format w)).
Proof.
  unfold Storage.GenerateTempPathWithFormat.
  pose proof (generateID_sameStore w) as H.
  destruct (Storage.generateID env w) as [id w1]. exact H.
Qed.

Lemma converter_sameStore mediaType inputFormat inputData outputPath convert (w : World) :
  converterFor env mediaType inputFormat inputData outputPath = Some convert ->
  sameStore w (snd (convert w)).
Proof.
  unfold converterFor. intros Hc.
  destruct (String.eqb mediaType "audio").
  { injection Hc as <-. apply quiet_sameStore, ServicesFacts.audio_script_run. }
  destruct (String.eqb mediaType "image").
  { injection Hc as <-. apply quiet_sameStore, ServicesFacts.image_script_run. }
  destruct (String.eqb mediaType "video"); [|discriminate].
  injection Hc as <-. apply quiet_sameStore, ServicesFacts.video_script_run.
Qed.

Lemma Remove_sameStore path (w : World) : sameStore w (snd (Remove env path w)).
Proof. apply quiet_sameStore, ServicesFacts.Remove_frame. Qed.

Lemma WriteFile_sameStore path data (w : World) :
  sameStore w (snd (WriteFile env path data w)).
Proof. apply quiet_sameStore, ServicesFacts.WriteFile_frame. Qed.

(** A request that does not end in status 200 registers nothing: the map
    of the store and the pending deletions are as before. *)
Lemma Process_failure_registers_nothing h req (w : World) :
  let r := Process env h req w in
  status (fst r) <> 200 ->
  files (store (snd r)) = files (store w) /\ sleepers (snd r) = sleepers w.
Proof.
  unfold Process. destruct req as [req|]; [|done].
  destruct (String.eqb (Arquivo req) ""); [done|].
  destruct (detectMediaTypeAndFormatFromURL (Arquivo req)) as [mediaType inputFormat].
  destruct (String.eqb mediaType ""); [done|].
  set (w0 := logf _ (logf _ w)).
  assert (H0 : sameStore w w0) by done.
  pose proof (Download_sameStore (downloader h) (Arquivo req) w0) as Hd.
  destruct (Downloader.Download env (downloader h) (Arquivo req) w0)
    as [[inputData|err] wd]; cbn [snd] in Hd.
  2: { intros _. cbn [snd]. destruct (sameStore_trans _ _ _ H0 Hd) as [-> ->]. done. }
  pose proof (GenerateTempPath_sameStore mediaType wd) as Hp.
  destruct (Storage.GenerateTempPath env mediaType wd) as [p wp]. cbn [snd] in Hp.
  pose proof (WriteFile_sameStore (p +:+ ".original") inputData wp) as Hw.
  destruct (WriteFile env (p +:+ ".original") inputData wp) as [[e|] ww];
    cbn [snd] in Hw.
  { intros _. cbn [snd].
    destruct (sameStore_trans _ _ _ H0
                (sameStore_trans _ _ _ Hd (sameStore_trans _ _ _ Hp Hw))) as [-> ->].
    done. }
  pose proof (GenerateTempPathWithFormat_sameStore mediaType inputFormat ww) as Ho.
  destruct (Storage.GenerateTempPathWithFormat env mediaType inputFormat ww)
    as [outputPath wo]. cbn [snd] in Ho.
  assert (H1 : sameStore w (logf (LogInfo "Applying fingerprint techniques...") wo)).
  { eapply sameStore_trans; [exact H0|]. eapply sameStore_trans; [exact Hd|].
    eapply sameStore_trans; [exact Hp|]. eapply sameStore_trans; [exact Hw|].
    exact Ho. }
  set (w1 := logf _ wo) in *.
  destruct (converterFor env mediaType inputFormat inputData outputPath)
    as [convert|] eqn:Hc.
  2: { intros _. cbn [snd]. destruct H1 as [-> ->]. done. }
  pose proof (converter_sameStore _ _ _ _ convert w1 Hc) as Hcv.
  destruct (convert w1) as [[err|] wc]; cbn [snd] in Hcv.
  { intros _. pose proof (Remove_sameStore (p +:+ ".original") wc) as Hr.
    cbn [snd]. destruct (sameStore_trans _ _ _ H1 (sameStore_trans _ _ _ Hcv Hr)) as [-> ->].
    done. }
  destruct (match Stat outputPath wc with Err e => IsNotExist e | Ok _ => false end).
  { intros _. pose proof (Remove_sameStore (p +:+ ".original") wc) as Hr.
    cbn [snd]. destruct (sameStore_trans _ _ _ H1 (sameStore_trans _ _ _ Hcv Hr)) as [-> ->].
    done. }
  set (w2 := logf _ wc).
  assert (H2 : sameStore w w2).
  { eapply sameStore_trans; [exact H1|]. exact Hcv. }
  pose proof (StorageFacts.Store_cases env outputPath (p +:+ ".original") mediaType w2)
    as (_ & _ & Hst).
  cbn zeta in Hst.
  destruct (Storage.Store env outputPath (p +:+ ".original") mediaType w2)
    as [[fileID|e] ws]; cbn [fst snd] in *.
  { intros Hne. cbn in Hne. done. }
  intros _.
  destruct Hst as [(e' & _ & Hf & Hsl & _)|(id & sz & Hid & _)]; [|discriminate].
  pose proof (Remove_sameStore outputPath ws) as Hr1.
  pose proof (Remove_sameStore (p +:+ ".original") (snd (Remove env outputPath ws))) as Hr2.
  cbn [snd]. destruct (sameStore_trans _ _ _ Hr1 Hr2) as [-> ->].
  destruct H2 as [H2a H2b]. rewrite Hf, Hsl, H2a, H2b. done.
Qed.

End Facts.
End HandlersFacts.

(** ** Strings, paths and names *)

Module TextFacts.
Import GoStr GoStrFacts TextSpec.

Lemma app_cons c r x : String c r +:+ x = String c (r +:+ x).
Proof. reflexivity. Qed.

Lemma append_assoc a b c : (a +:+ b) +:+ c = a +:+ (b +:+ c).
Proof.
  induction a as [|x r IH]; [reflexivity|].
  rewrite !app_cons. by rewrite IH.
Qed.

Lemma length_append a b :
  String.length (a +:+ b) = (String.length a + String.length b)%nat.
Proof.
  induction a as [|x r IH]; [reflexivity|].
  rewrite app_cons. cbn. by rewrite IH.
Qed.


(** *** Reversal, prefixes and suffixes *)

Lemma rev_app_app a b acc :
  String.rev_app (a +:+ b) acc = String.rev_app b (String.rev_app a acc).
Proof.
  revert acc. induction a as [|c r IH]; intros acc; [reflexivity|].
  rewrite app_cons. cbn. apply IH.
Qed.

Lemma rev_app_acc a acc : String.rev_app a acc = String.rev a +:+ acc.
Proof.
  revert acc. induction a as [|c r IH]; intros acc; [reflexivity|].
  unfold String.rev. cbn. rewrite IH, (IH (String c "")).
  rewrite append_assoc. reflexivity.
Qed.

Lemma rev_app a b : String.rev (a +:+ b) = String.rev b +:+ String.rev a.
Proof. unfold String.rev at 1. rewrite rev_app_app. rewrite rev_app_acc. reflexivity. Qed.

Lemma rev_involutive s : String.rev (String.rev s) = s.
Proof.
  induction s as [|c r IH]; [reflexivity|].
  change (String c r) with (String c "" +:+ r) at 1.
  rewrite rev_app, rev_app. cbn. rewrite IH. reflexivity.
Qed.

Lemma HasPrefix_nil s : HasPrefix s "" = true.
Proof. by destruct s. Qed.

Lemma HasPrefix_app s p : HasPrefix (p +:+ s) p = true.
Proof.
  induction p as [|c r IH]; [by destruct s|].
  rewrite app_cons. cbn. rewrite Ascii.eqb_refl. exact IH.
Qed.

Lemma HasSuffix_app s suf : HasSuffix (s +:+ suf) suf = true.
Proof. unfold HasSuffix. rewrite rev_app. apply HasPrefix_app. Qed.

Lemma take_HasPrefix p s : take (String.length p) s = p -> HasPrefix s p = true.
Proof.
  revert s. induction p as [|c r IH]; intros s H; [by destruct s|].
  destruct s as [|x s]; [discriminate|]. cbn in H. injection H as -> H.
  cbn. rewrite Ascii.eqb_refl. by apply IH.
Qed.

Lemma take_app_length a b : take (String.length a) (a +:+ b) = a.
Proof.
  induction a as [|c r IH]; [by destruct b|]. rewrite app_cons. cbn. by rewrite IH.
Qed.

Lemma take_len_app a b : take (Z.to_nat (len a)) (a +:+ b) = a.
Proof. unfold len. rewrite Nat2Z.id. apply take_app_length. Qed.

Lemma take_take_app n s rest :
  (n <= String.length s)%nat -> take n (take n s +:+ rest) = take n s.
Proof.
  revert s. induction n as [|n IH]; intros s H; [reflexivity|].
  destruct s as [|c r]; [cbn in H; lia|]. cbn in H.
  cbn [take]. rewrite app_cons. cbn [take]. f_equal. apply IH. lia.
Qed.

Lemma TrimSuffix_app base suf : TrimSuffix (base +:+ suf) suf = base.
Proof.
  unfold TrimSuffix. rewrite HasSuffix_app, length_append.
  replace (String.length base + String.length suf - String.length suf)%nat
    with (String.length base) by lia.
  apply take_app_length.
Qed.


(** *** Lower case *)

Lemma lowerByte_idem c : lowerByte (lowerByte c) = lowerByte c.
Proof. destruct c as [[] [] [] [] [] [] [] []]; reflexivity. Qed.

Lemma ToLower_idem s : ToLower (ToLower s) = ToLower s.
Proof. induction s as [|c r IH]; cbn; [done|]. by rewrite lowerByte_idem, IH. Qed.

(** *** [filepath.Ext] *)

Lemma plain_rev_app p acc :
  plain p = true -> plain acc = true -> plain (String.rev_app p acc) = true.
Proof.
  revert acc. induction p as [|c r IH]; intros acc Hp Ha; [done|].
  cbn in Hp. apply andb_prop in Hp as [Hc Hr]. cbn. apply IH; [done|]. cbn. by rewrite Hc.
Qed.

Lemma plain_rev p : plain p = true -> plain (String.rev p) = true.
Proof. intros. by apply plain_rev_app. Qed.

Lemma extGo_plain p X acc :
  plain p = true ->
  extGo (p +:+ String "." X) acc = String "." (String.rev_app p acc).
Proof.
  revert acc. induction p as [|c r IH]; intros acc Hp; [reflexivity|].
  cbn in Hp. apply andb_prop in Hp as [Hc Hr].
  unfold plainByte in Hc. apply andb_prop in Hc as [H1 H2].
  rewrite app_cons. cbn [extGo String.rev_app].
  apply negb_true_iff in H1, H2. rewrite H2, H1. by apply IH.
Qed.

(** The extension of a name that ends in a dot and a plain word is that
    ending. *)
Lemma Ext_dot base e : plain e = true -> Ext (base +:+ String "." e) = String "." e.
Proof.
  intros He. unfold Ext. rewrite rev_app.
  change (String "." e) with (String "." "" +:+ e). rewrite rev_app.
  rewrite append_assoc. cbn [String.rev String.rev_app]. rewrite app_cons.
  change ("" +:+ String.rev base) with (String.rev base).
  rewrite extGo_plain by by apply plain_rev.
  f_equal. change (String.rev_app (String.rev e) "") with (String.rev (String.rev e)).
  apply rev_involutive.
Qed.

Lemma extGo_cases r acc :
  extGo r acc = ""
  \/ exists p X, r = p +:+ String "." X /\ plain p = true
                 /\ extGo r acc = String "." (String.rev_app p acc).
Proof.
  revert acc. induction r as [|c r IH]; intros acc; [by left|].
  cbn [extGo]. destruct (Ascii.eqb c "/") eqn:E1; [by left|].
  destruct (Ascii.eqb c ".") eqn:E2.
  - apply Ascii.eqb_eq in E2 as ->. right. exists "", r. done.
  - destruct (IH (String c acc)) as [H|(p & X & -> & Hp & H)]; [by left|].
    right. exists (String c p), X. rewrite app_cons. split; [done|]. split; [|done].
    cbn. unfold plainByte. by rewrite E1, E2, Hp.
Qed.

(** The extension of a path is a suffix of it. *)
Lemma Ext_suffix path : exists base, path = base +:+ Ext path.
Proof.
  unfold Ext. destruct (extGo_cases (String.rev path) "") as [->|(p & X & Hr & Hp & ->)].
  - exists path. by rewrite append_empty.
  - exists (String.rev X).
    rewrite <- (rev_involutive path) at 1. rewrite Hr, rev_app.
    change (String "." X) with (String "." "" +:+ X). rewrite rev_app.
    rewrite append_assoc. reflexivity.
Qed.

(** *** [strings.LastIndex] of a dot *)

Lemma lastIndexFrom_plain e i found :
  plain e = true -> lastIndexFrom e "." i found = found.
Proof.
  revert i. induction e as [|c r IH]; intros i H; [reflexivity|].
  cbn in H. apply andb_prop in H as [Hc Hr]. unfold plainByte in Hc.
  apply andb_prop in Hc as [H1 _]. apply negb_true_iff in H1.
  cbn [lastIndexFrom HasPrefix]. rewrite Ascii.eqb_sym, H1. cbn [andb]. by apply IH.
Qed.

Lemma lastIndexFrom_dot a e i found :
  plain e = true -> lastIndexFrom (a +:+ String "." e) "." i found = i + len a.
Proof.
  intros He. revert i found. induction a as [|c r IH]; intros i found.
  - change ("" +:+ String "." e) with (String "." e).
    cbn [lastIndexFrom HasPrefix]. rewrite Ascii.eqb_refl, HasPrefix_nil. cbn [andb].
    rewrite lastIndexFrom_plain by done. unfold len. cbn. lia.
  - rewrite app_cons. cbn [lastIndexFrom]. rewrite IH. unfold len. cbn [String.length]. lia.
Qed.

Lemma LastIndex_dot a e : plain e = true -> LastIndex (a +:+ String "." e) "." = len a.
Proof. intros. unfold LastIndex. by rewrite lastIndexFrom_dot. Qed.

Lemma LastIndex_plain s : plain s = true -> LastIndex s "." = -1.
Proof. intros. unfold LastIndex. by apply lastIndexFrom_plain. Qed.

(** *** Printed numbers *)

Lemma itoa_inj a b : itoa a = itoa b -> a = b.
Proof.
  unfold itoa. intros H. apply DecimalZ.to_int_inj.
  assert (Hn : forall z, Z.to_int z <> Decimal.Pos Decimal.Nil
                         /\ Z.to_int z <> Decimal.Neg Decimal.Nil).
  { intros [|p|p]; cbn; split; try discriminate;
      intros [= E]; by apply DecimalPos.Unsigned.to_uint_nonnil in E. }
  pose proof (NilZero.isi (Z.to_int a) (proj1 (Hn a)) (proj2 (Hn a))) as Ha.
  pose proof (NilZero.isi (Z.to_int b) (proj1 (Hn b)) (proj2 (Hn b))) as Hb.
  rewrite H in Ha. congruence.
Qed.

(** A printed number ends where the first underscore stands. *)
Lemma numeric_split a b x y :
  DownloaderSpec.numeric a = true -> DownloaderSpec.numeric b = true ->
  a +:+ String "_" x = b +:+ String "_" y -> a = b /\ x = y.
Proof.
  revert b. induction a as [|c r IH]; intros b Ha Hb H.
  - destruct b as [|d b]; [by injection H|].
    rewrite app_cons in H. injection H as <- _. cbn in Hb. discriminate.
  - destruct b as [|d b].
    + rewrite app_cons in H. injection H as -> _. cbn in Ha. discriminate.
    + rewrite !app_cons in H. injection H as -> H.
      cbn in Ha, Hb. apply andb_prop in Ha as [_ Ha]. apply andb_prop in Hb as [_ Hb].
      destruct (IH b Ha Hb H) as [-> ->]. done.
Qed.

(** *** Hexadecimal text *)

Lemma hexDigit_hex c :
  hexByte (hexDigit (N_of_ascii c / 16)) = true
  /\ hexByte (hexDigit (N_of_ascii c mod 16)) = true
  /\ ascii_of_N (hexVal (hexDigit (N_of_ascii c / 16)) * 16
                 + hexVal (hexDigit (N_of_ascii c mod 16))) = c.
Proof. destruct c as [[] [] [] [] [] [] [] []]; vm_compute; done. Qed.

Lemma hexEncode_length bs : String.length (hexEncode bs) = (2 * String.length bs)%nat.
Proof. induction bs as [|c r IH]; cbn [hexEncode String.length]; lia. Qed.

Lemma hexEncode_isHex bs : isHex (hexEncode bs) = true.
Proof.
  induction bs as [|c r IH]; [reflexivity|].
  destruct (hexDigit_hex c) as (H1 & H2 & _).
  cbn [hexEncode isHex]. by rewrite H1, H2, IH.
Qed.


Lemma fill_length n bs : String.length (fill n bs) = n.
Proof.
  unfold fill. rewrite take_length, length_append.
  assert (String.length (zeros n) = n) by (induction n; cbn; lia). lia.
Qed.

End TextFacts.

(** ** URLs, formats and content types *)

Module UrlFacts.
Import GoStr GoStrFacts GoErr Rt TextSpec TextFacts HandlersSpec.

Ltac decide_bytes :=
  repeat match goal with
         | |- context [Ascii.eqb ?a ?c] =>
             is_var c; destruct (Ascii.eqb_spec a c) as [<-|?]; cbn -[Ascii.eqb]
         end.

Ltac split_string r :=
  destruct r as [|?c0 r]; cbn -[Ascii.eqb];
  [|destruct r as [|?c1 r]; cbn -[Ascii.eqb];
    [|destruct r as [|?c2 r]; cbn -[Ascii.eqb];
      [|destruct r as [|?c3 r]; cbn -[Ascii.eqb];
        [|destruct r as [|?c4 r]; cbn -[Ascii.eqb]]]]].

(** X5. The downloader and the handler agree on what a video URL is: the
    downloader's signature check applies to exactly the URLs the handler
    classes as video. *)
Theorem isVideoURL_iff_video url :
  Downloader.isVideoURL url = true
  <-> fst (Handlers.detectMediaTypeAndFormatFromURL url) = "video".
Proof.
  unfold Downloader.isVideoURL, Handlers.detectMediaTypeAndFormatFromURL, HasSuffix.
  generalize (String.rev (ToLower url)). intros r. cbn -[Ascii.eqb].
  split_string r; decide_bytes; rewrite ?HasPrefix_nil in *; cbn;
    split; intros H; try reflexivity; try discriminate H.
Qed.

(** The detector returns the empty pair or a pair of its table, whose format
    is the extension the lower-cased URL ends with ([jpg] also for
    [.jpeg]). *)
Lemma detect_cases url :
  let r := Handlers.detectMediaTypeAndFormatFromURL url in
  r = ("", "")
  \/ (In r detected
      /\ (HasSuffix (ToLower url) ("." +:+ snd r) = true
          \/ (snd r = "jpg" /\ HasSuffix (ToLower url) ".jpeg" = true))).
Proof.
  cbn zeta. unfold Handlers.detectMediaTypeAndFormatFromURL.
  repeat match goal with
         | |- context [if ?b || ?c then _ else _] =>
             destruct b eqn:?; [cbn [orb]|cbn [orb]; destruct c eqn:?]
         | |- context [if ?b then _ else _] => destruct b eqn:?
         end;
  try (left; reflexivity);
  right; (split; [cbn; tauto|]); cbn [snd]; try (left; assumption); right; by split.
Qed.

Lemma detected_cases url mediaType inputFormat :
  Handlers.detectMediaTypeAndFormatFromURL url = (mediaType, inputFormat) ->
  mediaType <> "" ->
  In (mediaType, inputFormat) detected.
Proof.
  intros Hd Hne. destruct (detect_cases url) as [E|[Hin _]]; cbn zeta in *; rewrite Hd in *.
  - by injection E as -> ->.
  - exact Hin.
Qed.

Lemma detected_extension url mediaType inputFormat :
  Handlers.detectMediaTypeAndFormatFromURL url = (mediaType, inputFormat) ->
  mediaType <> "" ->
  Storage.getExtensionForFormat inputFormat = String "." inputFormat
  /\ plain inputFormat = true.
Proof.
  intros Hd Hne. pose proof (detected_cases _ _ _ Hd Hne) as Hin.
  unfold detected in Hin. cbn [In] in Hin.
  repeat destruct Hin as [[= <- <-]|Hin]; try done.
Qed.

Lemma contentType_detected mediaType inputFormat base :
  In (mediaType, inputFormat) detected ->
  HasPrefix (Handlers.getContentTypeFromPath
               (base +:+ Storage.getExtensionForFormat inputFormat))
            (mediaType +:+ "/") = true.
Proof.
  unfold detected. cbn [In]. intros Hin.
  repeat destruct Hin as [[= <- <-]|Hin]; try done;
    unfold Handlers.getContentTypeFromPath;
    match goal with
    | |- context [Storage.getExtensionForFormat ?f] =>
        let v := eval vm_compute in (Storage.getExtensionForFormat f) in
        change (Storage.getExtensionForFormat f) with v
    end;
    rewrite Ext_dot by reflexivity; reflexivity.
Qed.

(** X6. A file named with the extension of the format detected from a URL
    is served with a content type of the media type detected from that URL:
    [audio/...] for audio, [image/...] for images, [video/...] for video. *)
Theorem content_type_follows_media_type url base :
  let r := Handlers.detectMediaTypeAndFormatFromURL url in
  fst r <> "" ->
  HasPrefix
    (Handlers.getContentTypeFromPath (base +:+ Storage.getExtensionForFormat (snd r)))
    (fst r +:+ "/") = true.
Proof.
  cbn zeta. intros Hne.
  destruct (Handlers.detectMediaTypeAndFormatFromURL url) as [mediaType inputFormat] eqn:Hd.
  cbn [fst snd] in *.
  apply contentType_detected. by eapply detected_cases.
Qed.

(** X7. The content type read off a path that carries the default extension
    of a media type is the default content type of that media type, the
    fallback [.bin] / [application/octet-stream] included. *)
Theorem default_extension_content_type mediaType base :
  Handlers.getContentTypeFromPath (base +:+ Storage.GetFileExtension mediaType)
  = Handlers.getContentType mediaType.
Proof.
  unfold Storage.GetFileExtension, Handlers.getContentType, Handlers.getContentTypeFromPath.
  repeat match goal with
         | |- context [if String.eqb mediaType ?x then _ else _] =>
             destruct (String.eqb mediaType x)
         end; rewrite Ext_dot by reflexivity; reflexivity.
Qed.

(** X8. [getExtensionForFormat] normalises: its result starts with a dot, is
    in lower case, and is a fixed point of the function. *)
Theorem getExtensionForFormat_normalises format :
  let ext := Storage.getExtensionForFormat format in
  HasPrefix ext "." = true
  /\ ToLower ext = ext
  /\ Storage.getExtensionForFormat ext = ext.
Proof.
  cbn zeta. unfold Storage.getExtensionForFormat.
  destruct (HasPrefix (ToLower format) ".") eqn:E; cbn [negb].
  - rewrite !ToLower_idem, E. cbn [negb]. done.
  - assert (H : ToLower ("." +:+ ToLower format) = "." +:+ ToLower format).
    { change ("." +:+ ToLower format) with (String "." (ToLower format)).
      cbn [ToLower]. rewrite ToLower_idem. reflexivity. }
    rewrite H. change ("." +:+ ToLower format) with (String "." (ToLower format)).
    cbn. by rewrite HasPrefix_nil.
Qed.

(** X9. A URL truncated for the log has at most 60 bytes and keeps the first
    57 bytes of the URL; a URL of at most 60 bytes is logged unchanged;
    truncating twice changes nothing more; and the two copies of the
    function, in the downloader and in the handlers, agree. *)
Theorem truncateURL_bounded url :
  let t := Downloader.truncateURL url in
  len t <= 60
  /\ take 57 t = take 57 url
  /\ (len url <= 60 -> t = url)
  /\ Downloader.truncateURL t = t
  /\ Handlers.truncateURL url = t.
Proof.
  cbn zeta. unfold Downloader.truncateURL, Handlers.truncateURL.
  destruct (60 <? len url) eqn:E.
  - apply Z.ltb_lt in E.
    assert (Hl : len (take 57 url +:+ "...") = 60).
    { unfold len in *. rewrite length_append, take_length. cbn [String.length]. lia. }
    rewrite Hl. change (60 <? 60) with false. cbv iota.
    split; [lia|]. split; [apply take_take_app; unfold len in E; lia|].
    split; [lia|]. split; reflexivity.
  - rewrite E. apply Z.ltb_ge in E. repeat split; try lia; done.
Qed.

(** X27. For every URL the detector classes as audio, the container the
    script conversion asks the transcoder for is the detected format ([m4a]
    for [aac]), and the default branch of the codec switch is not taken. *)
Theorem audio_container_follows_detected_format url inputFormat :
  Handlers.detectMediaTypeAndFormatFromURL url = ("audio", inputFormat) ->
  let '(codec, container, extraArgs) := Services.audioCodec inputFormat in
  (container = inputFormat \/ (inputFormat = "aac" /\ container = "m4a"))
  /\ (codec, container, extraArgs) <> ("libopus", "opus", ["-vbr"; "on"]).
Proof.
  intros Hd. pose proof (detected_cases _ _ _ Hd ltac:(done)) as Hin.
  unfold detected in Hin. cbn [In] in Hin.
  repeat destruct Hin as [[= <-]|Hin]; try done; cbn; (split; [tauto|discriminate]).
Qed.

End UrlFacts.

(** ** The downloader: sizes and signatures *)

Module TransferFacts.
Import GoStr GoStrFacts GoErr Rt Downloader DownloaderSpec DownloaderFacts TextFacts.

Section Facts.
Context `{L : GoLib} (env : Env).

(** What an attempt takes from the body it reads, and the size of what it
    returns. *)
Lemma readBody_bytes d url k resp (w : World) :
  0 <= maxSize d + 1 ->
  ContentLength resp <= maxSize d ->
  let r := readBody env d url k resp w in
  netRead w <= netRead (snd r) <= netRead w + (maxSize d + 1)
  /\ (forall data, fst r = Ok data -> len data <= maxSize d).
Proof.
  intros Hm Hc. cbn zeta. unfold readBody.
  destruct (0 <? ContentLength resp) eqn:E0.
  - apply Z.ltb_lt in E0.
    destruct (ContentLength resp <=? allocatedSrc env k).
    + pose proof (ReadFull_spec (Body resp) (ContentLength resp) E0) as H.
      destruct (ReadFull (Body resp) (Z.to_nat (ContentLength resp))) as [buf err].
      destruct H as (Hl & _ & _). pose proof (len_nonneg (avail (Body resp))).
      destruct err as [e|].
      * destruct (isSentinelEOF e); cbn; (split; [lia|done]).
      * destruct (len buf =? ContentLength resp) eqn:En; cbn; (split; [lia|]); [|done].
        intros data [= <-]. lia.
    + pose proof (ReadAllLimited_spec (Body resp) (maxSize d + 1) Hm) as H.
      destruct (ReadAllLimited (Body resp) (maxSize d + 1)) as [data err].
      destruct H as (Hl & _ & _). pose proof (len_nonneg (avail (Body resp))).
      destruct err as [e|]; [cbn; split; [lia|done]|].
      destruct (len data =? ContentLength resp) eqn:En; cbn [negb];
        [|cbn; split; [lia|done]].
      destruct (maxSize d <? len data) eqn:Em; cbn; (split; [lia|]); [done|].
      intros data' [= <-]. lia.
  - pose proof (ReadAllLimited_spec (Body resp) (maxSize d + 1) Hm) as H.
    destruct (ReadAllLimited (Body resp) (maxSize d + 1)) as [data err].
    destruct H as (Hl & _ & _). pose proof (len_nonneg (avail (Body resp))).
    destruct err as [e|]; [cbn; split; [lia|done]|].
    destruct (maxSize d <? len data) eqn:Em; cbn; (split; [lia|]); [done|].
    intros data' [= <-]. lia.
Qed.

Lemma downloadWithValidation_bytes d url a (w : World) :
  0 <= maxSize d + 1 ->
  let r := downloadWithValidation env d url a w in
  netRead w <= netRead (snd r) <= netRead w + (maxSize d + 1)
  /\ (forall data, fst r = Ok data -> 100 <= len data <= maxSize d).
Proof.
  intros Hm. cbn zeta. unfold downloadWithValidation.
  destruct (httpSrc env url (httpCalls w)) as [e|e|resp]; [cbn; split; [lia|done]..|].
  destruct (negb (StatusCode resp =? 200)); [cbn; split; [lia|done]|].
  destruct (maxSize d <? ContentLength resp) eqn:Ec; [cbn; split; [lia|done]|].
  apply Z.ltb_ge in Ec.
  match goal with |- context [readBody env d url ?k resp ?w0] =>
    pose proof (readBody_bytes d url k resp w0 Hm Ec) as [Hr Hd];
    destruct (readBody env d url k resp w0) as [[data|e] w1] end;
    cbn [fst snd] in *; [|cbn in Hr; split; [lia|done]].
  cbn [netRead logf set_log set_httpCalls] in Hr.
  specialize (Hd data eq_refl).
  destruct (len data =? 0); [cbn; split; [lia|done]|].
  destruct (len data <? 100) eqn:E100; [cbn; split; [lia|done]|].
  apply Z.ltb_ge in E100.
  destruct (if (0 <? ContentLength resp) && isVideoURL url
            then validateVideoData data else None);
    cbn; (split; [lia|]); [done|].
  intros data' [= <-]. lia.
Qed.

Lemma retryLoop_bytes d url attempts lastErr (w : World) :
  0 <= maxSize d + 1 ->
  let r := retryLoop env d url attempts lastErr w in
  netRead w <= netRead (snd r)
    <= netRead w + Z.of_nat (length attempts) * (maxSize d + 1)
  /\ (forall data, fst r = Ok data -> 100 <= len data <= maxSize d).
Proof.
  intros Hm. revert lastErr w. induction attempts as [|a rest IH]; intros lastErr w.
  - cbn. split; [lia|done].
  - cbn zeta. cbn [retryLoop].
    pose proof (downloadWithValidation_bytes d url a w Hm) as [Hr Hd]. cbn zeta in *.
    destruct (downloadWithValidation env d url a w) as [[data|err] w1]; cbn [fst snd] in *.
    + split; [|exact Hd]. cbn [length]. rewrite Nat2Z.inj_succ. nia.
    + destruct (negb (isRetryableError (Some err))).
      * cbn. split; [|done]. cbn [length]. rewrite Nat2Z.inj_succ. nia.
      * match goal with |- context [retryLoop env d url rest _ ?w2] =>
          specialize (IH (Some err) w2); cbn zeta in IH;
          assert (Hn : netRead w2 = netRead w1) by (by destruct (a <? 3))
        end.
        rewrite Hn in IH. destruct IH as [I1 I2]. split; [|exact I2].
        cbn [length]. rewrite Nat2Z.inj_succ. nia.
Qed.

(** X1. A payload that [Download] returns has at least 100 bytes and at most
    the maximum size of the downloader, whichever attempt delivered it and
    whether or not the remote declared a length. *)
Theorem Download_payload_size d url (w w' : World) data :
  Download env d url w = (Ok data, w') ->
  0 < maxSize d ->
  100 <= len data <= maxSize d.
Proof.
  intros H Hm. unfold Download in H.
  destruct (String.eqb url ""); [discriminate|].
  destruct (negb (HasPrefix url "http://") && negb (HasPrefix url "https://"));
    [discriminate|].
  pose proof (retryLoop_bytes d url [1; 2; 3] None w ltac:(lia)) as [_ Hd].
  cbn zeta in Hd. rewrite H in Hd. by apply Hd.
Qed.

(** X2. A download takes at most three times the maximum size plus one byte
    from the network, over all its attempts, however much the remote is
    willing to send; a URL that is rejected takes nothing. *)
Theorem Download_network_reads_bounded d url (w : World) :
  0 < maxSize d ->
  let w' := snd (Download env d url w) in
  netRead w <= netRead w' <= netRead w + 3 * (maxSize d + 1)
  /\ (validURL url = false -> netRead w' = netRead w).
Proof.
  intros Hm. cbn zeta. split.
  - unfold Download.
    destruct (String.eqb url ""); [cbn; lia|].
    destruct (negb (HasPrefix url "http://") && negb (HasPrefix url "https://"));
      [cbn; lia|].
    pose proof (retryLoop_bytes d url [1; 2; 3] None w ltac:(lia)) as [Hr _].
    cbn zeta in Hr. cbn [length] in Hr. lia.
  - intros Hv. by destruct (Download_invalid env d url w Hv) as [-> _].
Qed.

(** A download leaves everything but the request counter, the bytes read,
    the clock and the log alone. *)
Lemma Download_sameProcess d url (w : World) :
  sameProcess w (snd (Download env d url w)).
Proof.
  destruct (validURL url) eqn:Hv.
  - by destruct (Download_verdict env d url w Hv) as (_ & _ & _ & H).
  - destruct (Download_invalid env d url w Hv) as [-> _]. apply sameProcess_refl.
Qed.

End Facts.

Import Services.

Lemma hasAt_Contains data sig i : hasAt data sig i = true -> Contains data sig = true.
Proof.
  unfold hasAt. revert data. induction i as [|i IH]; intros data H.
  - destruct data; cbn in *; by rewrite H.
  - destruct data as [|c r]; [cbn in *; by rewrite H|].
    cbn [drop] in H. cbn [Contains]. rewrite (IH _ H). apply orb_true_r.
Qed.

(** X4. [validateMP4Integrity] accepts only data of at least 32 bytes that
    contains the [ftyp] signature and one of the [mdat] and [moov]
    signatures. *)
Theorem validateMP4Integrity_accepts_only_boxed_data data :
  validateMP4Integrity data = None ->
  32 <= len data
  /\ Contains data "ftyp" = true
  /\ (Contains data "mdat" = true \/ Contains data "moov" = true).
Proof.
  unfold validateMP4Integrity.
  destruct (len data <? 32) eqn:El; [discriminate|]. apply Z.ltb_ge in El.
  destruct (existsb (hasAt data "ftyp") _) eqn:Ef; [|discriminate]. cbn [negb].
  destruct (existsb _ (seq 0 (String.length data - 8))) eqn:Em; [|discriminate].
  intros _. split; [exact El|]. split.
  - apply existsb_exists in Ef as (i & _ & Hi). by eapply hasAt_Contains.
  - apply existsb_exists in Em as (i & _ & Hi). apply orb_prop in Hi as [Hi|Hi];
      [left|right]; by eapply hasAt_Contains.
Qed.

(** X3. Data of at least 100 bytes (the least the downloader returns) that
    passed the downloader's video check passes the [ftyp] part of the video
    converter's integrity check: the converter accepts it, or rejects it for
    the missing [mdat]/[moov] box and for no other reason. *)
Theorem download_video_check_implies_ftyp_check data :
  100 <= len data ->
  validateVideoData data = None ->
  validateMP4Integrity data = None
  \/ validateMP4Integrity data
     = Some (New "missing mdat/moov box - file may be truncated or corrupted").
Proof.
  intros Hl. unfold validateVideoData, validateMP4Integrity.
  destruct (len data <? 32) eqn:E32; [apply Z.ltb_lt in E32; lia|].
  destruct (12 <=? len data) eqn:E12; [|apply Z.leb_gt in E12; lia].
  destruct (existsb _ (seq 0 32)) eqn:Ef; [|discriminate]. intros _.
  apply existsb_exists in Ef as (i & Hi & Hf).
  apply in_seq in Hi. apply andb_prop in Hf as [_ Hf]. apply String.eqb_eq in Hf.
  assert (Hft : existsb (hasAt data "ftyp")
                  (seq 0 (Nat.min 256 (String.length data) - 8)) = true).
  { apply existsb_exists. exists i. split.
    - apply in_seq. unfold len in Hl. lia.
    - unfold hasAt. by apply take_HasPrefix. }
  rewrite Hft. cbn [negb].
  destruct (existsb _ (seq 0 (String.length data - 8))); cbn [negb]; [by left|by right].
Qed.

End TransferFacts.

(** ** Nonces, ids and temporary names *)

Module NamingFacts.
Import GoStr GoStrFacts GoErr Rt Services Storage TextSpec TextFacts HandlersSpec.

Section Facts.
Context `{L : GoLib} (env : Env).

(** X10. The nonce string determines the nonce: it is the printed timestamp,
    an underscore and the hex text of the random bytes, two nonces with the
    same string have the same timestamp and the same random part, and two
    operations that read different clocks get different nonce strings
    whatever their random bytes are. *)
Theorem nonce_string_determines_nonce (w1 w2 : World) :
  let n1 := fst (GenerateNonce env w1) in
  let n2 := fst (GenerateNonce env w2) in
  (Nonce n1 = Nonce n2 -> n1 = n2)
  /\ (time w1 <> time w2 -> Nonce n1 <> Nonce n2)
  /\ Nonce n1 = itoa (time w1) +:+ "_" +:+ Random n1.
Proof.
  cbn zeta.
  assert (Hshape : forall w : World,
            let n := fst (GenerateNonce env w) in
            Timestamp n = time w /\ Nonce n = itoa (time w) +:+ String "_" (Random n)).
  { intros w. unfold GenerateNonce, cryptoRead.
    destruct (entropySrc env (entropyReads w)); cbn; [done|].
    destruct (ReadN 16 (global w)); done. }
  pose proof (Hshape w1) as [T1 N1]. pose proof (Hshape w2) as [T2 N2]. cbn zeta in *.
  assert (Hinj : Nonce (fst (GenerateNonce env w1)) = Nonce (fst (GenerateNonce env w2)) ->
                 time w1 = time w2
                 /\ Random (fst (GenerateNonce env w1)) = Random (fst (GenerateNonce env w2))).
  { rewrite N1, N2. intros H.
    apply numeric_split in H as [H1 H2]; try apply itoa_numeric.
    split; [by apply itoa_inj|done]. }
  split; [|split].
  - intros H. destruct (Hinj H) as [Ht Hr].
    destruct (fst (GenerateNonce env w1)), (fst (GenerateNonce env w2)); cbn in *. congruence.
  - intros Hne H. by destruct (Hinj H).
  - exact N1.
Qed.

Lemma generateID_eq (w : World) :
  generateID env w = (idAt env (entropyReads w), set_entropyReads (S (entropyReads w)) w).
Proof.
  unfold generateID, cryptoRead, idAt.
  by destruct (entropySrc env (entropyReads w)).
Qed.

Lemma idAt_hex k : String.length (idAt env k) = 32%nat /\ isHex (idAt env k) = true.
Proof.
  unfold idAt. rewrite hexEncode_length, hexEncode_isHex. split; [|done].
  destruct (entropySrc env k); [by rewrite fill_length|reflexivity].
Qed.

Lemma GenerateTempPath_eq mediaType (w : World) :
  GenerateTempPath env mediaType w
  = (baseDir (store w) +:+ "/" +:+ take 12 (idAt env (entropyReads w))
     +:+ GetFileExtension mediaType,
     set_entropyReads (S (entropyReads w)) w).
Proof. unfold GenerateTempPath. rewrite generateID_eq. reflexivity. Qed.

Lemma GenerateTempPathWithFormat_eq mediaType format (w : World) :
  GenerateTempPathWithFormat env mediaType format w
  = (baseDir (store w) +:+ "/" +:+ take 12 (idAt env (entropyReads w))
     +:+ getExtensionForFormat format,
     set_entropyReads (S (entropyReads w)) w).
Proof. unfold GenerateTempPathWithFormat. rewrite generateID_eq. reflexivity. Qed.

Lemma Store_id filePath originalPath mediaType (w w1 : World) id :
  Store env filePath originalPath mediaType w = (Ok id, w1) ->
  id = idAt env (entropyReads w).
Proof.
  unfold Store. rewrite generateID_eq.
  destruct (Stat filePath _); [|discriminate]. by intros [= <- _].
Qed.


End Facts.
End NamingFacts.

(** ** The converters: parameters, files and statistics *)

Module ConversionFacts.
Import GoStr GoStrFacts GoErr Rt Services ServicesSpec ServicesFacts TextSpec TextFacts.
Import Int64 Int64Facts.

Section Facts.
Context `{L : GoLib} (env : Env).

Lemma cropFrom_range c ts :
  0 <= c < 2 -> 0 <= ts -> cropFrom c ts = 1 \/ cropFrom c ts = 2.
Proof.
  intros Hc Hts. unfold cropFrom.
  pose proof (Z.rem_bound_pos ts 3 Hts ltac:(lia)).
  pose proof (Z.rem_bound_pos (1 + c + Z.rem ts 3) 3 ltac:(lia) ltac:(lia)).
  destruct (Z.rem (1 + c + Z.rem ts 3) 3 =? 0) eqn:E; [by left|].
  apply Z.eqb_neq in E. lia.
Qed.

Lemma GenerateNonce_Timestamp (w : World) : Timestamp (fst (GenerateNonce env w)) = time w.
Proof.
  unfold GenerateNonce, cryptoRead.
  destruct (entropySrc env (entropyReads w)); cbn; [done|].
  by destruct (ReadN 16 (global w)).
Qed.

(** X12. With a generator whose [Intn n] draws from [0, n) and a clock that
    is not before the epoch, every run of the transcoder by a script
    conversion has its integer parameters in the documented ranges: an
    audio delay of 1 to 50 ms, a crop of 1 or 2 pixels, a box at 0 or 1. *)
Theorem script_parameters_in_documented_ranges
    mediaType inputFormat inputData outputPath convert (w : World) :
  (forall n r, 0 < n -> 0 <= fst (Intn n r) < n) ->
  0 <= time w ->
  Handlers.converterFor env mediaType inputFormat inputData outputPath = Some convert ->
  Forall documentedRange (emitted w (snd (convert w))).
Proof.
  intros HI Ht Hc. unfold Handlers.converterFor in Hc.
  pose proof (GenerateNonce_Timestamp w) as HT.
  destruct (String.eqb mediaType "audio").
  { injection Hc as <-.
    destruct (audio_script_run env inputData outputPath inputFormat w)
      as (_ & [(-> & _)|(-> & _)]); constructor; [|constructor].
    unfold audioJob, documentedRange. rewrite HT.
    pose proof (HI 50 (NewSource (GetSeedForRand (fst (GenerateNonce env w)))) ltac:(lia)).
    pose proof (Z.rem_bound_pos (time w) 10 Ht ltac:(lia)). lia. }
  destruct (String.eqb mediaType "image").
  { injection Hc as <-.
    destruct (image_script_run env inputData outputPath w)
      as (_ & [(-> & _)|(-> & _)]); constructor; [|constructor].
    unfold imageJob, documentedRange. rewrite HT.
    apply cropFrom_range; [|done]. apply HI. lia. }
  destruct (String.eqb mediaType "video"); [|discriminate].
  injection Hc as <-.
  destruct (video_script_run env inputData outputPath w)
    as (_ & [(-> & _)|(-> & _)]); constructor; [|constructor].
  unfold videoJob, documentedRange. rewrite HT.
  split; [apply cropFrom_range; [apply HI; lia|done]|].
  pose proof (Z.rem_bound_pos (time w) 2 Ht ltac:(lia)).
  pose proof (Z.rem_bound_pos (Z.quot (time w) 10) 2
                ltac:(apply Z.quot_pos; lia) ltac:(lia)).
  lia.
Qed.

(** *** What a conversion does to the files *)











Lemma converter_time mediaType inputFormat inputData outputPath convert (w : World) :
  Handlers.converterFor env mediaType inputFormat inputData outputPath = Some convert ->
  time (snd (convert w)) = time w.
Proof.
  unfold Handlers.converterFor. intros Hc.
  destruct (String.eqb mediaType "audio").
  { injection Hc as <-.
    by destruct (audio_script_run env inputData outputPath inputFormat w) as ((Hq & _) & _). }
  destruct (String.eqb mediaType "image").
  { injection Hc as <-.
    by destruct (image_script_run env inputData outputPath w) as ((Hq & _) & _). }
  destruct (String.eqb mediaType "video"); [|discriminate].
  injection Hc as <-.
  by destruct (video_script_run env inputData outputPath w) as ((Hq & _) & _).
Qed.

End Facts.

(** X14. [adjustOutputPath] replaces the extension of a path and nothing
    else: the result is the path without its extension followed by [.png],
    [.webp] or [.jpg]; that is the extension of the result; adjusting again
    changes nothing; and the result is the path given exactly when the
    path already carries that extension. *)
Theorem adjustOutputPath_replaces_the_extension path format :
  let p := adjustOutputPath path format in
  p = TrimSuffix path (Ext path) +:+ extensionFor format
  /\ path = TrimSuffix path (Ext path) +:+ Ext path
  /\ Ext p = extensionFor format
  /\ adjustOutputPath p format = p
  /\ (p = path <-> Ext path = extensionFor format).
Proof.
  cbn zeta.
  assert (H4 : forall p', adjustOutputPath p' format
                          = TrimSuffix p' (Ext p') +:+ extensionFor format).
  { intros p'. unfold adjustOutputPath, extensionFor.
    destruct (String.eqb format "png"); [done|]. by destruct (String.eqb format "webp"). }
  destruct (Ext_suffix path) as (base & Hb).
  assert (H2 : TrimSuffix path (Ext path) = base).
  { rewrite Hb at 1. apply TrimSuffix_app. }
  assert (H3 : forall b, Ext (b +:+ extensionFor format) = extensionFor format).
  { intros b. unfold extensionFor.
    destruct (String.eqb format "png"); [by apply Ext_dot|].
    destruct (String.eqb format "webp"); by apply Ext_dot. }
  rewrite (H4 path), H2. split; [done|]. split; [done|]. split; [apply H3|]. split.
  - rewrite H4, H3, TrimSuffix_app. reflexivity.
  - split.
    + intros E. rewrite <- E at 1. apply H3.
    + intros E. rewrite Hb. by rewrite E.
Qed.

(** *** The level-based audio parameters *)

Section Levels.
Context `{L : GoLib}.

Lemma globalIntn_range n (w : World) :
  (forall n r, 0 < n -> 0 <= fst (Intn n r) < n) -> 0 < n ->
  0 <= fst (globalIntn n w) < n.
Proof.
  intros HI Hn. unfold globalIntn. specialize (HI n (global w) Hn).
  by destruct (Intn n (global w)).
Qed.

(** X26. With a generator whose [Intn n] draws from [0, n), the parameters
    of a level-based audio conversion are within the documented ranges: a
    bitrate of 68k to 76k, a compression of 7 to 10, a padding of at most
    5 ms; noise is added for the level [paranoid] only; and any level other
    than [basic], [moderate] and [paranoid] gives the fixed parameters
    72k / 10 / no padding without touching the generator. *)
Theorem audio_level_parameters_in_documented_ranges level (w : World) :
  (forall n r, 0 < n -> 0 <= fst (Intn n r) < n) ->
  let p := fst (audioGetRandomizedParams level w) in
  (exists b, 68 <= b <= 76 /\ bitrate p = itoa b +:+ "k")
  /\ 7 <= compression p <= 10
  /\ 0 <= silencePadding p <= 5
  /\ (addNoise p = true <-> level = "paranoid")
  /\ (level <> "basic" -> level <> "moderate" -> level <> "paranoid" ->
      snd (audioGetRandomizedParams level w) = w
      /\ bitrate p = "72k" /\ compression p = 10 /\ silencePadding p = 0).
Proof.
  intros HI. cbn zeta. unfold audioGetRandomizedParams.
  destruct (String.eqb_spec level "basic") as [->|Hb].
  { pose proof (globalIntn_range 5 w HI ltac:(lia)) as H1.
    destruct (globalIntn 5 w) as [b w1].
    pose proof (globalIntn_range 3 w1 HI ltac:(lia)) as H2.
    destruct (globalIntn 3 w1) as [c w2].
    pose proof (globalIntn_range 3 w2 HI ltac:(lia)) as H3.
    destruct (globalIntn 3 w2) as [s w3]. cbn in *.
    split; [exists (70 + b); split; [lia|done]|]. repeat split; try lia; try done. }
  destruct (String.eqb_spec level "moderate") as [->|Hm].
  { pose proof (globalIntn_range 5 w HI ltac:(lia)) as H1.
    destruct (globalIntn 5 w) as [b w1].
    pose proof (globalIntn_range 3 w1 HI ltac:(lia)) as H2.
    destruct (globalIntn 3 w1) as [c w2].
    pose proof (globalIntn_range 3 w2 HI ltac:(lia)) as H3.
    destruct (globalIntn 3 w2) as [s w3].
    destruct (globalIntn 20 w3) as [pp w4]. cbn in *.
    split; [exists (70 + b); split; [lia|done]|]. repeat split; try lia; try done. }
  destruct (String.eqb_spec level "paranoid") as [->|Hp].
  { pose proof (globalIntn_range 9 w HI ltac:(lia)) as H1.
    destruct (globalIntn 9 w) as [b w1].
    pose proof (globalIntn_range 4 w1 HI ltac:(lia)) as H2.
    destruct (globalIntn 4 w1) as [c w2].
    pose proof (globalIntn_range 5 w2 HI ltac:(lia)) as H3.
    destruct (globalIntn 5 w2) as [s w3].
    destruct (globalIntn 40 w3) as [pp w4].
    destruct (globalIntn 10 w4) as [nn w5]. cbn in *.
    split; [exists (68 + b); split; [lia|done]|]. repeat split; try lia; try done. }
  cbn. split; [exists 72; split; [lia|done]|]. repeat split; try lia; try done.
Qed.

End Levels.

(** *** The statistics of a converter *)

Lemma replay_invariant events lo hi s :
  0 <= lo -> lo <= hi ->
  Forall (fun d => lo <= d <= hi) (successes events) ->
  0 <= TotalConversions s -> 0 <= FailedConversions s ->
  (0 < TotalConversions s -> lo <= AvgConversionTime s <= hi) ->
  0 <= AvgConversionTime s <= hi ->
  (TotalConversions s + Z.of_nat (length events)) * (hi + 1) < half ->
  FailedConversions s + Z.of_nat (length events) < half ->
  exists s',
    replay events s = Some s'
    /\ TotalConversions s' = TotalConversions s + Z.of_nat (length (successes events))
    /\ FailedConversions s' = FailedConversions s + Z.of_nat (failures events)
    /\ (0 < TotalConversions s' -> lo <= AvgConversionTime s' <= hi)
    /\ (successes events = [] -> AvgConversionTime s' = AvgConversionTime s).
Proof.
  intros Hlo Hhi. revert s. induction events as [|[d|] rest IH];
    intros s Hall Ht Hf Ha Ha0 Hno Hnf.
  - exists s. cbn. repeat split; try lia; done.
  - cbn [successes] in Hall. apply Forall_cons in Hall as [Hd Hall].
    cbn [length] in Hno, Hnf. rewrite Nat2Z.inj_succ in Hno, Hnf.
    assert (Hh : half = 2 ^ 63) by reflexivity.
    assert (Hn1 : wrap64 (TotalConversions s + 1) = TotalConversions s + 1).
    { apply wrap64_id. unfold in_range. nia. }
    cbn [replay]. unfold recordSuccess. rewrite Hn1.
    destruct (TotalConversions s + 1 =? 0) eqn:E0; [lia|].
    replace (TotalConversions s + 1 - 1) with (TotalConversions s) by lia.
    rewrite (wrap64_id (TotalConversions s)) by (unfold in_range; nia).
    set (n := TotalConversions s) in *. set (a := AvgConversionTime s) in *.
    assert (Hprod : 0 <= a * n <= hi * n) by nia.
    rewrite (wrap64_id (a * n)) by (unfold in_range; nia).
    rewrite (wrap64_id (a * n + d)) by (unfold in_range; nia).
    assert (Hq : 0 <= Z.quot (a * n + d) (n + 1) <= hi
                 /\ lo <= Z.quot (a * n + d) (n + 1)).
    { rewrite Z.quot_div_nonneg by nia.
      split; [split|].
      - apply Z.div_pos; nia.
      - apply Z.div_le_upper_bound; nia.
      - destruct (0 <? n) eqn:En.
        + apply Z.ltb_lt in En. specialize (Ha En). apply Z.div_le_lower_bound; nia.
        + apply Z.ltb_ge in En. assert (n = 0) as -> by lia.
          rewrite Z.mul_0_r, Z.add_0_l, Z.add_0_l, Z.div_1_r. lia. }
    destruct Hq as [Hq1 Hq2].
    rewrite (wrap64_id (Z.quot _ _)) by (unfold in_range; nia).
    match goal with |- context [replay rest ?s1] =>
      destruct (IH s1) as (s' & Hr & HT & HF & HA & HE) end;
      cbn [TotalConversions FailedConversions AvgConversionTime]; try lia; try done.
    exists s'. cbn [TotalConversions FailedConversions AvgConversionTime] in *.
    split; [done|]. cbn [successes length failures].
    repeat split; try lia; try done.
  - cbn [successes] in Hall.
    cbn [length] in Hno, Hnf. rewrite Nat2Z.inj_succ in Hno, Hnf.
    cbn [replay].
    destruct (IH (recordFailure s)) as (s' & Hr & HT & HF & HA & HE);
      cbn [recordFailure TotalConversions FailedConversions AvgConversionTime];
      try lia; try done.
    { rewrite wrap64_id by (unfold in_range; lia). lia. }
    { rewrite wrap64_id by (unfold in_range; lia). lia. }
    exists s'. cbn [recordFailure TotalConversions FailedConversions AvgConversionTime] in *.
    split; [done|]. cbn [successes failures].
    rewrite wrap64_id in HF by (unfold in_range; lia).
    repeat split; try lia; try done.
Qed.

(** X18. The statistics of a converter after a run of conversions, from
    zero and short of 64-bit overflow: no division by zero occurs, the two
    counters are the numbers of successes and of failures, failures leave
    the average alone, and the running average, though each update
    truncates, stays between the least and the greatest duration
    recorded. *)
Theorem running_average_stays_in_range events lo hi :
  0 <= lo -> lo <= hi ->
  Forall (fun d => lo <= d <= hi) (successes events) ->
  Z.of_nat (length events) * (hi + 1) < half ->
  exists s,
    replay events zeroStats = Some s
    /\ TotalConversions s = Z.of_nat (length (successes events))
    /\ FailedConversions s = Z.of_nat (failures events)
    /\ (successes events <> [] -> lo <= AvgConversionTime s <= hi)
    /\ (successes events = [] -> AvgConversionTime s = 0).
Proof.
  intros Hlo Hhi Hall Hno.
  destruct (replay_invariant events lo hi zeroStats Hlo Hhi Hall)
    as (s & Hr & HT & HF & HA & HE); cbn; try lia.
  { assert (half = 2 ^ 63) by reflexivity. nia. }
  exists s. cbn in *. repeat split; try done.
  - apply HA. destruct (successes events); [done|]. cbn in *. lia.
  - apply HA. destruct (successes events); [done|]. cbn in *. lia.
Qed.

End ConversionFacts.

(** ** The store: failed stores and statistics *)

Module StoreStatsFacts.
Import GoStr GoStrFacts GoErr Rt Storage StorageSpec StorageFacts Int64 Int64Facts.

Section Facts.
Context `{L : GoLib} (env : Env).

Lemma foldl_totalSize l acc :
  wrap64 (foldl (fun acc tf => wrap64 (acc + Size tf)) acc l) = wrap64 (acc + sizeSum l).
Proof.
  revert acc. induction l as [|tf l IH]; intros acc; cbn [foldl sizeSum foldr].
  - f_equal. lia.
  - rewrite IH. fold (sizeSum l).
    pose proof (wrap64_horner (acc + Size tf) 1 (sizeSum l)) as H.
    rewrite !Z.mul_1_r in H. rewrite H. f_equal. lia.
Qed.

Lemma foldl_totalSize_range l acc :
  in_range acc -> in_range (foldl (fun acc tf => wrap64 (acc + Size tf)) acc l).
Proof.
  revert acc. induction l as [|tf l IH]; intros acc Ha; [done|].
  cbn. apply IH, wrap64_range.
Qed.

(** The accumulated total is the exact sum reduced to 64 bits. *)
Lemma totalSize_wrap l : totalSize l = wrap64 (sizeSum l).
Proof.
  unfold totalSize. rewrite <- (wrap64_id (foldl _ 0 l)).
  - by rewrite foldl_totalSize.
  - apply foldl_totalSize_range. unfold in_range, half. lia.
Qed.

Lemma sizeSum_perm l l' : l ≡ₚ l' -> sizeSum l = sizeSum l'.
Proof.
  induction 1 as [|x l l' _ IH|x y l|l1 l2 l3 _ IH1 _ IH2];
    cbn; unfold sizeSum in *; lia.
Qed.

Lemma GetStats_world (w : World) : snd (GetStats w) = w.
Proof. unfold GetStats. cbn [snd]. apply RLock_RUnlock. Qed.

Lemma size_foldr_delete (m : gmap string TempFile) (l : list (string * TempFile)) :
  NoDup l.*1 -> (forall k, k ∈ l.*1 -> is_Some (m !! k)) ->
  (size (foldr (fun e m => delete (fst e) m) m l) + length l = size m)%nat.
Proof.
  induction l as [|[k x] l IH]; intros Hnd Hin; cbn [foldr length fst]; [lia|].
  cbn in Hnd. apply NoDup_cons in Hnd as [Hk Hnd].
  rewrite map_size_delete_Some.
  - specialize (IH Hnd ltac:(intros k' Hk'; apply Hin; cbn; set_solver)).
    assert (size (foldr (fun e m => delete (fst e) m) m l) <> 0)%nat; [|lia].
    assert (Hs : is_Some (foldr (fun e m => delete (fst e) m) m l !! k)).
    { rewrite lookup_foldr_delete. case_decide; [done|]. apply Hin. cbn. set_solver. }
    destruct Hs as [y Hy]. apply map_size_non_empty_iff. intros E.
    rewrite E, lookup_empty in Hy. done.
  - rewrite lookup_foldr_delete. case_decide; [done|]. apply Hin. cbn. set_solver.
Qed.

Lemma NoDup_fst_filter (P : string * TempFile -> bool) (l : list (string * TempFile)) :
  NoDup l.*1 -> NoDup (List.filter P l).*1.
Proof.
  induction l as [|x l IH]; [done|]. cbn. intros Hnd. apply NoDup_cons in Hnd as [Hx Hnd].
  destruct (P x); [|by apply IH]. cbn. apply NoDup_cons. split; [|by apply IH].
  intros Hin. apply Hx. apply list_elem_of_fmap in Hin as (y & -> & Hy).
  apply list_elem_of_fmap. exists y. split; [done|].
  apply list_elem_of_In in Hy. apply filter_In in Hy as [Hy _]. by apply list_elem_of_In.
Qed.

(** The map a sweep leaves: the entries that had expired are deleted. *)
Lemma cleanup_files_eq (w : World) :
  files (store (cleanup env w))
  = foldr (fun e m => delete (fst e) m) (files (store w))
          (List.filter (isExpired (time w)) (map_to_list (files (store w)))).
Proof.
  apply map_eq. intros k. rewrite cleanup_files, lookup_foldr_delete.
  case_decide as Hin.
  - apply expired_elem in Hin as (tf & -> & Hexp).
    destruct (ExpiresAt tf <? time w) eqn:E; [done|lia].
  - destruct (files (store w) !! k) as [tf|] eqn:Hk; [|done].
    destruct (ExpiresAt tf <? time w) eqn:E; [|done].
    exfalso. apply Hin, expired_elem. exists tf. split; [exact Hk|lia].
Qed.

(** X16. [GetStats] reads without changing anything, and its file count is
    the number of entries in the map, expired or not: it exceeds the count
    after a sweep by the number of entries that had expired.  The total
    size does not depend on the order in which the map is walked: it is
    the exact sum of the sizes reduced to 64 bits. *)
Theorem GetStats_counts_every_entry (w : World) :
  let entries := snd <$> map_to_list (files (store w)) in
  snd (GetStats w) = w
  /\ total_files (fst (GetStats w))
     = Z.of_nat (length (expiredOf w)) + total_files (fst (GetStats (cleanup env w)))
  /\ (forall l, l ≡ₚ entries -> totalSize l = totalSize entries)
  /\ totalSize entries = wrap64 (sizeSum entries).
Proof.
  cbn zeta. split; [apply GetStats_world|]. split; [|split].
  - unfold GetStats. cbn [fst total_files RLock withStore store set_store files set_mu].
    rewrite cleanup_files_eq. unfold expiredOf. rewrite length_fmap.
    set (l := List.filter _ _).
    pose proof (size_foldr_delete (files (store w)) l) as H.
    rewrite <- H; [lia| |].
    + subst l. apply NoDup_fst_filter, (NoDup_fst_map_to_list (files (store w))).
    + intros k Hk. apply expired_elem in Hk as (tf & -> & _). done.
  - intros l Hl. rewrite !totalSize_wrap. f_equal. by apply sizeSum_perm.
  - apply totalSize_wrap.
Qed.

(** X17. Storing a file under an id that is not in the map raises the file
    count by one and the total size by the size of the file, in 64-bit
    arithmetic. *)
Theorem GetStats_after_Store filePath originalPath mediaType (w w1 : World) id :
  Store env filePath originalPath mediaType w = (Ok id, w1) ->
  files (store w) !! id = None ->
  exists content,
    fs w !! filePath = Some content
    /\ total_files (fst (GetStats w1)) = total_files (fst (GetStats w)) + 1
    /\ totalSize (snd <$> map_to_list (files (store w1)))
       = wrap64 (totalSize (snd <$> map_to_list (files (store w))) + len content).
Proof.
  intros H Hfresh.
  pose proof (Store_cases env filePath originalPath mediaType w) as (_ & _ & Hc).
  cbn zeta in Hc. rewrite H in Hc. cbn [fst snd] in Hc.
  destruct Hc as [(e & He & _)|(id' & sz & Hid & Hst & Hf & _)]; [discriminate|].
  injection Hid as <-. unfold Stat in Hst.
  destruct (fs w !! filePath) as [content|] eqn:Hfs; [|discriminate].
  injection Hst as <-. exists content. split; [done|]. split.
  - unfold GetStats. cbn [fst total_files RLock withStore store set_store files set_mu].
    rewrite Hf, map_size_insert_None by done. lia.
  - rewrite Hf, !totalSize_wrap.
    rewrite (sizeSum_perm _ _ (fmap_Permutation snd _ _
               (map_to_list_insert (files (store w)) id _ Hfresh))).
    cbn [fmap list_fmap snd sizeSum foldr storedFile Size].
    fold (sizeSum (snd <$> map_to_list (files (store w)))).
    pose proof (wrap64_horner (sizeSum (snd <$> map_to_list (files (store w)))) 1
                  (len content)) as Hh.
    rewrite !Z.mul_1_r in Hh. rewrite Hh. f_equal. lia.
Qed.

(** X15. [Store] succeeds exactly when the file to store exists.  When it
    does not, the error wraps the failed [stat], and the map, the pending
    deletions and the files are as before; the id that was minted first is
    lost, with the entropy read that produced it. *)
Theorem Store_needs_the_file filePath originalPath mediaType (w : World) :
  let r := Store env filePath originalPath mediaType w in
  (isOk (fst r) = true <-> fs w !! filePath <> None)
  /\ (fs w !! filePath = None ->
      fst r = Err (Wrap "failed to stat file: " (PathError "stat" filePath ENOENT) "")
      /\ store (snd r) = store w /\ sleepers (snd r) = sleepers w /\ fs (snd r) = fs w
      /\ entropyReads (snd r) = S (entropyReads w)).
Proof.
  cbn zeta. unfold Store, generateID, cryptoRead, Stat.
  destruct (entropySrc env (entropyReads w)) as [bs|]; cbn [fs set_entropyReads];
    destruct (fs w !! filePath) as [content|] eqn:Hf; cbn; (split; [split; done|]); done.
Qed.

End Facts.
End StoreStatsFacts.

(** ** The request pipeline: [Process] and [GetFile] *)

Module PipelineFacts.
Import GoStr GoStrFacts GoErr Rt Storage StorageSpec StorageFacts.
Import Handlers HandlersSpec HandlersFacts.
Import TextSpec TextFacts UrlFacts NamingFacts TransferFacts ConversionFacts.
Import ServicesSpec.

Section Facts.
Context `{L : GoLib} (env : Env).

(** Every pair the detection returns has a script converter. *)
Lemma detected_converter url mediaType inputFormat inputData outputPath :
  detectMediaTypeAndFormatFromURL url = (mediaType, inputFormat) ->
  mediaType <> "" ->
  converterFor env mediaType inputFormat inputData outputPath <> None.
Proof.
  intros Hd Hne. destruct (detect_cases url) as [E|[Hin _]]; cbn zeta in *; rewrite Hd in *.
  { by injection E as -> ->. }
  unfold detected in Hin. cbn [In] in Hin.
  repeat destruct Hin as [[= <- <-]|Hin]; try done.
Qed.

Lemma fileIDOf_dot id e : id <> "" -> plain e = true -> fileIDOf (id +:+ String "." e) = id.
Proof.
  intros Hid He. unfold fileIDOf. rewrite LastIndex_dot by done.
  assert (0 < len id) by (destruct id; [done|]; unfold len; cbn; lia).
  destruct (0 <? len id) eqn:E; [|lia]. apply take_len_app.
Qed.

(** [GetFile] answers from the entry of the id it derives from its
    parameter. *)
Lemma GetFile_served p (w : World) :
  p <> "" -> fst (GetFile p w) = served (fileIDOf p) w.
Proof.
  intros Hp. unfold GetFile, served, fileIDOf.
  destruct (String.eqb_spec p ""); [done|].
  set (id := if 0 <? LastIndex p "." then _ else _).
  set (w0 := logf _ w).
  pose proof (Get_result id w0) as Hg. pose proof (Get_world id w0) as Hw.
  destruct (Get id w0) as [[tf|e] w1]; cbn [fst snd] in *; subst w1;
    change (files (store w0)) with (files (store w)) in Hg;
    change (time w0) with (time w) in Hg;
    destruct (files (store w) !! id) as [tf'|]; try discriminate.
  - destruct (ExpiresAt tf' <? time w); [discriminate|]. injection Hg as <-.
    unfold Stat. change (fs (logf _ w0)) with (fs w).
    destruct (fs w !! Path tf); reflexivity.
  - destruct (ExpiresAt tf' <? time w); [reflexivity|discriminate].
  - reflexivity.
Qed.

Lemma GetFile_frame p (w : World) :
  let w' := snd (GetFile p w) in
  store w' = store w /\ fs w' = fs w /\ sleepers w' = sleepers w /\ time w' = time w
  /\ jobs w' = jobs w /\ httpCalls w' = httpCalls w /\ entropyReads w' = entropyReads w.
Proof.
  cbn zeta. unfold GetFile.
  destruct (String.eqb p ""); [done|].
  match goal with |- context [Get ?id ?w0] =>
    pose proof (Get_world id w0) as Hw; destruct (Get id w0) as [[tf|e] w1] end;
    cbn [snd] in Hw; subst w1; [|done].
  destruct (match Stat _ _ with Err e => IsNotExist e | Ok _ => false end); done.
Qed.

(** X23. [GetFile] changes neither the store nor the files.  It answers
    400 exactly for an empty parameter and otherwise 404 or a file; a file
    is sent only for an id that is in the map, has not expired and whose
    file exists on disk, with the content type of that file's
    extension. *)
Theorem GetFile_serves_only_live_files p (w : World) :
  let reply := fst (GetFile p w) in
  let w' := snd (GetFile p w) in
  (store w' = store w /\ fs w' = fs w /\ sleepers w' = sleepers w /\ time w' = time w)
  /\ (p = "" <-> reply = SendString 400 "File ID is required")
  /\ match reply with
     | SendString code _ => code = 400 \/ code = 404
     | SendFile contentType _ path =>
         exists tf,
           files (store w) !! fileIDOf p = Some tf
           /\ path = Path tf
           /\ time w <= ExpiresAt tf
           /\ fs w !! path <> None
           /\ contentType = getContentTypeFromPath path
     end.
Proof.
  cbn zeta. split.
  { pose proof (GetFile_frame p w) as H. cbn zeta in H. tauto. }
  destruct (String.eqb_spec p "") as [->|Hp].
  { cbn. split; [done|]. by left. }
  rewrite (GetFile_served p w Hp). unfold served.
  destruct (files (store w) !! fileIDOf p) as [tf|] eqn:Hf.
  2: { split; [split; [done|discriminate]|]. by right. }
  destruct (ExpiresAt tf <? time w) eqn:Ht.
  { split; [split; [done|discriminate]|]. by right. }
  apply Z.ltb_ge in Ht.
  destruct (fs w !! Path tf) eqn:Hfs.
  2: { split; [split; [done|discriminate]|]. by right. }
  split; [split; [done|discriminate]|].
  exists tf. rewrite Hfs. done.
Qed.

(** X24. The extension of the route parameter is ignored: for an id and an
    extension without dots and slashes, [id.ext] is answered like [id],
    whatever the extension says. *)
Theorem GetFile_ignores_the_extension id e (w : World) :
  id <> "" -> plain id = true -> plain e = true ->
  fst (GetFile (id +:+ "." +:+ e) w) = fst (GetFile id w)
  /\ fileIDOf (id +:+ "." +:+ e) = id.
Proof.
  intros Hid Hp He.
  assert (Hne : id +:+ "." +:+ e <> "").
  { destruct id; [done|]. rewrite app_cons. discriminate. }
  assert (H1 : fileIDOf (id +:+ "." +:+ e) = id).
  { change ("." +:+ e) with (String "." e). by apply fileIDOf_dot. }
  assert (H2 : fileIDOf id = id).
  { unfold fileIDOf. rewrite LastIndex_plain by done. reflexivity. }
  rewrite !GetFile_served by done. by rewrite H1, H2.
Qed.

(** *** The steps of a successful request *)

Lemma Process_success_inv h req (w w' : World) reply :
  Process env h req w = (reply, w') ->
  Success (body reply) = true ->
  exists r t, req = Some r /\ traces env h (Arquivo r) w t reply w'.
Proof.
  unfold Process. intros H Hs.
  destruct req as [req|]; [|by injection H as <- <-].
  destruct (String.eqb (Arquivo req) ""); [by injection H as <- <-|].
  destruct (detectMediaTypeAndFormatFromURL (Arquivo req)) as [mediaType inputFormat] eqn:Hd.
  destruct (String.eqb_spec mediaType "") as [|Hmt]; [by injection H as <- <-|].
  destruct (Downloader.Download env (downloader h) (Arquivo req) _)
    as [[inputData|err] wd] eqn:Hdl; [|by injection H as <- <-].
  destruct (GenerateTempPath env mediaType wd) as [p wp] eqn:Hp.
  destruct (WriteFile env (p +:+ ".original") inputData wp) as [[e|] ww] eqn:Hw;
    [by injection H as <- <-|].
  destruct (GenerateTempPathWithFormat env mediaType inputFormat ww) as [out wo] eqn:Ho.
  destruct (converterFor env mediaType inputFormat inputData out) as [convert|] eqn:Hc;
    [|by injection H as <- <-].
  destruct (convert _) as [[err|] wc] eqn:Hcv; [by injection H as <- <-|].
  destruct (Stat out wc) as [sz|e] eqn:Hst.
  2: { unfold Stat in Hst. destruct (fs wc !! out); [discriminate|].
       injection Hst as <-. cbn [IsNotExist] in H. by injection H as <- <-. }
  destruct (Store env out (p +:+ ".original") mediaType _) as [[fileID|e] ws] eqn:Hstore;
    [|by injection H as <- <-].
  injection H as <- <-.
  exists req,
    {| tMediaType := mediaType; tFormat := inputFormat; tData := inputData;
       tDownloaded := wd; tOriginal := p +:+ ".original"; tSaved := ww;
       tOutput := out; tNamed := wo; tConverted := wc; tFileID := fileID;
       tStored := ws |}.
  split; [done|]. unfold traces. cbn [tMediaType tFormat tData tDownloaded tOriginal
    tSaved tOutput tNamed tConverted tFileID tStored].
  repeat split; try done.
  - by exists p, wp.
  - by exists convert.
  - unfold Stat in Hst. by destruct (fs wc !! out).
Qed.

Lemma traces_frame h url (w w' : World) t reply :
  traces env h url w t reply w' ->
  tOriginal t = originalPathOf env (tMediaType t) w
  /\ tOutput t = outputPathOf env (tFormat t) w
  /\ (exists k, tFileID t = idAt env k)
  /\ sameStore w (tConverted t)
  /\ time (tConverted t) = time (tDownloaded t)
  /\ fs (tNamed t) = <[tOriginal t := tData t]> (fs w).
Proof.
  intros (Hd & Hmt & Hdl & (p & wp & Hp & Ho & Hw) & Hout & (convert & Hc & Hcv)
          & Hfs & Hst & -> & ->).
  pose proof (Download_sameProcess env (downloader h) url
                (logf (LogInfo "Downloading file...") (logf (LogInfo "Processing") w))) as Hsp.
  rewrite Hdl in Hsp. cbn [snd] in Hsp.
  destruct Hsp as (He & Hj & Hg & Hf & Hs & Hsl).
  cbn [entropyReads jobs global fs store sleepers logf set_log] in *.
  rewrite GenerateTempPath_eq in Hp. apply pair_equal_spec in Hp as [Hp1 Hp2].
  unfold WriteFile in Hw. destruct (denyWrite env (tOriginal t)); [discriminate|].
  apply pair_equal_spec in Hw as [_ Hw].
  rewrite GenerateTempPathWithFormat_eq in Hout. apply pair_equal_spec in Hout as [Hout1 Hout2].
  pose proof (converter_sameStore env _ _ _ _ convert
                (logf (LogInfo "Applying fingerprint techniques...") (tNamed t)) Hc) as Hcs.
  pose proof (converter_time env _ _ _ _ convert
                (logf (LogInfo "Applying fingerprint techniques...") (tNamed t)) Hc) as Hct.
  rewrite Hcv in Hcs, Hct. cbn [snd] in Hcs, Hct. destruct Hcs as [Hcs1 Hcs2].
  apply Store_id in Hst.
  rewrite <- Hout2, <- Hw, <- Hp2 in *.
  cbn [store sleepers time fs entropyReads set_entropyReads set_fs logf set_log] in *.
  unfold originalPathOf, outputPathOf.
  rewrite <- He, <- Hs. split; [|split; [|split; [|split; [|split]]]].
  - rewrite Ho, <- Hp1. by rewrite !append_assoc.
  - by rewrite <- Hout1.
  - by eexists.
  - split; congruence.
  - exact Hct.
  - by rewrite Hf.
Qed.

(** X19. The reply of [Process] is 200, 400 or 500, and it is 200 exactly
    when [success] is true.  A failure carries no URL, no file id and no
    media type; a success carries the media type detected from the URL and
    a URL made of the base URL, [/api/files/], the file id and the
    extension of the detected format. *)
Theorem Process_reply_shape h req (w : World) :
  let reply := fst (Process env h req w) in
  (status reply = 200 \/ status reply = 400 \/ status reply = 500)
  /\ (Success (body reply) = true <-> status reply = 200)
  /\ (Success (body reply) = false ->
      NovaURL (body reply) = "" /\ FileID (body reply) = ""
      /\ Handlers.MediaType (body reply) = "")
  /\ (Success (body reply) = true ->
      exists r, req = Some r
        /\ Message (body reply) = "arquivo modificado com sucesso!"
        /\ Handlers.MediaType (body reply)
           = fst (detectMediaTypeAndFormatFromURL (Arquivo r))
        /\ NovaURL (body reply)
           = baseURL h +:+ "/api/files/" +:+ FileID (body reply)
             +:+ getExtensionForFormat (snd (detectMediaTypeAndFormatFromURL (Arquivo r)))).
Proof.
  cbn zeta.
  assert (F : forall code msg, code = 400 \/ code = 500 ->
            let reply := failure code msg in
            (status reply = 200 \/ status reply = 400 \/ status reply = 500)
            /\ (Success (body reply) = true <-> status reply = 200)
            /\ (Success (body reply) = false ->
                NovaURL (body reply) = "" /\ FileID (body reply) = ""
                /\ Handlers.MediaType (body reply) = "")
            /\ (Success (body reply) = true ->
                exists r, req = Some r
                  /\ Message (body reply) = "arquivo modificado com sucesso!"
                  /\ Handlers.MediaType (body reply)
                     = fst (detectMediaTypeAndFormatFromURL (Arquivo r))
                  /\ NovaURL (body reply)
                     = baseURL h +:+ "/api/files/" +:+ FileID (body reply)
                       +:+ getExtensionForFormat
                             (snd (detectMediaTypeAndFormatFromURL (Arquivo r))))).
  { intros code msg Hc. cbn. split; [lia|]. split; [split; [done|lia]|]. split; done. }
  unfold Process. destruct req as [req|]; [|apply F; lia].
  destruct (String.eqb (Arquivo req) ""); [apply F; lia|].
  destruct (detectMediaTypeAndFormatFromURL (Arquivo req)) as [mediaType inputFormat] eqn:Hd.
  destruct (String.eqb mediaType ""); [apply F; lia|].
  destruct (Downloader.Download env (downloader h) (Arquivo req) _)
    as [[inputData|err] wd]; [|apply F; lia].
  destruct (GenerateTempPath env mediaType wd) as [p wp].
  destruct (WriteFile env (p +:+ ".original") inputData wp) as [[e|] ww]; [apply F; lia|].
  destruct (GenerateTempPathWithFormat env mediaType inputFormat ww) as [out wo].
  destruct (converterFor env mediaType inputFormat inputData out) as [convert|];
    [|apply F; lia].
  destruct (convert _) as [[err|] wc]; [apply F; lia|].
  destruct (match Stat out wc with Err e => IsNotExist e | Ok _ => false end);
    [apply F; lia|].
  destruct (Store env out (p +:+ ".original") mediaType _) as [[fileID|e] ws];
    [|apply F; lia].
  cbn. split; [lia|]. split; [done|]. split; [done|]. intros _. exists req. by rewrite Hd.
Qed.

(** X20. A request answered 400 has left no trace but log lines and
    network traffic: no file, no entry, no pending deletion, no entropy
    read, no transcoder run.  A request without a body, or with a URL
    whose media type is not detected, is answered 400 without any effect
    at all. *)
Theorem Process_bad_request_leaves_no_trace h req (w : World) :
  let r := Process env h req w in
  (status (fst r) = 400 -> DownloaderSpec.sameProcess w (snd r))
  /\ ((req = None
       \/ exists r0, req = Some r0
            /\ fst (detectMediaTypeAndFormatFromURL (Arquivo r0)) = "") ->
      status (fst r) = 400 /\ snd r = w).
Proof.
  cbn zeta. split.
  - unfold Process. destruct req as [req|]; [|intros _; apply DownloaderFacts.sameProcess_refl].
    destruct (String.eqb (Arquivo req) ""); [intros _; apply DownloaderFacts.sameProcess_refl|].
    destruct (detectMediaTypeAndFormatFromURL (Arquivo req)) as [mediaType inputFormat] eqn:Hd.
    destruct (String.eqb_spec mediaType "") as [|Hmt];
      [intros _; apply DownloaderFacts.sameProcess_refl|].
    pose proof (Download_sameProcess env (downloader h) (Arquivo req)
                  (logf (LogInfo "Downloading file...") (logf (LogInfo "Processing") w))) as Hsp.
    destruct (Downloader.Download env (downloader h) (Arquivo req) _)
      as [[inputData|err] wd]; [|intros _; exact Hsp].
    destruct (GenerateTempPath env mediaType wd) as [p wp].
    destruct (WriteFile env (p +:+ ".original") inputData wp) as [[e|] ww]; [done|].
    destruct (GenerateTempPathWithFormat env mediaType inputFormat ww) as [out wo].
    pose proof (detected_converter _ _ _ inputData out Hd Hmt) as Hcv.
    destruct (converterFor env mediaType inputFormat inputData out) as [convert|]; [|done].
    destruct (convert _) as [[err|] wc]; [done|].
    destruct (match Stat out wc with Err e => IsNotExist e | Ok _ => false end); [done|].
    destruct (Store env out (p +:+ ".original") mediaType _) as [[fileID|e] ws]; done.
  - intros [->|(r0 & -> & Hd)]; [done|]. unfold Process.
    destruct (String.eqb (Arquivo r0) ""); [done|].
    destruct (detectMediaTypeAndFormatFromURL (Arquivo r0)) as [mediaType inputFormat].
    cbn in Hd. subst mediaType. done.
Qed.


(** X22. The URL a successful request returns can be fetched: [GetFile] on
    the last segment of that URL, in the state the request left, sends the
    stored artifact, which is on disk, with a content type of the media
    type the reply names. *)
Theorem GetFile_serves_what_Process_stored h req (w w' : World) reply :
  Process env h req w = (reply, w') ->
  Success (body reply) = true ->
  0 <= ttl (store w) ->
  exists param path,
    NovaURL (body reply) = baseURL h +:+ "/api/files/" +:+ param
    /\ fst (GetFile param w')
       = SendFile (getContentTypeFromPath path)
           ("attachment; filename=" +:+ quote +:+ Base path +:+ quote) path
    /\ fs w' !! path <> None
    /\ HasPrefix (getContentTypeFromPath path) (Handlers.MediaType (body reply) +:+ "/") = true.
Proof.
  intros H Hs Httl.
  destruct (Process_success_inv h req w w' reply H Hs) as (r & t & -> & Ht).
  pose proof (traces_frame h (Arquivo r) w w' t reply Ht)
    as (Horig & Hout & (k & Hid) & [Hst Hsl] & Htime & Hfsn).
  destruct Ht as (Hd & Hmt & Hdl & (p & wp & Hp & Ho & Hw) & Hout' & (convert & Hc & Hcv)
                  & Hfs & Hstore & -> & ->).
  pose proof (Store_cases env (tOutput t) (tOriginal t) (tMediaType t)
                (logf (LogInfo "Output file created") (tConverted t))) as (Ht1 & Ht2 & Hcases).
  cbn zeta in *. rewrite Hstore in *. cbn [fst snd] in *.
  destruct Hcases as [(e & He & _)|(id & sz & Hid' & Hsz & Hf & Hsl' & Hfs')]; [discriminate|].
  injection Hid' as <-.
  cbn [time store sleepers fs files logf set_log] in *.
  destruct (detected_extension (Arquivo r) _ _ Hd Hmt) as [Hext Hplain].
  exists (tFileID t +:+ getExtensionForFormat (tFormat t)), (tOutput t).
  cbn [successReply body NovaURL Handlers.MediaType].
  assert (Hne : tFileID t <> "").
  { rewrite Hid. pose proof (idAt_hex env k) as [Hl _]. destruct (idAt env k); [done|done]. }
  split; [reflexivity|]. split; [|split].
  - rewrite GetFile_served.
    2: { rewrite Hext. destruct (tFileID t); [done|]. rewrite app_cons. discriminate. }
    rewrite Hext, fileIDOf_dot by done. unfold served.
    cbn [files store time fs logf set_log]. rewrite Hf, lookup_insert_eq.
    cbn [ExpiresAt storedFile Path time store logf set_log].
    destruct (_ <? time (tStored t)) eqn:E.
    { apply Z.ltb_lt in E. rewrite Ht1, Hst in E. lia. }
    rewrite Hfs'. destruct (fs (tConverted t) !! tOutput t); [reflexivity|done].
  - cbn [fs logf set_log]. rewrite Hfs'. exact Hfs.
  - rewrite Hout. unfold outputPathOf.
    rewrite <- !append_assoc. apply contentType_detected.
    destruct (detect_cases (Arquivo r)) as [E|[Hin _]]; cbn zeta in *; rewrite Hd in *;
      [by injection E as E1 E2|exact Hin].
Qed.


End Facts.
End PipelineFacts.

(** ** Concrete runs *)

Module Runs.
Import GoErr Rt Demo.

#[local] Existing Instance demoLib.

Lemma pair_from_fst {A B} (p : A * B) (a : A) : fst p = a -> p = (a, snd p).
Proof. destruct p. cbn. by intros ->. Qed.

(** *** The store *)

Lemma Get_after_Store_witness :
  let w := set_fs {[ "/cache/temp/a.opus" := "opus" ]} (worldAt 5 0 tenMinutes) in
  let id := "01010101010101010101010101010101" in
  let w1 := snd (Storage.Store offline "/cache/temp/a.opus" "" "audio" w) in
  Storage.Store offline "/cache/temp/a.opus" "" "audio" w = (Ok id, w1)
  /\ Forall (fun s => sId s <> id) (sleepers w)
  /\ 0 < ttl (store w)
  /\ exists tf,
      ID tf = id /\ Path tf = "/cache/temp/a.opus" /\ OriginalPath tf = ""
      /\ MediaType tf = "audio" /\ CreatedAt tf = time w
      /\ ExpiresAt tf = time w + ttl (store w)
      /\ fst (Storage.Get id w1) = Ok tf
      /\ (forall w2 : World, rtc (Storage.around offline id) w1 w2 ->
            (time w2 < ExpiresAt tf -> fst (Storage.Get id w2) = Ok tf)
            /\ (ExpiresAt tf < time w2 -> isOk (fst (Storage.Get id w2)) = false))
      /\ (forall w2 : World, files (store w2) !! id = Some tf ->
            fs w2 !! "/cache/temp/a.opus" <> None ->
            ExpiresAt tf < time w2 ->
            fst (Storage.Get id w2) = Err (New ("file expired: " +:+ id))).
Proof.
  intros w id w1.
  assert (HS : Storage.Store offline "/cache/temp/a.opus" "" "audio" w = (Ok id, w1))
    by (apply pair_from_fst; vm_compute; reflexivity).
  assert (Hfresh : Forall (fun s => sId s <> id) (sleepers w)) by constructor.
  assert (Httl : 0 < ttl (store w)) by (vm_compute; reflexivity).
  split; [exact HS|]. split; [exact Hfresh|]. split; [exact Httl|].
  exact (StorageFacts.Get_after_Store offline _ _ _ w w1 id HS Hfresh Httl).
Defined.

(** C9, as stated, fails: a store built with a TTL of thirty seconds sweeps
    every sixty seconds, which is not shorter than its TTL, let alone a tenth
    of it. *)
Lemma sweep_interval_exceeds_short_ttl :
  let w := Storage.NewTempStorage "/cache/temp" (30 * Downloader.second)
             (worldAt 0 0 tenMinutes) in
  ttl (store w) = 30 * Downloader.second
  /\ period (cleanupTicker (store w)) = 60 * Downloader.second
  /\ ~ period (cleanupTicker (store w)) < ttl (store w).
Proof.
  vm_compute. repeat split; intros H; discriminate H.
Qed.

(** *** The downloader *)

(** C2 at the failing input: the first response is cut while its body is
    read, the read ends with [unexpected EOF], and [Download] returns that
    error after one attempt without sleeping, although the pattern list
    names "EOF" and the second request would have delivered the file. *)
Theorem Download_gives_up_on_unexpected_EOF :
  let cut := DoOk {| StatusCode := 200; ContentLength := -1;
                     Body := {| avail := bytes 50 "x";
                                trailer := Some ErrUnexpectedEOF |} |} in
  let env := envWith (fun k => match k with O => cut | _ => okBody (-1) (bytes 120 "x") end)
               0 (ExecDone "OUT") in
  let d := Downloader.NewDownloader 0 0 in
  let w := worldAt 0 0 tenMinutes in
  let r := Downloader.Download env d "https://cdn.example/a.mp3" w in
  In "EOF" Downloader.retryableErrors
  /\ fst r = Err (Wrap "read failed: " ErrUnexpectedEOF "")
  /\ Downloader.isRetryableError (Some (Wrap "read failed: " ErrUnexpectedEOF "")) = false
  /\ httpCalls (snd r) = 1%nat
  /\ time (snd r) = time w
  /\ DownloaderSpec.attempt env d "https://cdn.example/a.mp3" 1 w = Ok (bytes 120 "x").
Proof.
  vm_compute. repeat split; auto 10.
Qed.



Lemma size_boundary_witness :
  let d := {| Downloader.maxSize := 100; Downloader.timeout := 0 |} in
  let w := worldAt 0 0 tenMinutes in
  let url := "https://cdn.example/a.mp3" in
  let serving declared n := envWith (fun _ => okBody declared (bytes n "x")) 0 (ExecDone "OUT") in
  fst (Downloader.downloadWithValidation (serving 100 100%nat) d url 1 w)
  = Ok (bytes 100 "x")
  /\ fst (Downloader.downloadWithValidation (serving (-1) 100%nat) d url 1 w)
     = Ok (bytes 100 "x")
  /\ fst (Downloader.downloadWithValidation (serving 101 101%nat) d url 1 w)
     = Err (Downloader.tooLarge 101 100)
  /\ (let r := Downloader.downloadWithValidation (serving (-1) 150%nat) d url 1 w in
      fst r = Err (Downloader.tooLarge 101 100) /\ netRead (snd r) = netRead w + 101).
Proof.
  intros d w url serving.
  repeat apply conj.
  - destruct (DownloaderFacts.size_boundary (serving 100 100%nat)) as (Hexact & _).
    apply (Hexact d url 1 w _ eq_refl eq_refl eq_refl eq_refl);
      [by left|vm_compute; discriminate|intros _ Hv; vm_compute in Hv; discriminate].
  - destruct (DownloaderFacts.size_boundary (serving (-1) 100%nat)) as (Hexact & _).
    apply (Hexact d url 1 w _ eq_refl eq_refl eq_refl eq_refl);
      [right; vm_compute; discriminate|vm_compute; discriminate
      |intros Hv; vm_compute in Hv; discriminate].
  - destruct (DownloaderFacts.size_boundary (serving 101 101%nat)) as (_ & Hdeclared & _).
    apply (Hdeclared d url 1 w _ eq_refl eq_refl eq_refl).
  - destruct (DownloaderFacts.size_boundary (serving (-1) 150%nat)) as (_ & _ & Hunknown).
    apply (Hunknown d url 1 w _ eq_refl eq_refl); vm_compute; (discriminate || reflexivity).
  - destruct (DownloaderFacts.size_boundary (serving (-1) 150%nat)) as (_ & _ & Hunknown).
    apply (Hunknown d url 1 w _ eq_refl eq_refl); vm_compute; (discriminate || reflexivity).
Defined.

(** *** The converters *)

(** C8, as stated, fails: the level-based audio conversion generates no
    nonce, advances the process-wide generator, and its bitrate,
    compression and padding differ with the state of that generator, while
    the nonce a script conversion would generate is the same in both
    processes. *)
Lemma level_conversion_draws_from_the_process_generator :
  let w1 := worldAt 1000 1 tenMinutes in
  let w2 := worldAt 1000 2 tenMinutes in
  let run w := snd (Services.AudioConvert offline "abc" "basic" "/cache/temp/o.opus" w) in
  entropyReads (run w1) = entropyReads w1
  /\ global (run w1) <> global w1
  /\ ServicesSpec.emitted w1 (run w1) <> ServicesSpec.emitted w2 (run w2)
  /\ fst (Services.GenerateNonce offline w1) = fst (Services.GenerateNonce offline w2).
Proof.
  vm_compute. repeat split; intros H; discriminate H.
Qed.

Lemma script_parameters_witness :
  let w := worldAt 1000 1 tenMinutes in
  let convert := Services.AudioConvertWithScriptTechniques offline "abc" "/cache/temp/o.mp3" "mp3" in
  let w' := snd (convert w) in
  let nonce := fst (Services.GenerateNonce offline w) in
  Handlers.converterFor offline "audio" "mp3" "abc" "/cache/temp/o.mp3" = Some convert
  /\ ((ServicesSpec.emitted w w' = [] /\ entropyReads w' = entropyReads w
       /\ global w' = global w)
      \/ (ServicesSpec.emitted w w'
          = [ServicesSpec.scriptJob "audio" "mp3" "abc" "/cache/temp/o.mp3" nonce]
          /\ entropyReads w' = S (entropyReads w)
          /\ (entropySrc offline (entropyReads w) <> None -> global w' = global w))).
Proof.
  intros w convert w' nonce.
  assert (Hc : Handlers.converterFor offline "audio" "mp3" "abc" "/cache/temp/o.mp3"
               = Some convert) by reflexivity.
  split; [exact Hc|].
  exact (ServicesFacts.script_parameters_come_from_one_nonce
           offline "audio" "mp3" "abc" "/cache/temp/o.mp3" convert w Hc).
Defined.

(** *** The pipeline *)

(** C3 at the failing input: a URL that ends in [.png] and serves JPEG
    bytes.  The image converter writes its output under the [.jpg] name it
    derives from the bytes, the handler looks for the [.png] name, replies
    500 and removes the saved original only: the converted file stays on
    disk, registered nowhere, with no deletion pending. *)
Theorem Process_leaves_converted_file_behind :
  let env := envWith (fun _ => okBody 120 jpeg) 0 (ExecDone "JPEGOUT") in
  let w := worldAt 1000 7 tenMinutes in
  let r := Handlers.Process env handler
             (Some {| Handlers.Arquivo := "https://cdn.example/pic.png" |}) w in
  Handlers.status (fst r) = 500
  /\ Handlers.Message (Handlers.body (fst r)) = "Output file was not created"
  /\ fs w = ∅
  /\ fs (snd r) = {[ "/cache/temp/020202020202.jpg" := "JPEGOUT" ]}
  /\ files (store (snd r)) = ∅
  /\ sleepers (snd r) = [].
Proof.
  vm_compute. repeat split.
Qed.

(** The same request for the [.jpg] name of the same bytes succeeds, and
    both files are then owned by the store. *)
Example Process_jpg_succeeds :
  let env := envWith (fun _ => okBody 120 jpeg) 0 (ExecDone "JPEGOUT") in
  let w := worldAt 1000 7 tenMinutes in
  let r := Handlers.Process env handler
             (Some {| Handlers.Arquivo := "https://cdn.example/pic.jpg" |}) w in
  Handlers.status (fst r) = 200
  /\ dom (fs (snd r))
     = {[ "/cache/temp/010101010101.jpg.original"; "/cache/temp/020202020202.jpg" ]}
  /\ (Path <$> files (store (snd r)) !! Handlers.FileID (Handlers.body (fst r)))
     = Some "/cache/temp/020202020202.jpg".
Proof.
  vm_compute. repeat split.
Qed.

(** *** Transfers and checks *)

Lemma Download_payload_size_witness :
  let env := envWith (fun _ => okBody 120 (bytes 120 "x")) 0 (ExecDone "OUT") in
  let d := {| Downloader.maxSize := 1000; Downloader.timeout := 0 |} in
  let w := worldAt 0 0 tenMinutes in
  let r := Downloader.Download env d "https://cdn.example/a.mp3" w in
  fst r = Ok (bytes 120 "x")
  /\ 0 < Downloader.maxSize d
  /\ 100 <= GoStr.len (bytes 120 "x") <= Downloader.maxSize d.
Proof.
  intros env d w r.
  assert (H : fst r = Ok (bytes 120 "x")) by (vm_compute; reflexivity).
  assert (Hm : 0 < Downloader.maxSize d) by (cbn; lia).
  split; [exact H|]. split; [exact Hm|].
  exact (TransferFacts.Download_payload_size env d "https://cdn.example/a.mp3" w (snd r)
           (bytes 120 "x") (pair_from_fst r _ H) Hm).
Defined.

Lemma Download_network_reads_bounded_witness :
  let env := envWith (fun _ => okBody (-1) (bytes 5000 "x")) 0 (ExecDone "OUT") in
  let d := {| Downloader.maxSize := 1000; Downloader.timeout := 0 |} in
  let w := worldAt 0 0 tenMinutes in
  let w' := snd (Downloader.Download env d "https://cdn.example/a.mp3" w) in
  0 < Downloader.maxSize d
  /\ netRead w <= netRead w' <= netRead w + 3 * (Downloader.maxSize d + 1)
  /\ (DownloaderSpec.validURL "https://cdn.example/a.mp3" = false -> netRead w' = netRead w).
Proof.
  intros env d w w'.
  assert (Hm : 0 < Downloader.maxSize d) by (cbn; lia).
  split; [exact Hm|].
  exact (TransferFacts.Download_network_reads_bounded env d "https://cdn.example/a.mp3" w Hm).
Defined.

Lemma download_video_check_implies_ftyp_check_witness :
  let data := "0000ftypisom" +:+ bytes 88 "x" in
  100 <= GoStr.len data
  /\ Downloader.validateVideoData data = None
  /\ (Services.validateMP4Integrity data = None
      \/ Services.validateMP4Integrity data
         = Some (New "missing mdat/moov box - file may be truncated or corrupted")).
Proof.
  intros data.
  assert (Hl : 100 <= GoStr.len data) by (vm_compute; discriminate).
  assert (Hv : Downloader.validateVideoData data = None) by (vm_compute; reflexivity).
  split; [exact Hl|]. split; [exact Hv|].
  exact (TransferFacts.download_video_check_implies_ftyp_check data Hl Hv).
Defined.

Lemma validateMP4Integrity_accepts_only_boxed_data_witness :
  let data := "0000ftypisom" +:+ bytes 20 "x" +:+ "0000mdat" +:+ bytes 20 "y" in
  Services.validateMP4Integrity data = None
  /\ 32 <= GoStr.len data
  /\ GoStr.Contains data "ftyp" = true
  /\ (GoStr.Contains data "mdat" = true \/ GoStr.Contains data "moov" = true).
Proof.
  intros data.
  assert (Hv : Services.validateMP4Integrity data = None) by (vm_compute; reflexivity).
  split; [exact Hv|].
  exact (TransferFacts.validateMP4Integrity_accepts_only_boxed_data data Hv).
Defined.

(** *** Media types *)

Lemma content_type_follows_media_type_witness :
  let r := Handlers.detectMediaTypeAndFormatFromURL "https://cdn.example/a.MP3" in
  fst r <> ""
  /\ GoStr.HasPrefix
       (Handlers.getContentTypeFromPath
          ("/cache/temp/0a0b" +:+ Storage.getExtensionForFormat (snd r)))
       (fst r +:+ "/") = true.
Proof.
  intros r.
  assert (Hne : fst r <> "") by (vm_compute; discriminate).
  split; [exact Hne|].
  exact (UrlFacts.content_type_follows_media_type "https://cdn.example/a.MP3"
           "/cache/temp/0a0b" Hne).
Defined.

Lemma audio_container_follows_detected_format_witness :
  Handlers.detectMediaTypeAndFormatFromURL "https://cdn.example/voice.aac" = ("audio", "aac")
  /\ let '(codec, container, extraArgs) := Services.audioCodec "aac" in
     (container = "aac" \/ ("aac" = "aac" /\ container = "m4a"))
     /\ (codec, container, extraArgs) <> ("libopus", "opus", ["-vbr"; "on"]).
Proof.
  assert (Hd : Handlers.detectMediaTypeAndFormatFromURL "https://cdn.example/voice.aac"
               = ("audio", "aac")) by (vm_compute; reflexivity).
  split; [exact Hd|].
  exact (UrlFacts.audio_container_follows_detected_format
           "https://cdn.example/voice.aac" "aac" Hd).
Defined.

(** *** Conversions *)

Lemma demo_Intn_range (n : Z) (r : @Rand demoLib) :
  0 < n -> 0 <= fst (@Intn demoLib n r) < n.
Proof.
  intros Hn. cbn. destruct (n <=? 0) eqn:E; [apply Z.leb_le in E; lia|].
  cbn. apply Z.mod_pos_bound. lia.
Qed.

Lemma script_parameters_in_documented_ranges_witness :
  let w := worldAt 1000 1 tenMinutes in
  let convert :=
    Services.VideoConvertWithScriptTechniques offline
      ("0000ftypisom" +:+ bytes 20 "x" +:+ "0000mdat" +:+ bytes 20 "y") "/cache/temp/o.mp4" in
  (forall n r, 0 < n -> 0 <= fst (Intn n r) < n)
  /\ 0 <= time w
  /\ Forall ServicesSpec.documentedRange (ServicesSpec.emitted w (snd (convert w))).
Proof.
  intros w convert.
  assert (Ht : 0 <= time w) by (vm_compute; discriminate).
  split; [exact demo_Intn_range|]. split; [exact Ht|].
  exact (ConversionFacts.script_parameters_in_documented_ranges offline "video" "mp4"
           ("0000ftypisom" +:+ bytes 20 "x" +:+ "0000mdat" +:+ bytes 20 "y")
           "/cache/temp/o.mp4" convert w demo_Intn_range Ht eq_refl).
Defined.


Lemma audio_level_parameters_in_documented_ranges_witness :
  let w := worldAt 1000 1 tenMinutes in
  let p := fst (Services.audioGetRandomizedParams "paranoid" w) in
  (forall n r, 0 < n -> 0 <= fst (Intn n r) < n)
  /\ (exists b, 68 <= b <= 76 /\ bitrate p = GoStr.itoa b +:+ "k")
  /\ 7 <= compression p <= 10
  /\ 0 <= silencePadding p <= 5
  /\ (addNoise p = true <-> "paranoid" = "paranoid").
Proof.
  intros w p. split; [exact demo_Intn_range|].
  destruct (ConversionFacts.audio_level_parameters_in_documented_ranges "paranoid" w
              demo_Intn_range) as (H1 & H2 & H3 & H4 & _).
  split; [exact H1|]. split; [exact H2|]. split; [exact H3|exact H4].
Defined.

Lemma running_average_stays_in_range_witness :
  let events := [Some 10; None; Some 21; Some 12] in
  0 <= 10 /\ 10 <= 21
  /\ Forall (fun d => 10 <= d <= 21) (ServicesSpec.successes events)
  /\ Z.of_nat (length events) * (21 + 1) < Int64.half
  /\ exists s,
       ServicesSpec.replay events ServicesSpec.zeroStats = Some s
       /\ Services.TotalConversions s = Z.of_nat (length (ServicesSpec.successes events))
       /\ Services.FailedConversions s = Z.of_nat (ServicesSpec.failures events)
       /\ (ServicesSpec.successes events <> [] -> 10 <= Services.AvgConversionTime s <= 21)
       /\ (ServicesSpec.successes events = [] -> Services.AvgConversionTime s = 0).
Proof.
  intros events.
  assert (H0 : 0 <= 10) by lia. assert (H1 : 10 <= 21) by lia.
  assert (Hall : Forall (fun d => 10 <= d <= 21) (ServicesSpec.successes events))
    by (repeat constructor; lia).
  assert (Hno : Z.of_nat (length events) * (21 + 1) < Int64.half) by (vm_compute; reflexivity).
  split; [exact H0|]. split; [exact H1|]. split; [exact Hall|]. split; [exact Hno|].
  exact (ConversionFacts.running_average_stays_in_range events 10 21 H0 H1 Hall Hno).
Defined.

(** *** Store statistics *)

Lemma GetStats_after_Store_witness :
  let w := set_fs {[ "/cache/temp/a.opus" := "opus" ]} (worldAt 5 0 tenMinutes) in
  let id := "01010101010101010101010101010101" in
  let w1 := snd (Storage.Store offline "/cache/temp/a.opus" "" "audio" w) in
  Storage.Store offline "/cache/temp/a.opus" "" "audio" w = (Ok id, w1)
  /\ files (store w) !! id = None
  /\ exists content,
       fs w !! "/cache/temp/a.opus" = Some content
       /\ Storage.total_files (fst (Storage.GetStats w1))
          = Storage.total_files (fst (Storage.GetStats w)) + 1
       /\ Storage.totalSize (snd <$> map_to_list (files (store w1)))
          = Int64.wrap64 (Storage.totalSize (snd <$> map_to_list (files (store w)))
                          + GoStr.len content).
Proof.
  intros w id w1.
  assert (HS : Storage.Store offline "/cache/temp/a.opus" "" "audio" w = (Ok id, w1))
    by (apply pair_from_fst; vm_compute; reflexivity).
  assert (Hf : files (store w) !! id = None) by reflexivity.
  split; [exact HS|]. split; [exact Hf|].
  exact (StoreStatsFacts.GetStats_after_Store offline "/cache/temp/a.opus" "" "audio"
           w w1 id HS Hf).
Defined.

(** *** Requests *)

Lemma GetFile_ignores_the_extension_witness :
  let w := set_fs {[ "/cache/temp/a.opus" := "opus" ]} (worldAt 5 0 tenMinutes) in
  let w1 := snd (Storage.Store offline "/cache/temp/a.opus" "" "audio" w) in
  let id := "01010101010101010101010101010101" in
  id <> "" /\ TextSpec.plain id = true /\ TextSpec.plain "mp4" = true
  /\ fst (Handlers.GetFile (id +:+ "." +:+ "mp4") w1) = fst (Handlers.GetFile id w1)
  /\ HandlersSpec.fileIDOf (id +:+ "." +:+ "mp4") = id.
Proof.
  intros w w1 id.
  assert (H1 : id <> "") by discriminate.
  assert (H2 : TextSpec.plain id = true) by reflexivity.
  assert (H3 : TextSpec.plain "mp4" = true) by reflexivity.
  split; [exact H1|]. split; [exact H2|]. split; [exact H3|].
  exact (PipelineFacts.GetFile_ignores_the_extension id "mp4" w1 H1 H2 H3).
Defined.


Lemma GetFile_serves_what_Process_stored_witness :
  let env := envWith (fun _ => okBody 120 jpeg) 0 (ExecDone "JPEGOUT") in
  let w := worldAt 1000 7 tenMinutes in
  let req := Some {| Handlers.Arquivo := "https://cdn.example/pic.jpg" |} in
  let r := Handlers.Process env handler req w in
  Handlers.Success (Handlers.body (fst r)) = true
  /\ 0 <= ttl (store w)
  /\ exists param path,
       Handlers.NovaURL (Handlers.body (fst r))
       = Handlers.baseURL handler +:+ "/api/files/" +:+ param
       /\ fst (Handlers.GetFile param (snd r))
          = Handlers.SendFile (Handlers.getContentTypeFromPath path)
              ("attachment; filename=" +:+ Handlers.quote +:+ GoStr.Base path
               +:+ Handlers.quote) path
       /\ fs (snd r) !! path <> None
       /\ GoStr.HasPrefix (Handlers.getContentTypeFromPath path)
            (Handlers.MediaType (Handlers.body (fst r)) +:+ "/") = true.
Proof.
  intros env w req r.
  assert (Hs : Handlers.Success (Handlers.body (fst r)) = true) by (vm_compute; reflexivity).
  assert (Ht : 0 <= ttl (store w)) by (vm_compute; discriminate).
  split; [exact Hs|]. split; [exact Ht|].
  exact (PipelineFacts.GetFile_serves_what_Process_stored env handler req w (snd r)
           (fst r) (surjective_pairing r) Hs Ht).
Defined.


End Runs.
